(** * TRH Desktop: the setup orchestration core, embedded and checked

    A shallow embedding of the parts of the Electron main process
    ([docker.ts], [main.ts]) and of the renderer's setup page
    ([SetupPage.tsx]) that carry the control flow of the platform
    bring-up: port probing, credential validation, the status query, the
    compose subprocesses, the health poller, the single-flight guard and
    the container-start retry loop.

    Conventions of the embedding.
    - A JavaScript string is the list of its UTF-16 code units, so that
      [length] is [String.prototype.length].
    - A JavaScript number that the code only uses as an integer (port,
      process id, exit code, milliseconds) is a [Z]; this is exact below
      2^53, which covers all of them.
    - A promise is the value it settles to: [Resolved v] or [Rejected msg],
      where [msg] is the [message] of the [Error].
    - The operating system is a record of oracles (what a command prints,
      whether a port can be bound, whether a file exists).  Observable
      effects (signals, sleeps, spawns, log lines) are returned as a
      trace. *)

From Stdlib Require Import ZArith NArith Ascii String List Bool Lia DecimalString.
From stdpp Require Import base tactics option list gmap strings.
Import ListNotations.

Local Open Scope Z_scope.

(* ===================================================================== *)
(** * The JavaScript values and built-ins the code relies on              *)
(* ===================================================================== *)

Module JS.

(** UTF-16 code units. *)
Abbreviation jsstring := (list N).

Fixpoint lit (s : string) : jsstring :=
  match s with
  | EmptyString => []
  | String a s' => N_of_ascii a :: lit s'
  end.

Definition jseqb (a b : jsstring) : bool := bool_decide (a = b).

(** [Boolean(s)] for a string. *)
Definition truthyStr (s : jsstring) : bool :=
  match s with [] => false | _ => true end.

(** [a || b] on strings. *)
Definition orStr (a b : jsstring) : jsstring := if truthyStr a then a else b.

(** ECMAScript WhiteSpace and LineTerminator code points: the class [\s]
    of a regular expression and the characters [trim] strips. *)
Definition isWhiteSpace (c : N) : bool :=
  ((9 <=? c) && (c <=? 13) || (c =? 32) || (c =? 160) || (c =? 5760)
   || (8192 <=? c) && (c <=? 8202) || (c =? 8232) || (c =? 8233)
   || (c =? 8239) || (c =? 8287) || (c =? 12288) || (c =? 65279))%N.

Fixpoint trimStart (s : jsstring) : jsstring :=
  match s with
  | c :: s' => if isWhiteSpace c then trimStart s' else s
  | [] => []
  end.

Definition trimEnd (s : jsstring) : jsstring := rev (trimStart (rev s)).

Definition trim (s : jsstring) : jsstring := trimEnd (trimStart s).

(** [s.split(sep)] for a separator of one code unit. *)
Fixpoint split (sep : N) (s : jsstring) : list jsstring :=
  match s with
  | [] => [[]]
  | c :: s' =>
      if (c =? sep)%N then [] :: split sep s'
      else match split sep s' with
           | seg :: rest => (c :: seg) :: rest
           | [] => [[c]]
           end
  end.

Definition LF : N := 10%N.

Fixpoint startsWith (needle s : jsstring) : bool :=
  match needle, s with
  | [], _ => true
  | _ :: _, [] => false
  | a :: needle', b :: s' => (a =? b)%N && startsWith needle' s'
  end.

(** [s.includes(needle)]. *)
Fixpoint includes (needle s : jsstring) : bool :=
  startsWith needle s ||
  match s with
  | [] => false
  | _ :: s' => includes needle s'
  end.

(** [s.toLowerCase()].  Only the ASCII capitals are mapped: no code unit
    outside ASCII lowers to a sequence that can complete one of the ASCII
    needles this program searches for. *)
Definition lowerUnit (c : N) : N :=
  if ((65 <=? c) && (c <=? 90))%N then (c + 32)%N else c.

Definition toLowerCase (s : jsstring) : jsstring := map lowerUnit s.

(** [`${n}`] for an integer. *)
Definition showZ (n : Z) : jsstring := lit (NilZero.string_of_int (Z.to_int n)).

(** [`${code}`] for an exit code, which is [null] when the child was
    ended by a signal. *)
Definition showCode (code : option Z) : jsstring :=
  match code with Some n => showZ n | None => lit "null" end.

Definition digitVal (radix : N) (c : N) : option N :=
  let v := (if (48 <=? c) && (c <=? 57) then Some (c - 48)
            else if (97 <=? c) && (c <=? 122) then Some (c - 87)
            else if (65 <=? c) && (c <=? 90) then Some (c - 55)
            else None)%N in
  match v with
  | Some d => if (d <? radix)%N then Some d else None
  | None => None
  end.

(** The digits of the longest prefix in the radix, most significant
    first, as a number; [None] when the prefix is empty. *)
Fixpoint digitsFrom (radix : N) (acc : option N) (s : jsstring) : option N :=
  match s with
  | c :: s' =>
      match digitVal radix c with
      | Some d =>
          digitsFrom radix
            (Some (match acc with Some a => a * radix + d | None => d end)%N) s'
      | None => acc
      end
  | [] => acc
  end.

(** [parseInt(s)] without a radix; [None] is [NaN]. *)
Definition parseInt (s : jsstring) : option Z :=
  let s := trimStart s in
  let '(neg, s) :=
    match s with
    | 45%N :: s' => (true, s')
    | 43%N :: s' => (false, s')
    | _ => (false, s)
    end in
  let '(radix, s) :=
    match s with
    | 48%N :: 120%N :: s' => (16%N, s')
    | 48%N :: 88%N :: s' => (16%N, s')
    | _ => (10%N, s)
    end in
  match digitsFrom radix None s with
  | Some n => Some (if neg then - Z.of_N n else Z.of_N n)
  | None => None
  end.

(** What an awaited promise gives: its value, or the message of the
    error it throws. *)
Inductive Settled (A : Type) : Type :=
  | Resolved (v : A)
  | Rejected (message : jsstring).
Arguments Resolved {A} v.
Arguments Rejected {A} message.

Definition isResolved {A} (r : Settled A) : bool :=
  match r with Resolved _ => true | Rejected _ => false end.

End JS.

(* ===================================================================== *)
(** * Regular expressions, for [RegExp.prototype.test]                   *)
(* ===================================================================== *)

Module Regex.
Import JS.

Inductive re : Type :=
  | Void
  | Eps
  | Cls (p : N -> bool)
  | Cat (r1 r2 : re)
  | Alt (r1 r2 : re)
  | Star (r : re).

Definition Plus (r : re) : re := Cat r (Star r).

Fixpoint nullable (r : re) : bool :=
  match r with
  | Void => false
  | Eps => true
  | Cls _ => false
  | Cat r1 r2 => nullable r1 && nullable r2
  | Alt r1 r2 => nullable r1 || nullable r2
  | Star _ => true
  end.

Fixpoint deriv (c : N) (r : re) : re :=
  match r with
  | Void => Void
  | Eps => Void
  | Cls p => if p c then Eps else Void
  | Cat r1 r2 =>
      if nullable r1 then Alt (Cat (deriv c r1) r2) (deriv c r2)
      else Cat (deriv c r1) r2
  | Alt r1 r2 => Alt (deriv c r1) (deriv c r2)
  | Star r1 => Cat (deriv c r1) (Star r1)
  end.

(** [/^r$/.test(s)]: the whole string is in the language of [r]. *)
Fixpoint test (r : re) (s : jsstring) : bool :=
  match s with
  | [] => nullable r
  | c :: s' => test (deriv c r) s'
  end.

(** The language of a regular expression. *)
Inductive lang : re -> jsstring -> Prop :=
  | lang_eps : lang Eps []
  | lang_cls p c : p c = true -> lang (Cls p) [c]
  | lang_cat r1 r2 s1 s2 : lang r1 s1 -> lang r2 s2 -> lang (Cat r1 r2) (s1 ++ s2)
  | lang_alt_l r1 r2 s : lang r1 s -> lang (Alt r1 r2) s
  | lang_alt_r r1 r2 s : lang r2 s -> lang (Alt r1 r2) s
  | lang_star_nil r : lang (Star r) []
  | lang_star_cons r s1 s2 : lang r s1 -> lang (Star r) s2 -> lang (Star r) (s1 ++ s2).

End Regex.

(* ===================================================================== *)
(** * [JSON.parse]                                                       *)
(* ===================================================================== *)

Module Json.
Import JS.

(** A number literal: sign, the digits of the integer and fraction parts
    read as one natural number, and the power of ten that scales them. *)
Record JsNumber : Type := mkNumber {
  num_neg : bool;
  num_digits : N;
  num_exp10 : Z
}.

#[local] Set Warnings "-register-all".
Inductive JsValue : Type :=
  | JNull
  | JBool (b : bool)
  | JNum (n : JsNumber)
  | JStr (s : jsstring)
  | JArr (items : list JsValue)
  | JObj (members : list (jsstring * JsValue)).

(** Whether the literal denotes the double 0: its digits are all zero, or
    its value is at most 2^-1075 and rounds to zero. *)
Definition numIsZero (n : JsNumber) : bool :=
  let d := Z.of_N (num_digits n) in
  (d =? 0) ||
  (if 0 <=? num_exp10 n then false
   else d * 2 ^ 1075 <=? 10 ^ (- num_exp10 n)).

(** [Boolean(v)]. *)
Definition truthy (v : JsValue) : bool :=
  match v with
  | JNull => false
  | JBool b => b
  | JNum n => negb (numIsZero n)
  | JStr s => truthyStr s
  | JArr _ => true
  | JObj _ => true
  end.

(** [v.key]: the own property of an object, where a later duplicate key
    of the source text has replaced an earlier one; [None] is
    [undefined], which is also what every other parsed value gives for
    the keys this program reads. *)
Fixpoint lookupLast (key : jsstring) (members : list (jsstring * JsValue))
  : option JsValue :=
  match members with
  | [] => None
  | (k, v) :: rest =>
      match lookupLast key rest with
      | Some v' => Some v'
      | None => if jseqb k key then Some v else None
      end
  end.

Definition getProp (v : JsValue) (key : jsstring) : option JsValue :=
  match v with
  | JObj members => lookupLast key members
  | _ => None
  end.

(** [v === 'text']. *)
Definition strictEqStr (v : option JsValue) (text : jsstring) : bool :=
  match v with
  | Some (JStr s) => jseqb s text
  | _ => false
  end.

(** [!v] for a property that may be [undefined]. *)
Definition falsyProp (v : option JsValue) : bool :=
  match v with
  | None => true
  | Some x => negb (truthy x)
  end.

(** ** Lexical analysis, one code unit at a time *)

Inductive Token : Type :=
  | TLBrace | TRBrace | TLBrack | TRBrack | TColon | TComma
  | TScalar (v : JsValue).

Inductive LexState : Type :=
  | LIdle
  | LString (acc : jsstring)                 (* inside a string, reversed *)
  | LEscape (acc : jsstring)                 (* after a backslash *)
  | LUnicode (acc : jsstring) (hex : list N) (* after the u escape, digits so far *)
  | LNumber (acc : jsstring)                 (* a run of number characters *)
  | LWord (acc : jsstring).                  (* a run of letters *)

Definition isJsonSpace (c : N) : bool :=
  ((c =? 32) || (c =? 9) || (c =? 10) || (c =? 13))%N.

Definition isDigit (c : N) : bool := ((48 <=? c) && (c <=? 57))%N.

Definition isNumberChar (c : N) : bool :=
  (isDigit c || (c =? 45) || (c =? 43) || (c =? 46) || (c =? 101) || (c =? 69))%N.

Definition isLetter (c : N) : bool := ((97 <=? c) && (c <=? 122))%N.

Fixpoint spanDigits (s : jsstring) : jsstring * jsstring :=
  match s with
  | c :: s' =>
      if isDigit c then let '(ds, rest) := spanDigits s' in (c :: ds, rest)
      else ([], s)
  | [] => ([], [])
  end.

Definition digitsValue (ds : jsstring) : N :=
  fold_left (fun acc c => (acc * 10 + (c - 48))%N) ds 0%N.

(** The JSON number grammar: an optional minus; an integer part that is
    0 or starts with a non-zero digit; an optional fraction of a dot and
    at least one digit; an optional exponent of e or E, an optional sign
    and at least one digit. *)
Definition parseNumber (s : jsstring) : option JsNumber :=
  let '(neg, s) := match s with 45%N :: s' => (true, s') | _ => (false, s) end in
  let '(ip, s) := spanDigits s in
  let intOk := match ip with
               | [] => false
               | 48%N :: _ :: _ => false
               | _ => true
               end in
  if negb intOk then None else
  let fracPart :=
    match s with
    | 46%N :: s' =>
        let '(fp, rest) := spanDigits s' in
        match fp with [] => None | _ => Some (fp, rest) end
    | _ => Some ([], s)
    end in
  match fracPart with
  | None => None
  | Some (fp, s) =>
      let expPart :=
        match s with
        | [] => Some 0
        | e :: s' =>
            if ((e =? 101) || (e =? 69))%N then
              let '(eneg, s'') :=
                match s' with
                | 45%N :: t => (true, t)
                | 43%N :: t => (false, t)
                | _ => (false, s')
                end in
              let '(ep, rest) := spanDigits s'' in
              match ep, rest with
              | _ :: _, [] =>
                  let v := Z.of_N (digitsValue ep) in
                  Some (if eneg then - v else v)
              | _, _ => None
              end
            else None
        end in
      match expPart with
      | None => None
      | Some e =>
          Some (mkNumber neg (digitsValue (ip ++ fp)) (e - Z.of_nat (length fp)))
      end
  end.

Definition parseWord (w : jsstring) : option JsValue :=
  if jseqb w (lit "true") then Some (JBool true)
  else if jseqb w (lit "false") then Some (JBool false)
  else if jseqb w (lit "null") then Some JNull
  else None.

Definition hexValue (hex : list N) : option N :=
  fold_left (fun acc c =>
               match acc, digitVal 16 c with
               | Some a, Some d => Some (a * 16 + d)%N
               | _, _ => None
               end) hex (Some 0%N).

(** Closes the token a lexer state has been collecting, if any. *)
Definition flush (st : LexState) : option (list Token) :=
  match st with
  | LIdle => Some []
  | LNumber acc =>
      match parseNumber (rev acc) with
      | Some n => Some [TScalar (JNum n)]
      | None => None
      end
  | LWord acc =>
      match parseWord (rev acc) with
      | Some v => Some [TScalar v]
      | None => None
      end
  | LString _ | LEscape _ | LUnicode _ _ => None
  end.

Definition punct (c : N) : option Token :=
  (if c =? 123 then Some TLBrace
   else if c =? 125 then Some TRBrace
   else if c =? 91 then Some TLBrack
   else if c =? 93 then Some TRBrack
   else if c =? 58 then Some TColon
   else if c =? 44 then Some TComma
   else None)%N.

(** From the idle state: what a code unit starts. *)
Definition lexIdle (c : N) : option (LexState * list Token) :=
  if isJsonSpace c then Some (LIdle, [])
  else if (c =? 34)%N then Some (LString [], [])
  else if isDigit c || (c =? 45)%N then Some (LNumber [c], [])
  else if isLetter c then Some (LWord [c], [])
  else match punct c with
       | Some t => Some (LIdle, [t])
       | None => None
       end.

Definition escapeUnit (c : N) : option N :=
  (if c =? 34 then Some 34        (* quote *)
   else if c =? 92 then Some 92   (* backslash *)
   else if c =? 47 then Some 47   (* slash *)
   else if c =? 98 then Some 8    (* backspace *)
   else if c =? 102 then Some 12  (* form feed *)
   else if c =? 110 then Some 10  (* line feed *)
   else if c =? 114 then Some 13  (* carriage return *)
   else if c =? 116 then Some 9   (* tab *)
   else None)%N.

Definition lexStep (st : LexState) (c : N) : option (LexState * list Token) :=
  match st with
  | LIdle => lexIdle c
  | LString acc =>
      if (c =? 34)%N then Some (LIdle, [TScalar (JStr (rev acc))])
      else if (c =? 92)%N then Some (LEscape acc, [])
      else if (c <? 32)%N then None
      else Some (LString (c :: acc), [])
  | LEscape acc =>
      if (c =? 117)%N then Some (LUnicode acc [], [])
      else match escapeUnit c with
           | Some u => Some (LString (u :: acc), [])
           | None => None
           end
  | LUnicode acc hex =>
      match digitVal 16 c with
      | None => None
      | Some _ =>
          let hex' := hex ++ [c] in
          if (length hex' =? 4)%nat then
            match hexValue hex' with
            | Some u => Some (LString (u :: acc), [])
            | None => None
            end
          else Some (LUnicode acc hex', [])
      end
  | LNumber acc =>
      if isNumberChar c then Some (LNumber (c :: acc), [])
      else match flush st, lexIdle c with
           | Some ts, Some (st', ts') => Some (st', ts ++ ts')
           | _, _ => None
           end
  | LWord acc =>
      if isLetter c then Some (LWord (c :: acc), [])
      else match flush st, lexIdle c with
           | Some ts, Some (st', ts') => Some (st', ts ++ ts')
           | _, _ => None
           end
  end.

Fixpoint lexFrom (st : LexState) (s : jsstring) : option (list Token) :=
  match s with
  | [] => flush st
  | c :: s' =>
      match lexStep st c with
      | None => None
      | Some (st', ts) =>
          match lexFrom st' s' with
          | Some rest => Some (ts ++ rest)
          | None => None
          end
      end
  end.

(** ** Syntax analysis, one token at a time *)

Inductive Frame : Type :=
  | FArr (items : list JsValue)                       (* reversed *)
  | FObj (members : list (jsstring * JsValue))        (* reversed *)
         (pending : option jsstring).                 (* key awaiting its value *)

Inductive Mode : Type :=
  | MValue      (* a value must come *)
  | MArrFirst   (* after [  : a value or ] *)
  | MObjFirst   (* after {  : a key or } *)
  | MKey        (* after , in an object: a key *)
  | MColon      (* after a key: the colon *)
  | MSep        (* after a member or item: , or the closing bracket *)
  | MDone (v : JsValue).

(** A value is complete: it is the result, or it goes into the
    container being built. *)
Definition complete (v : JsValue) (stack : list Frame)
  : option (Mode * list Frame) :=
  match stack with
  | [] => Some (MDone v, [])
  | FArr items :: st => Some (MSep, FArr (v :: items) :: st)
  | FObj members (Some k) :: st => Some (MSep, FObj ((k, v) :: members) None :: st)
  | FObj _ None :: _ => None
  end.

Definition startValue (t : Token) (stack : list Frame)
  : option (Mode * list Frame) :=
  match t with
  | TScalar v => complete v stack
  | TLBrack => Some (MArrFirst, FArr [] :: stack)
  | TLBrace => Some (MObjFirst, FObj [] None :: stack)
  | _ => None
  end.

Definition takeKey (t : Token) (stack : list Frame)
  : option (Mode * list Frame) :=
  match t, stack with
  | TScalar (JStr k), FObj members None :: st =>
      Some (MColon, FObj members (Some k) :: st)
  | _, _ => None
  end.

Definition parseStep (m : Mode) (stack : list Frame) (t : Token)
  : option (Mode * list Frame) :=
  match m with
  | MValue => startValue t stack
  | MArrFirst =>
      match t, stack with
      | TRBrack, FArr [] :: st => complete (JArr []) st
      | _, _ => startValue t stack
      end
  | MObjFirst =>
      match t, stack with
      | TRBrace, FObj [] None :: st => complete (JObj []) st
      | _, _ => takeKey t stack
      end
  | MKey => takeKey t stack
  | MColon => match t with TColon => Some (MValue, stack) | _ => None end
  | MSep =>
      match t, stack with
      | TComma, FArr _ :: _ => Some (MValue, stack)
      | TComma, FObj _ None :: _ => Some (MKey, stack)
      | TRBrack, FArr items :: st => complete (JArr (rev items)) st
      | TRBrace, FObj members None :: st => complete (JObj (rev members)) st
      | _, _ => None
      end
  | MDone _ => None
  end.

Fixpoint parseFrom (m : Mode) (stack : list Frame) (ts : list Token)
  : option JsValue :=
  match ts with
  | [] => match m with MDone v => Some v | _ => None end
  | t :: ts' =>
      match parseStep m stack t with
      | Some (m', stack') => parseFrom m' stack' ts'
      | None => None
      end
  end.

(** [JSON.parse(text)]; [None] when it throws a [SyntaxError]. *)
Definition parse (text : jsstring) : option JsValue :=
  match lexFrom LIdle text with
  | Some ts => parseFrom MValue [] ts
  | None => None
  end.

End Json.

(* ===================================================================== *)
(** * [docker.ts]: the runtime gateway, the port probe, the health poller *)
(* ===================================================================== *)

Module Docker.
Import JS Json Regex.

#[export] Instance Settled_ret : MRet Settled := fun _ v => Resolved v.
#[export] Instance Settled_bind : MBind Settled := fun _ _ f m =>
  match m with
  | Resolved v => f v
  | Rejected e => Rejected e
  end.

Definition COMMAND_TIMEOUT : Z := 30000.
Definition HEALTH_CHECK_TIMEOUT : Z := 120000.
Definition HEALTH_CHECK_INTERVAL : Z := 3000.
Definition PULL_TIMEOUT : Z := 600000.
Definition COMPOSE_TIMEOUT : Z := 120000.

Definition REQUIRED_PORTS : list Z := [3000; 5433; 8000].

(** What [child_process.exec] hands to its callback: the standard output
    when [error] is null, else the standard error and [error.message]. *)
Inductive ExecOutcome : Type :=
  | ExecOk (stdout : jsstring)
  | ExecFail (stderr errorMessage : jsstring).

(** The machine the main process runs on.  Its own strings (the paths,
    the environment) hold no NUL: the operating system has none in a
    path or in an environment entry.  The last two fields are the texts
    of two errors of Node, which differ from one version to the next. *)
Record World : Type := mkWorld {
  DOCKER_BIN : jsstring;                   (* findDocker() *)
  composePath : jsstring;                  (* the path getComposePath joins *)
  composeFileExists : bool;                (* fs.existsSync(composePath) *)
  process_env : gmap string jsstring;      (* process.env *)
  shell : jsstring -> ExecOutcome;         (* running a command line *)
  canListen : Z -> bool;                   (* a server can listen on the port *)
  killError : Z -> option jsstring;        (* process.kill throws this *)
  listenRangeError : Z -> jsstring;        (* message of the RangeError of
                                              server.listen for this port *)
  spawnTypeError : gmap string jsstring -> jsstring
                                           (* message of the TypeError of spawn
                                              for this environment *)
}.

Inductive Signal : Type := SIGTERM | SIGKILL.

(** What an operation does to the outside, in order. *)
Inductive Effect : Type :=
  | Logged (line : jsstring)            (* handed to the log callback *)
  | Signalled (pid : Z) (sig : Signal)  (* process.kill(pid, sig) *)
  | Slept (ms : Z)                      (* a setTimeout that is awaited *)
  | Probed (port : Z).                  (* isPortAvailable(port) *)

(** [emitLog], with a log callback registered. *)
Definition emitLog (line : jsstring) : list Effect :=
  if truthyStr (trim line) then [Logged (trim line)] else [].

Definition EXTENDED_PATH (w : World) : jsstring :=
  lit "/usr/local/bin:/opt/homebrew/bin:/usr/bin:/bin:"
  ++ orStr (default [] (process_env w !! "PATH"%string)) [].

Definition getComposePath (w : World) : Settled jsstring :=
  if composeFileExists w then Resolved (composePath w)
  else Rejected (lit "Docker Compose file not found: " ++ composePath w).

Definition execPromise (w : World) (command : jsstring) : Settled jsstring :=
  match shell w command with
  | ExecOk stdout => Resolved (trim stdout)
  | ExecFail stderr message => Rejected (orStr stderr message)
  end.

(** [isPortAvailable(port)] for a port that [server.listen] accepts:
    whether the server gets to listen. *)
Definition isPortAvailable (w : World) (port : Z) : bool := canListen w port.

(** [server.listen(port, '127.0.0.1')] accepts the ports 0 to 65535. *)
Definition portInRange (port : Z) : bool := (0 <=? port) && (port <=? 65535).

(** [await isPortAvailable(port)] for any port: for one out of range,
    [server.listen] throws inside the promise, which is then rejected
    with the RangeError. *)
Definition probePort (w : World) (port : Z) : Settled bool :=
  if portInRange port then Resolved (isPortAvailable w port)
  else Rejected (listenRangeError w port).

(** ** Port probe *)

Record PortCheck : Type := mkPortCheck {
  pc_available : bool;
  blockedPorts : list Z
}.

Definition checkRequiredPorts (w : World) : PortCheck :=
  let blockedPorts :=
    List.filter (fun port => negb (isPortAvailable w port)) REQUIRED_PORTS in
  mkPortCheck (length blockedPorts =? 0)%nat blockedPorts.

Record PortConflict : Type := mkPortConflict {
  port : Z;
  pid : Z;
  processName : jsstring
}.

Record PortConflicts : Type := mkPortConflicts {
  available : bool;
  conflicts : list PortConflict
}.

Definition lsofCommand (port : Z) : jsstring :=
  lit "lsof -i :" ++ showZ port ++ lit " -t -sTCP:LISTEN".

Definition psCommand (pid : Z) : jsstring :=
  lit "ps -p " ++ showZ pid ++ lit " -o comm=".

(** [pidOutput.split('\n').map(p => parseInt(p.trim()))
               .filter(p => !isNaN(p) && p > 0)]. *)
Definition listedPids (pidOutput : jsstring) : list Z :=
  omap (fun p => match parseInt (trim p) with
                 | Some n => if 0 <? n then Some n else None
                 | None => None
                 end)
       (split LF pidOutput).

Definition conflictOf (w : World) (port pid : Z) : PortConflict :=
  match execPromise w (psCommand pid) with
  | Resolved name => mkPortConflict port pid (trim name)
  | Rejected _ => mkPortConflict port pid (lit "unknown")
  end.

(** One turn of the loop over the blocked ports. *)
Definition conflictsOn (w : World) (port : Z) : list PortConflict * list Effect :=
  match execPromise w (lsofCommand port) with
  | Resolved pidOutput => (map (conflictOf w port) (listedPids pidOutput), [])
  | Rejected _ =>
      ([], emitLog (lit "Could not identify process on port " ++ showZ port))
  end.

Definition getPortConflicts (w : World) : PortConflicts * list Effect :=
  let portCheck := checkRequiredPorts w in
  if pc_available portCheck then (mkPortConflicts true [], [])
  else
    let turns := map (conflictsOn w) (blockedPorts portCheck) in
    (mkPortConflicts false (concat (map fst turns)), concat (map snd turns)).

Definition killOne (w : World) (port pid : Z) : list Effect :=
  Signalled pid SIGTERM ::
  match killError w pid with
  | None =>
      emitLog (lit "Killed process " ++ showZ pid ++ lit " on port " ++ showZ port)
  | Some message =>
      emitLog (lit "Could not kill process " ++ showZ pid ++ lit " on port "
               ++ showZ port ++ lit ": " ++ message)
  end.

Definition killOn (w : World) (port : Z) : list Effect :=
  match execPromise w (lsofCommand port) with
  | Resolved pidOutput => concat (map (killOne w port) (listedPids pidOutput))
  | Rejected _ => []
  end.

(** The loop that verifies the ports, on the machine as it is after the
    wait. *)
Fixpoint verifyFreed (after : World) (ports : list Z) : Settled unit * list Effect :=
  match ports with
  | [] => (Resolved tt, [])
  | port :: rest =>
      match probePort after port with
      | Rejected message => (Rejected message, [Probed port])
      | Resolved available =>
          if negb available then
            (Rejected (lit "Port " ++ showZ port
                       ++ lit " is still in use after killing processes. You may need to free it manually."),
             [Probed port])
          else
            let '(r, effects) := verifyFreed after rest in
            (r, Probed port :: effects)
      end
  end.

(** [killPortProcesses(ports)]: [w] is the machine while the processes
    are looked up and signalled, [after] the machine once the wait is
    over. *)
Definition killPortProcesses (w after : World) (ports : list Z)
  : Settled unit * list Effect :=
  let kills := concat (map (killOn w) ports) in
  let '(r, probes) := verifyFreed after ports in
  (r, kills ++ [Slept 1500] ++ probes).

(** ** Credentials *)

Record ContainerConfig : Type := mkConfig {
  adminEmail : option jsstring;
  adminPassword : option jsstring
}.

Record Credentials : Type := mkCredentials {
  email : option jsstring;
  password : option jsstring
}.

(** The class [[^\s@]]. *)
Definition notSpaceNorAt (c : N) : bool := negb (isWhiteSpace c || (c =? 64)%N).

(** [/^[^\s@]+@[^\s@]+\.[^\s@]+$/]. *)
Definition emailPattern : re :=
  Cat (Plus (Cls notSpaceNorAt))
   (Cat (Cls (N.eqb 64))
     (Cat (Plus (Cls notSpaceNorAt))
       (Cat (Cls (N.eqb 46))
            (Plus (Cls notSpaceNorAt))))).

(** [config?.field], as the condition of an [if]: the field when it is
    there and not the empty string. *)
Definition given (field : option jsstring) : option jsstring :=
  match field with
  | Some s => if truthyStr s then Some s else None
  | None => None
  end.

Definition validateCredentials (config : option ContainerConfig)
  : Settled Credentials :=
  email ←
    match given (config ≫= adminEmail) with
    | Some adminEmail =>
        let email := trim adminEmail in
        if (254 <? length email)%nat then Rejected (lit "Email address too long")
        else if negb (test emailPattern email) then Rejected (lit "Invalid email format")
        else Resolved (Some email)
    | None => Resolved None
    end;
  password ←
    match given (config ≫= adminPassword) with
    | Some password =>
        if (128 <? length password)%nat then Rejected (lit "Password too long")
        else if (length password <? 8)%nat
             then Rejected (lit "Password must be at least 8 characters")
        else Resolved (Some password)
    | None => Resolved None
    end;
  mret (mkCredentials email password).

(** ** Status query *)

Record DockerStatus : Type := mkStatus {
  installed : bool;
  running : bool;
  containersUp : bool;
  healthy : bool;
  error : option jsstring
}.

(** A text between two double quotes (code unit 34). *)
Definition quoted (s : jsstring) : jsstring := 34%N :: s ++ [34%N].

Definition versionCommand (w : World) : jsstring :=
  quoted (DOCKER_BIN w) ++ lit " --version".

Definition infoCommand (w : World) : jsstring :=
  quoted (DOCKER_BIN w) ++ lit " info".

Definition psCommandLine (w : World) (composePath : jsstring) : jsstring :=
  quoted (DOCKER_BIN w) ++ lit " compose -f " ++ quoted composePath
  ++ lit " ps --format json".

Definition isDockerInstalled (w : World) : bool :=
  isResolved (execPromise w (versionCommand w)).

Definition isDockerRunning (w : World) : bool :=
  isResolved (execPromise w (infoCommand w)).

(** [try { return JSON.parse(line); } catch { return null; }]. *)
Definition parseLine (line : jsstring) : JsValue :=
  match parse line with
  | Some v => v
  | None => JNull
  end.

(** [psOutput.split('\n').filter(Boolean).map(...).filter(Boolean)]. *)
Definition parseContainers (psOutput : jsstring) : list JsValue :=
  List.filter truthy
    (map parseLine (List.filter truthyStr (split LF psOutput))).

Definition stateIsRunning (c : JsValue) : bool :=
  strictEqStr (getProp c (lit "State")) (lit "running").

Definition healthIsFine (c : JsValue) : bool :=
  falsyProp (getProp c (lit "Health"))
  || strictEqStr (getProp c (lit "Health")) (lit "healthy").

(** The output of the status command, as the [try] block of
    [getDockerStatus] obtains it; [Rejected] is what its [catch] sees. *)
Definition queryContainers (w : World) : Settled jsstring :=
  composePath ← getComposePath w;
  execPromise w (psCommandLine w composePath).

Definition getDockerStatus (w : World) : DockerStatus :=
  let installed := isDockerInstalled w in
  if negb installed then mkStatus false false false false None else
  let running := isDockerRunning w in
  if negb running then mkStatus true false false false None else
  match queryContainers w with
  | Resolved psOutput =>
      if negb (truthyStr psOutput) then mkStatus true true false false None else
      let containers := parseContainers psOutput in
      let allUp := (3 <=? length containers)%nat && forallb stateIsRunning containers in
      let allHealthy := forallb healthIsFine containers in
      mkStatus true true allUp (allUp && allHealthy) None
  | Rejected message => mkStatus true true false false (Some message)
  end.

(** ** Compose subprocesses *)

Record SpawnRequest : Type := mkSpawn {
  spawn_file : jsstring;
  spawn_args : list jsstring;
  spawn_env : gmap string jsstring
}.

(** What the child process and the timer deliver to the handlers that
    the operation registered, in the order of delivery. *)
Inductive ChildEvent : Type :=
  | StdoutData (text : jsstring)
  | StderrData (text : jsstring)
  | Closed (code : option Z)        (* 'close'; null after a signal *)
  | Errored (message : jsstring)    (* 'error' *)
  | TimerFired.                     (* the COMPOSE_TIMEOUT timer is due *)

(** The state the handlers of one operation share. *)
Record Run : Type := mkRun {
  promise : option (Settled unit);  (* None while pending *)
  timerArmed : bool;                (* the timeout is neither due nor cleared *)
  tracked : bool;                   (* the child is in activeProcesses *)
  stderrOutput : jsstring;
  signals : list Signal;            (* sent with child.kill *)
  logLines : list Effect
}.

(** [resolve()] and [reject(...)]: only the first of them has an effect. *)
Definition settle (p : Settled unit) (r : Run) : Run :=
  match promise r with
  | None => mkRun (Some p) (timerArmed r) (tracked r) (stderrOutput r) (signals r) (logLines r)
  | Some _ => r
  end.

(** [clearTimeout(timeout); activeProcesses.delete(child)]. *)
Definition release (r : Run) : Run :=
  mkRun (promise r) false false (stderrOutput r) (signals r) (logLines r).

Definition killChild (sig : Signal) (r : Run) : Run :=
  mkRun (promise r) (timerArmed r) (tracked r) (stderrOutput r) (signals r ++ [sig]) (logLines r).

Definition disarm (r : Run) : Run :=
  mkRun (promise r) false (tracked r) (stderrOutput r) (signals r) (logLines r).

(** [text.split('\n').filter(Boolean).forEach(line => emitLog(line))]. *)
Definition logData (text : jsstring) (r : Run) : Run :=
  mkRun (promise r) (timerArmed r) (tracked r) (stderrOutput r) (signals r)
        (logLines r ++ concat (map emitLog (List.filter truthyStr (split LF text)))).

Definition appendStderr (text : jsstring) (r : Run) : Run :=
  mkRun (promise r) (timerArmed r) (tracked r) (stderrOutput r ++ text) (signals r) (logLines r).

(** After [spawn]: the child is registered and the timer started. *)
Definition spawned : Run := mkRun None true true [] [] [].

(** The asynchronous function threw before it spawned anything. *)
Definition threw (message : jsstring) : Run :=
  mkRun (Some (Rejected message)) false false [] [] [].

(** An operation: the subprocesses it spawned and the state it ends in. *)
Record Operation : Type := mkOperation {
  spawns : list SpawnRequest;
  run : Run
}.

Definition composeArgs (composePath : jsstring) (verb : list jsstring) : list jsstring :=
  [lit "compose"; lit "-f"; composePath] ++ verb.

Definition baseEnv (w : World) : gmap string jsstring :=
  <["PATH"%string := EXTENDED_PATH w]> (process_env w).

(** *** [stopContainers] *)

Definition stopHandler (r : Run) (ev : ChildEvent) : Run :=
  match ev with
  | TimerFired =>
      if timerArmed r then
        settle (Rejected (lit "Container shutdown timed out. Try force-stopping Docker containers manually."))
               (killChild SIGTERM (disarm r))
      else r
  | StdoutData text => logData text r
  | StderrData text => logData text r
  | Closed code =>
      let r := release r in
      match code with
      | Some 0 | None => settle (Resolved tt) r
      | Some _ =>
          settle (Rejected (lit "Docker compose down failed with code " ++ showCode code)) r
      end
  | Errored message => settle (Rejected message) (release r)
  end.

Definition stopContainers (w : World) (events : list ChildEvent) : Operation :=
  match getComposePath w with
  | Rejected message => mkOperation [] (threw message)
  | Resolved composePath =>
      mkOperation
        [mkSpawn (DOCKER_BIN w) (composeArgs composePath [lit "down"]) (baseEnv w)]
        (fold_left stopHandler events spawned)
  end.

(** *** [startContainers] *)

Definition startFailure (code : option Z) (stderrOutput : jsstring) : jsstring :=
  if includes (lit "port is already allocated") stderrOutput then
    lit "Port conflict detected. Another process is using required ports."
  else if includes (lit "No such image") stderrOutput then
    lit "Required Docker images not found. Please pull images first."
  else if includes (lit "Cannot connect") stderrOutput then
    lit "Cannot connect to Docker daemon. Is Docker Desktop running?"
  else lit "Docker compose up failed with code " ++ showCode code ++ lit ".".

Definition startHandler (r : Run) (ev : ChildEvent) : Run :=
  match ev with
  | TimerFired =>
      if timerArmed r then
        settle (Rejected (lit "Container startup timed out. Docker may be unresponsive."))
               (killChild SIGTERM (disarm r))
      else r
  | StdoutData text => logData text r
  | StderrData text => logData text (appendStderr text r)
  | Closed code =>
      let r := release r in
      match code with
      | Some 0 => settle (Resolved tt) r
      | _ => settle (Rejected (startFailure code (stderrOutput r))) r
      end
  | Errored message => settle (Rejected message) (release r)
  end.

(** [if (credentials.field) env.NAME = credentials.field]. *)
Definition setIfGiven (name : string) (field : option jsstring)
  (env : gmap string jsstring) : gmap string jsstring :=
  match given field with
  | Some v => <[name := v]> env
  | None => env
  end.

Definition startEnv (w : World) (credentials : Credentials) : gmap string jsstring :=
  setIfGiven "ADMIN_PASSWORD" (password credentials)
    (setIfGiven "ADMIN_EMAIL" (email credentials) (baseEnv w)).

(** The string holds a NUL (code unit 0). *)
Definition holdsNul (s : jsstring) : bool := existsb (N.eqb 0) s.

(** [spawn] throws a TypeError for an environment in which a value holds
    a NUL.  The values of the machine hold none, so it comes to the two
    that [startContainers] adds. *)
Definition spawnRefuses (credentials : Credentials) : bool :=
  match given (email credentials) with
  | Some v => holdsNul v
  | None => false
  end
  || match given (password credentials) with
     | Some v => holdsNul v
     | None => false
     end.

Definition startContainers (w : World) (config : option ContainerConfig)
  (events : list ChildEvent) : Operation :=
  match composePath ← getComposePath w;
        credentials ← validateCredentials config;
        mret (composePath, credentials) with
  | Rejected message => mkOperation [] (threw message)
  | Resolved (composePath, credentials) =>
      let env := startEnv w credentials in
      if spawnRefuses credentials then
        (* [spawn] throws inside the promise: nothing is spawned, no
           timer is started, the promise is rejected *)
        mkOperation [] (threw (spawnTypeError w env))
      else
        mkOperation
          [mkSpawn (DOCKER_BIN w) (composeArgs composePath [lit "up"; lit "-d"]) env]
          (fold_left startHandler events spawned)
  end.

(** ** Health poller *)

(** One turn of the polling loop: the machine as the status query sees
    it, how long the query takes, and by how much the timer of the
    3-second wait is late. *)
Record Poll : Type := mkPoll {
  poll_world : World;
  poll_queryMs : N;
  poll_lateMs : N
}.

Definition phaseLabel (status : DockerStatus) : jsstring :=
  if containersUp status then lit "Waiting for services to become healthy..."
  else if running status then lit "Starting containers..."
  else lit "Waiting for Docker...".

(** The [while] loop of [waitForHealthy]; [now] is what [Date.now()]
    returns when the condition is evaluated, [k] counts the turns,
    [timeoutMs] is a whole number of milliseconds.
    The result is the returned boolean with the calls of [onStatus];
    [None] only when [fuel] turns were not enough. *)
Fixpoint waitLoop (fuel : nat) (polls : nat -> Poll) (timeoutMs startTime : Z)
  (k : nat) (now : Z) (labels : list jsstring) : option (bool * list jsstring) :=
  match fuel with
  | O => None
  | S fuel' =>
      if now - startTime <? timeoutMs then
        let status := getDockerStatus (poll_world (polls k)) in
        if healthy status then Some (true, labels ++ [lit "All services healthy"])
        else
          waitLoop fuel' polls timeoutMs startTime (S k)
            (now + Z.of_N (poll_queryMs (polls k))
                 + (HEALTH_CHECK_INTERVAL + Z.of_N (poll_lateMs (polls k))))
            (labels ++ [phaseLabel status])
      else Some (false, labels)
  end.

Definition waitForHealthy (fuel : nat) (polls : nat -> Poll)
  (timeoutMs : option Z) (startTime : Z) : option (bool * list jsstring) :=
  waitLoop fuel polls (default HEALTH_CHECK_TIMEOUT timeoutMs) startTime
           0%nat startTime [].

End Docker.

(* ===================================================================== *)
(** * [main.ts]: the single-flight guard of the IPC handlers             *)
(* ===================================================================== *)

Module Main.
Import JS Docker.

(** What takes the flag: the handlers of 'docker:start', 'docker:stop',
    'docker:pull-images' and 'docker:install-backend-deps', and the tray
    menu items 'Restart Services' and 'Stop Services'. *)
Inductive Request : Type :=
  | DockerStart (config : option ContainerConfig)
  | DockerStop
  | DockerPullImages
  | DockerInstallBackendDeps
  | TrayRestartServices
  | TrayStopServices.

Definition fromTray (request : Request) : bool :=
  match request with
  | TrayRestartServices | TrayStopServices => true
  | _ => false
  end.

(** The main process between two turns of the event loop: the flag, and
    the handlers that are suspended at an [await] of their [try] block,
    oldest first. *)
Record MainState : Type := mkMain {
  dockerOperationInProgress : bool;
  suspended : list Request
}.

Definition initial : MainState := mkMain false [].

Definition inProgressMessage : jsstring := lit "Docker operation already in progress".

(** A handler runs until it throws, returns or reaches its [await]. *)
Inductive Entry : Type :=
  | Threw (message : jsstring) (st : MainState)
  | ShowedErrorBox (title content : jsstring) (st : MainState)
  | Awaits (st : MainState).

(** The part the guarded handlers share, up to the first [await] in the
    [try] block: with the flag set an IPC handler throws and a tray item
    shows an error box and returns. *)
Definition enter (request : Request) (st : MainState) : Entry :=
  if dockerOperationInProgress st then
    if fromTray request then
      ShowedErrorBox (lit "Operation In Progress")
                     (lit "Please wait for the current operation to complete.") st
    else Threw inProgressMessage st
  else Awaits (mkMain true (suspended st ++ [request])).

(** ipcMain.handle('docker:start', ...) *)
Definition dockerStart (config : option ContainerConfig) (st : MainState) : Entry :=
  enter (DockerStart config) st.

(** The [try] block of the oldest suspended handler is over, normally or
    by an error: its [finally] block runs, and [outcome] is what the
    handler then replies (an IPC handler) or reports (a tray item). *)
Definition leave (outcome : Settled unit) (st : MainState)
  : option (Request * Settled unit) * MainState :=
  match suspended st with
  | request :: rest => (Some (request, outcome), mkMain false rest)
  | [] => (None, st)
  end.

(** What the event loop delivers to the main process. *)
Inductive Event : Type :=
  | Invoked (request : Request)
  | Settles (outcome : Settled unit).

Definition stateOf (e : Entry) : MainState :=
  match e with
  | Threw _ st => st
  | ShowedErrorBox _ _ st => st
  | Awaits st => st
  end.

Definition step (st : MainState) (ev : Event) : MainState :=
  match ev with
  | Invoked request => stateOf (enter request st)
  | Settles outcome => snd (leave outcome st)
  end.

Definition runEvents (events : list Event) : MainState :=
  fold_left step events initial.

(** 'docker:start' from the call to the reply, when nothing else
    happens in between: the promise of [startContainers] settles by the
    events of its child process, or stays pending. *)
Definition dockerStartToEnd (w : World) (config : option ContainerConfig)
  (events : list ChildEvent) (st : MainState)
  : option (Settled unit) * MainState :=
  match dockerStart config st with
  | Threw message st' => (Some (Rejected message), st')
  | ShowedErrorBox _ _ st' => (None, st')
  | Awaits st' =>
      match promise (run (startContainers w config events)) with
      | Some outcome => (Some outcome, snd (leave outcome st'))
      | None => (None, st')
      end
  end.

End Main.

(* ===================================================================== *)
(** * [SetupPage.tsx]: port resolution and the container-start loop      *)
(* ===================================================================== *)

Module SetupPage.
Import JS Docker.

Inductive StepStatus : Type := pending | loading | success | error.

Record StepState : Type := mkStep {
  status : StepStatus;
  detail : jsstring
}.

Record ErrorBox : Type := mkError {
  title : jsstring;
  message : jsstring
}.

(** Calls through the bridge to the main process. *)
Inductive IpcCall : Type :=
  | CheckPorts
  | KillPortProcesses (ports : list Z)
  | Start (config : ContainerConfig).

(** The state of the page that step 3 of [runSetup] reads and writes. *)
Record Page : Type := mkPage {
  containers : StepState;        (* steps.containers *)
  errorBox : option ErrorBox;    (* error *)
  showRetry : bool;
  runningRef : bool;             (* runningRef.current *)
  logListener : bool;            (* logCleanup() not called yet *)
  modalsShown : nat;             (* times the port modal was opened *)
  logs : list jsstring;          (* appendLog *)
  calls : list IpcCall
}.

Definition appendLog (text : jsstring) (pg : Page) : Page :=
  mkPage (containers pg) (errorBox pg) (showRetry pg) (runningRef pg)
         (logListener pg) (modalsShown pg) (logs pg ++ [text]) (calls pg).

Definition updateStep (st : StepStatus) (d : jsstring) (pg : Page) : Page :=
  mkPage (mkStep st d) (errorBox pg) (showRetry pg) (runningRef pg)
         (logListener pg) (modalsShown pg) (logs pg) (calls pg).

Definition call (c : IpcCall) (pg : Page) : Page :=
  mkPage (containers pg) (errorBox pg) (showRetry pg) (runningRef pg)
         (logListener pg) (modalsShown pg) (logs pg) (calls pg ++ [c]).

Definition showModal (pg : Page) : Page :=
  mkPage (containers pg) (errorBox pg) (showRetry pg) (runningRef pg)
         (logListener pg) (S (modalsShown pg)) (logs pg) (calls pg).

(** The end of every failing path of step 3:
    [updateStep('containers', {status: 'error', detail});
     setError({title, message}); setShowRetry(true);
     runningRef.current = false; logCleanup(); return]. *)
Definition failStep (d t m : jsstring) (pg : Page) : Page :=
  mkPage (mkStep error d) (Some (mkError t m)) true false false
         (modalsShown pg) (logs pg) (calls pg).

Inductive Choice : Type := confirm | cancel.

(** What the outside answers during one attempt: the main process to
    each call, the user to the modal. *)
Record Attempt : Type := mkAttempt {
  checkPorts : Settled PortConflicts;
  userChoice : Choice;
  killPorts : Settled unit;
  start : Settled unit
}.

(** [[...new Set(ports)]]: each port once, in the order of its first
    occurrence. *)
Fixpoint uniqueFrom (seen ports : list Z) : list Z :=
  match ports with
  | [] => []
  | p :: rest =>
      if existsb (Z.eqb p) seen then uniqueFrom seen rest
      else p :: uniqueFrom (p :: seen) rest
  end.

Fixpoint joinComma (ports : list Z) : jsstring :=
  match ports with
  | [] => []
  | [p] => showZ p
  | p :: rest => showZ p ++ lit ", " ++ joinComma rest
  end.

(** [resolvePortConflicts()]: [Rejected] when one of its calls throws. *)
Definition resolvePortConflicts (a : Attempt) (pg : Page) : Settled bool * Page :=
  let pg := appendLog (lit "Checking for port conflicts...") pg in
  let pg := updateStep loading (lit "Checking ports...") pg in
  let pg := call CheckPorts pg in
  match checkPorts a with
  | Rejected m => (Rejected m, pg)
  | Resolved portResult =>
      if available portResult then
        (Resolved true, appendLog (lit "All ports available") pg)
      else
        let conflictPorts := uniqueFrom [] (map port (conflicts portResult)) in
        let pg := appendLog (lit "Port conflict on: " ++ joinComma conflictPorts) pg in
        let pg := showModal pg in
        match userChoice a with
        | cancel =>
            (Resolved false,
             appendLog (lit "User cancelled " ++ [8212%N] ++ lit " ports not freed") pg)
        | confirm =>
            let pg := appendLog (lit "Freeing ports...") pg in
            let pg := updateStep loading (lit "Freeing ports...") pg in
            let pg := call (KillPortProcesses conflictPorts) pg in
            match killPorts a with
            | Rejected m => (Rejected m, pg)
            | Resolved _ =>
                (Resolved true, appendLog (lit "Ports freed successfully") pg)
            end
        end
  end.

Definition isPortError (msg : jsstring) : bool :=
  includes (lit "port") (toLowerCase msg)
  || includes (lit "address already in use") (toLowerCase msg).

(** The [try] block of one turn of the loop.  [Resolved true]: the
    containers started ([break]); [Resolved false]: the turn returned
    from [runSetup]; [Rejected]: the [catch] block takes over. *)
Definition tryStart (a : Attempt) (config : ContainerConfig) (pg : Page)
  : Settled bool * Page :=
  match resolvePortConflicts a pg with
  | (Rejected m, pg) => (Rejected m, pg)
  | (Resolved false, pg) =>
      (Resolved false,
       failStep (lit "Port conflict") (lit "Port Conflict")
                (lit "Free the required ports manually and retry.") pg)
  | (Resolved true, pg) =>
      let pg := appendLog (lit "Starting containers with docker compose...") pg in
      let pg := updateStep loading (lit "Starting...") pg in
      let pg := call (Start config) pg in
      match start a with
      | Rejected m => (Rejected m, pg)
      | Resolved _ =>
          let pg := appendLog (lit "Containers started successfully") pg in
          (Resolved true, updateStep success (lit "Running") pg)
      end
  end.

(** How step 3 ends. *)
Inductive Exit : Type :=
  | Continues   (* containerStarted: on to step 4 *)
  | Returns.    (* runSetup returned after a failure *)

(** [for (let attempt = 0; attempt < 3; attempt++)]: [left] is
    [3 - attempt], the turns the condition still admits; when none is
    left the loop ends with [containerStarted] still false. *)
Fixpoint startLoop (left : nat) (attempts : nat -> Attempt)
  (config : ContainerConfig) (attempt : nat) (pg : Page) : Exit * Page :=
  match left with
  | O =>
      (Returns,
       failStep (lit "Failed") (lit "Start Failed")
                (lit "Could not start containers after multiple attempts.") pg)
  | S left' =>
      match tryStart (attempts attempt) config pg with
      | (Resolved true, pg) => (Continues, pg)
      | (Resolved false, pg) => (Returns, pg)
      | (Rejected m, pg) =>
          let errorMsg := orStr m (lit "Could not start containers.") in
          if isPortError errorMsg && (attempt <? 2)%nat then
            startLoop left' attempts config (S attempt)
              (appendLog (lit "Port conflict during startup, retrying...") pg)
          else
            (Returns, failStep (lit "Failed") (lit "Start Failed") errorMsg pg)
      end
  end.

(** Step 3 of [runSetup]. *)
Definition startStep (attempts : nat -> Attempt) (config : ContainerConfig)
  (pg : Page) : Exit * Page :=
  startLoop 3 attempts config 0 pg.

Definition isCheckPorts (c : IpcCall) : bool :=
  match c with CheckPorts => true | _ => false end.

Definition isStart (c : IpcCall) : bool :=
  match c with Start _ => true | _ => false end.

End SetupPage.

(* ===================================================================== *)
(** * Sample machines                                                    *)
(* ===================================================================== *)

Module Sample.
Import JS Docker.

(** A machine with the compose file in place, on which every command
    fails and every port is free. *)
Definition bare : World :=
  mkWorld (lit "/usr/local/bin/docker")
          (lit "/app/resources/docker-compose.yml")
          true
          ∅
          (fun _ => ExecFail [] (lit "Command failed"))
          (fun _ => true)
          (fun _ => None)
          (fun port =>
             lit "options.port should be >= 0 and < 65536. Received type number ("
             ++ showZ port ++ lit ").")
          (fun _ => lit "The property 'options.env' must be a string without null bytes.").

(** The same machine with port 3000 taken by a process that [lsof]
    cannot be asked about. *)
Definition port3000Taken : World :=
  mkWorld (DOCKER_BIN bare) (composePath bare) true ∅
          (shell bare)
          (fun port => negb (port =? 3000))
          (killError bare) (listenRangeError bare) (spawnTypeError bare).

(** Port 3000 taken by process 4242, which [lsof] lists and [ps] cannot
    name; after the wait the port is free again on [bare]. *)
Definition port3000Listed : World :=
  mkWorld (DOCKER_BIN bare) (composePath bare) true ∅
          (fun command =>
             if jseqb command (lsofCommand 3000) then ExecOk (lit "4242")
             else ExecFail [] (lit "Command failed"))
          (fun port => negb (port =? 3000))
          (killError bare) (listenRangeError bare) (spawnTypeError bare).

(** Docker installed and running; the status command prints [psOutput]. *)
Definition printing (psOutput : jsstring) : World :=
  mkWorld (DOCKER_BIN bare) (composePath bare) true ∅
          (fun _ => ExecOk psOutput)
          (fun _ => true)
          (fun _ => None) (listenRangeError bare) (spawnTypeError bare).

(** Docker installed and running, the three containers running and
    reported healthy (an apostrophe stands for a double quote). *)
Definition healthyStack : World :=
  printing
    (map (fun c => if (c =? 39)%N then 34%N else c)
         (lit "{'State':'running','Health':'healthy'}" ++ [LF]
          ++ lit "{'State':'running','Health':'healthy'}" ++ [LF]
          ++ lit "{'State':'running','Health':'healthy'}" ++ [LF])).

(** The machine [bare] started with ADMIN_EMAIL and ADMIN_PASSWORD in
    its environment. *)
Definition withAdminInEnv : World :=
  mkWorld (DOCKER_BIN bare) (composePath bare) true
          (<["ADMIN_EMAIL"%string := lit "ops@example.org"]>
             (<["ADMIN_PASSWORD"%string := lit "inherited-secret"]> ∅))
          (shell bare) (canListen bare) (killError bare)
          (listenRangeError bare) (spawnTypeError bare).

(** Ports 3000 and 8000 both taken, whatever is done. *)
Definition twoPortsTaken : World :=
  mkWorld (DOCKER_BIN bare) (composePath bare) true ∅
          (shell bare)
          (fun port => negb ((port =? 3000) || (port =? 8000)))
          (killError bare) (listenRangeError bare) (spawnTypeError bare).

End Sample.

(* ===================================================================== *)
(** * Vocabulary of the properties                                       *)
(* ===================================================================== *)

Module Props.
Import JS Json Regex Docker.

(** The address shape: something, an at sign, something, a dot,
    something, where no "something" is empty or holds a white space or
    an at sign. *)
Definition addressShape (e : jsstring) : Prop :=
  exists l d t : jsstring,
    e = l ++ [64%N] ++ d ++ [46%N] ++ t
    /\ l <> [] /\ d <> [] /\ t <> []
    /\ forallb notSpaceNorAt l = true
    /\ forallb notSpaceNorAt d = true
    /\ forallb notSpaceNorAt t = true.

(** A field of the configuration that is absent or the empty string. *)
Definition blank (field : option jsstring) : Prop :=
  field = None \/ field = Some [].

(** A value was given for the email and, once trimmed, it does not have
    the address shape or is longer than 254. *)
Definition emailRefused (config : ContainerConfig) : Prop :=
  exists e, adminEmail config = Some e /\ e <> []
    /\ (~ addressShape (trim e) \/ (254 < length (trim e))%nat).

(** A value was given for the password and it is shorter than 8 or
    longer than 128. *)
Definition passwordRefused (config : ContainerConfig) : Prop :=
  exists p, adminPassword config = Some p /\ p <> []
    /\ ((length p < 8)%nat \/ (128 < length p)%nat).

(** The operation rejected before it spawned any subprocess. *)
Definition rejectedUnspawned (op : Operation) : Prop :=
  spawns op = [] /\ exists message, promise (run op) = Some (Rejected message).

(** The name [getPortConflicts] gives to the process [pid]. *)
Definition nameOf (w : World) (pid : Z) : jsstring :=
  match execPromise w (psCommand pid) with
  | Resolved name => trim name
  | Rejected _ => lit "unknown"
  end.

(** Effects of the first loop of [killPortProcesses]. *)
Definition isKillOrLog (e : Effect) : Prop :=
  match e with
  | Signalled _ _ | Logged _ => True
  | _ => False
  end.

Definition stillInUse (port : Z) : jsstring :=
  lit "Port " ++ showZ port
  ++ lit " is still in use after killing processes. You may need to free it manually.".

(** After the wait, the port is a port number and can be bound. *)
Definition freeAt (after : World) (port : Z) : Prop :=
  portInRange port = true /\ isPortAvailable after port = true.

(** The error for a port that is not free: still in use, or not a port
    number. *)
Definition probeError (after : World) (port : Z) : jsstring :=
  if portInRange port then stillInUse port else listenRangeError after port.

(** Output of the child: an event that settles nothing. *)
Definition isData (ev : ChildEvent) : Prop :=
  match ev with
  | StdoutData _ | StderrData _ => True
  | _ => False
  end.

Definition shutdownTimedOut : jsstring :=
  lit "Container shutdown timed out. Try force-stopping Docker containers manually.".

(** What [Date.now()] returns when the status query of turn [k] starts,
    if the loop of [waitForHealthy] gets that far: each earlier turn took
    the time of its query and of its wait. *)
Fixpoint queryStart (polls : nat -> Poll) (startTime : Z) (k : nat) : Z :=
  match k with
  | O => startTime
  | S k' =>
      queryStart polls startTime k'
      + Z.of_N (poll_queryMs (polls k'))
      + (HEALTH_CHECK_INTERVAL + Z.of_N (poll_lateMs (polls k')))
  end.

(** The status query of turn [k] starts within the timeout window. *)
Definition withinWindow (polls : nat -> Poll) (timeoutMs startTime : Z) (k : nat) : Prop :=
  queryStart polls startTime k - startTime < timeoutMs.

(** The status query of turn [k] returns healthy=true. *)
Definition healthyAt (polls : nat -> Poll) (k : nat) : Prop :=
  healthy (getDockerStatus (poll_world (polls k))) = true.

(** What [Date.now()] would return when the status query of turn [k]
    returns. *)
Definition queryEnd (polls : nat -> Poll) (startTime : Z) (k : nat) : Z :=
  queryStart polls startTime k + Z.of_N (poll_queryMs (polls k)).

(** A healthy stack on which every status query takes 5000 seconds. *)
Definition slowHealthy (k : nat) : Poll := mkPoll Sample.healthyStack 5000000 0.

(** The output that [getDockerStatus] parses: there is one when Docker
    is installed and running and the status command succeeded. *)
Definition statusOutput (w : World) : option jsstring :=
  if isDockerInstalled w && isDockerRunning w then
    match queryContainers w with
    | Resolved psOutput => Some psOutput
    | Rejected _ => None
    end
  else None.

(** The container records of a list of output lines. *)
Definition recordsOfLines (lines : list jsstring) : list JsValue :=
  List.filter truthy (map parseLine (List.filter truthyStr lines)).

(** The container records [getDockerStatus] works with; none when there
    is no output to parse. *)
Definition records (w : World) : list JsValue :=
  match statusOutput w with
  | Some psOutput => parseContainers psOutput
  | None => []
  end.

(** The record has no [Health] property, or one that is falsy (Docker
    prints the empty string for a container without a health probe). *)
Definition noHealth (c : JsValue) : Prop :=
  falsyProp (getProp c (lit "Health")) = true.

Definition reportsHealthy (c : JsValue) : Prop :=
  getProp c (lit "Health") = Some (JStr (lit "healthy")).

Definition reportsRunning (c : JsValue) : Prop :=
  getProp c (lit "State") = Some (JStr (lit "running")).

End Props.

Module SetupProps.
Import JS Docker SetupPage.

(** [resolvePortConflicts] finds the ports free, or finds conflicts that
    the user lets it clear and that are cleared: it returns true. *)
Definition portsResolved (a : Attempt) : Prop :=
  exists portResult, checkPorts a = Resolved portResult
    /\ (available portResult = true
        \/ (userChoice a = confirm /\ killPorts a = Resolved tt)).

(** The attempt gets past port resolution and its start call fails with
    the message [m]. *)
Definition startFails (a : Attempt) (m : jsstring) : Prop :=
  portsResolved a /\ start a = Rejected m.

(** [err.message || 'Could not start containers.']. *)
Definition errorMsgOf (m : jsstring) : jsstring :=
  orStr m (lit "Could not start containers.").

Definition isCheckOrStart (c : IpcCall) : bool := isCheckPorts c || isStart c.

(** The port checks and start calls among the calls made since [before]. *)
Definition checksAndStartsSince (before after : Page) : list IpcCall :=
  List.filter isCheckOrStart (drop (length (calls before)) (calls after)).

(** Sample answers: the ports are free and the start call fails with the
    port-conflict message of [startContainers], at every attempt. *)
Definition portConflictEachTime (k : nat) : Attempt :=
  mkAttempt (Resolved (mkPortConflicts true [])) cancel (Resolved tt)
            (Rejected (lit "Port conflict detected. Another process is using required ports.")).

(** The page when step 3 begins. *)
Definition pageAtStep3 : Page :=
  mkPage (mkStep pending (lit "Waiting...")) None false true true 0 [] [].

End SetupProps.

(* ===================================================================== *)
(** * [docker.ts]: process cleanup and the backend dependencies          *)
(* ===================================================================== *)

Module DockerExtra.
Import JS Docker.

(** A child process of the registry: [child.killed] is what Node sets
    once [child.kill] has sent a signal; it does not say that the process
    has ended. *)
Record Child : Type := mkChild {
  childId : Z;
  killed : bool
}.

(** [proc.kill(sig)]: [sent] tells whether the signal could be sent (it
    cannot when the process is gone); Node then sets [killed]. *)
Definition killProc (sent : bool) (proc : Child) : Child :=
  mkChild (childId proc) (killed proc || sent).

(** One turn of the [forEach] of [cleanupProcesses]: the child after it,
    the signal sent, and whether a 5-second timer was started for it. *)
Definition cleanupOne (sends : Z -> Signal -> bool) (proc : Child)
  : Child * list Effect * bool :=
  if negb (killed proc) then
    (killProc (sends (childId proc) SIGTERM) proc,
     [Signalled (childId proc) SIGTERM], true)
  else (proc, [], false).

(** The callback of the 5-second timer, on the child as it is then. *)
Definition followUp (proc : Child) : list Effect :=
  if negb (killed proc) then [Signalled (childId proc) SIGKILL] else [].

(** [cleanupProcesses()] with the timers it starts run to their end and
    nothing else touching the children meanwhile: the registry after it,
    the signals of the call, and the signals of the timers. *)
Definition cleanupProcesses (sends : Z -> Signal -> bool) (activeProcesses : list Child)
  : list Child * list Effect * list Effect :=
  let turns := map (cleanupOne sends) activeProcesses in
  ([],
   concat (map (fun t : Child * list Effect * bool => snd (fst t)) turns),
   concat (map (fun t : Child * list Effect * bool =>
                  if snd t then followUp (fst (fst t)) else []) turns)).

Record BackendDependencies : Type := mkDeps {
  pnpm : bool;
  node : bool;
  forge : bool;
  aws : bool;
  allInstalled : bool
}.

Definition whichCommand (w : World) (cmd : jsstring) : jsstring :=
  quoted (DOCKER_BIN w) ++ lit " exec trh-backend which " ++ cmd.

(** [checkCommand(cmd)]. *)
Definition checkCommand (w : World) (cmd : jsstring) : bool :=
  isResolved (execPromise w (whichCommand w cmd)).

Definition checkBackendDependencies (w : World) : BackendDependencies :=
  let pnpm := checkCommand w (lit "pnpm") in
  let node := checkCommand w (lit "node") in
  let forge := checkCommand w (lit "forge") in
  let aws := checkCommand w (lit "aws") in
  mkDeps pnpm node forge aws (pnpm && node && forge && aws).

Definition downloadCommand (w : World) : jsstring :=
  quoted (DOCKER_BIN w)
  ++ lit " exec trh-backend bash -c "
  ++ quoted (lit "wget -q https://raw.githubusercontent.com/tokamak-network/trh-backend/refs/heads/main/docker_install_dependencies_script.sh -O /tmp/install_deps.sh && chmod +x /tmp/install_deps.sh").

Definition symlinkCommand (w : World) : jsstring :=
  quoted (DOCKER_BIN w)
  ++ lit " exec trh-backend bash -c "
  ++ quoted (lit "ln -sf /root/.local/share/pnpm/pnpm /usr/local/bin/pnpm 2>/dev/null || true; ln -sf /root/.nvm/versions/node/*/bin/node /usr/local/bin/node 2>/dev/null || true; ln -sf /root/.nvm/versions/node/*/bin/npm /usr/local/bin/npm 2>/dev/null || true; ln -sf /root/.nvm/versions/node/*/bin/npx /usr/local/bin/npx 2>/dev/null || true; ln -sf /root/.foundry/bin/forge /usr/local/bin/forge 2>/dev/null || true; ln -sf /root/.foundry/bin/cast /usr/local/bin/cast 2>/dev/null || true; ln -sf /root/.foundry/bin/anvil /usr/local/bin/anvil 2>/dev/null || true").

(** The state the handlers of the install subprocess share. *)
Record Install : Type := mkInstall {
  installPromise : option (Settled unit);
  progress : list jsstring;          (* the calls of onProgress *)
  installLog : list Effect;
  commands : list jsstring           (* commands run with execPromise *)
}.

Definition settleInstall (p : Settled unit) (r : Install) : Install :=
  match installPromise r with
  | None => mkInstall (Some p) (progress r) (installLog r) (commands r)
  | Some _ => r
  end.

Definition reportProgress (status : jsstring) (r : Install) : Install :=
  mkInstall (installPromise r) (progress r ++ [status]) (installLog r) (commands r).

Definition logInstall (line : jsstring) (r : Install) : Install :=
  mkInstall (installPromise r) (progress r) (installLog r ++ emitLog line) (commands r).

Definition ranCommand (command : jsstring) (r : Install) : Install :=
  mkInstall (installPromise r) (progress r) (installLog r) (commands r ++ [command]).

(** A line of the installer that is worth showing. *)
Definition isStepLine (line : jsstring) : bool :=
  includes (lit "Installing") line || includes (lit "Setting up") line
  || includes (lit "STEP") line.

(** The body of the loop over the lines of a chunk of standard output:
    [line.trim().substring(0, 50)] is reported for a step line. *)
Definition installLine (r : Install) (line : jsstring) : Install :=
  let r := logInstall line r in
  if isStepLine line then reportProgress (take 50 (trim line)) r else r.

(** The handlers of the install subprocess.  The 'close' handler awaits
    the command that makes the symbolic links before it resolves; no
    event of the child can come in between, 'close' being its last. *)
Definition installHandler (w : World) (r : Install) (ev : ChildEvent) : Install :=
  match ev with
  | StdoutData text =>
      fold_left installLine (List.filter truthyStr (split LF text)) r
  | StderrData text =>
      fold_left (fun r line => logInstall line r)
                (List.filter truthyStr (split LF text)) r
  | Closed code =>
      match code with
      | Some 0 | None =>
          let r := reportProgress (lit "Finalizing setup...") r in
          let r := ranCommand (symlinkCommand w) r in
          settleInstall (Resolved tt) r
      | Some _ =>
          settleInstall
            (Rejected (lit "Dependency installation failed with code " ++ showCode code)) r
      end
  | Errored message => settleInstall (Rejected message) r
  | TimerFired => r   (* no timer is set *)
  end.

(** [installBackendDependencies(onProgress)]: the subprocesses spawned
    and the state it ends in. *)
Definition installBackendDependencies (w : World) (events : list ChildEvent)
  : list SpawnRequest * Install :=
  let r := mkInstall None [lit "Downloading dependency installer..."] []
                     [downloadCommand w] in
  match execPromise w (downloadCommand w) with
  | Rejected _ =>
      ([], settleInstall (Rejected (lit "Failed to download dependency installer")) r)
  | Resolved _ =>
      let r := reportProgress (lit "Installing dependencies...") r in
      ([mkSpawn (DOCKER_BIN w)
                [lit "exec"; lit "trh-backend"; lit "bash"; lit "-c";
                 lit "DEBIAN_FRONTEND=noninteractive TZ=UTC /tmp/install_deps.sh"]
                (baseEnv w)],
       fold_left (installHandler w) events r)
  end.

End DockerExtra.

(* ===================================================================== *)
(** * [main.ts]: quitting and loading the platform                       *)
(* ===================================================================== *)

Module MainExtra.
Import JS Docker.

(** What the handlers of this part do, in order. *)
Inductive AppEffect : Type :=
  | AppQuit                  (* app.quit() *)
  | PreventDefault           (* event.preventDefault() *)
  | CleanupProcesses         (* cleanupProcesses() *)
  | StopContainers           (* stopContainers() *)
  | ConsoleError             (* console.error(...) *)
  | AppExit (code : Z)       (* app.exit(code) *)
  | Fetched                  (* fetch(PLATFORM_UI_URL) *)
  | Waited (ms : Z)          (* an awaited setTimeout *)
  | LoadedURL                (* mainWindow.loadURL(PLATFORM_UI_URL) *)
  | QuitGoesOn.              (* 'before-quit' returned without preventing the
                                event: Electron goes on to close the windows *)

(** The main process as far as quitting goes. *)
Record Quitting : Type := mkQuitting {
  isQuitting : bool;
  stopping : bool;       (* 'before-quit' is suspended at [await stopContainers()] *)
  ended : bool;          (* the process is over *)
  did : list AppEffect
}.

(** What reaches the main process.  A quit request that 'before-quit'
    does not prevent makes Electron close the windows; [windowsClose]
    tells whether all of them do (a page can refuse in 'beforeunload'),
    in which case the application ends. *)
Inductive QuitEvent : Type :=
  | TrayQuitClicked (windowsClose : bool)   (* the 'Quit' item of the tray menu *)
  | QuitRequested (windowsClose : bool)     (* any other [app.quit()] *)
  | StopSettled (outcome : Settled unit).   (* the promise that 'before-quit'
                                               awaits is settled *)

(** app.on('before-quit', ...), up to its [await]: with [isQuitting] set
    it returns and the event stays unprevented. *)
Definition beforeQuit (windowsClose : bool) (q : Quitting) : Quitting :=
  if isQuitting q then
    mkQuitting true (stopping q) windowsClose (did q ++ [QuitGoesOn])
  else
    mkQuitting true true false
               (did q ++ [PreventDefault; CleanupProcesses; StopContainers]).

(** The rest of 'before-quit', once the promise of [stopContainers] is
    settled. *)
Definition resumeQuit (outcome : Settled unit) (q : Quitting) : Quitting :=
  mkQuitting (isQuitting q) false true
             (did q
              ++ (match outcome with Resolved _ => [] | Rejected _ => [ConsoleError] end)
              ++ [AppExit 0]).

(** The 'Quit' item of the tray menu; [app.quit()] emits 'before-quit'. *)
Definition trayQuit (windowsClose : bool) (q : Quitting) : Quitting :=
  beforeQuit windowsClose
    (mkQuitting true (stopping q) (ended q) (did q ++ [AppQuit])).

Definition quitStep (q : Quitting) (ev : QuitEvent) : Quitting :=
  if ended q then q
  else
    match ev with
    | TrayQuitClicked windowsClose => trayQuit windowsClose q
    | QuitRequested windowsClose => beforeQuit windowsClose q
    | StopSettled outcome => if stopping q then resumeQuit outcome q else q
    end.

(** The application when it has started: [isQuitting] is false. *)
Definition atStart : Quitting := mkQuitting false false false [].

Definition quitAll (events : list QuitEvent) : Quitting :=
  fold_left quitStep events atStart.

(** A quit request after which the application is still there: its
    windows did not all close.  [true] is the tray item. *)
Definition lingering (tray : bool) : QuitEvent :=
  if tray then TrayQuitClicked false else QuitRequested false.

(** What such a request does once [isQuitting] is set. *)
Definition lingerEffects (tray : bool) : list AppEffect :=
  if tray then [AppQuit; QuitGoesOn] else [QuitGoesOn].

(** What the teardown does when the stop is settled. *)
Definition teardownEnd (outcome : Settled unit) : list AppEffect :=
  (match outcome with Resolved _ => [] | Rejected _ => [ConsoleError] end)
  ++ [AppExit 0].

Definition isStopContainers (e : AppEffect) : bool :=
  match e with StopContainers => true | _ => false end.

Definition isCleanup (e : AppEffect) : bool :=
  match e with CleanupProcesses => true | _ => false end.

Definition isAppExit (e : AppEffect) : bool :=
  match e with AppExit _ => true | _ => false end.






End MainExtra.

(* ===================================================================== *)
(** * [ConfigPage.tsx]: the credentials form                             *)
(* ===================================================================== *)

Module ConfigPage.
Import JS Regex Docker.





End ConfigPage.

(* ===================================================================== *)
(** * [SetupPage.tsx]: the whole of [runSetup]                           *)
(* ===================================================================== *)

Module SetupRun.
Import JS Docker DockerExtra SetupPage.

(** Calls through the bridge other than those of step 3, and the pauses
    the run takes. *)
Inductive Request : Type :=
  | CheckInstalled
  | CheckRunning
  | PullImages
  | CheckBackendDeps
  | InstallBackendDeps
  | WaitHealthy (timeoutMs : Z)
  | Paused (ms : Z).

(** The state of the page: [page] holds step 3 and what all steps
    share (error box, retry button, [runningRef], logs). *)
Record Setup : Type := mkSetup {
  page : Page;
  docker : StepState;
  images : StepState;
  imagesProgress : option Z;
  deps : StepState;
  depsProgress : option Z;
  ready : StepState;
  showInstallDocker : bool;
  completions : nat;            (* calls of onComplete *)
  requests : list Request
}.

Record PullProgress : Type := mkProgress {
  service : jsstring;
  progressStatus : jsstring
}.

(** What the main process and the user answer during one run. *)
Record Answers : Type := mkAnswers {
  installedAnswer : bool;
  runningAnswer : bool;
  pullEvents : list PullProgress;
  pullAnswer : Settled unit;
  attempts : nat -> Attempt;
  depsAnswer : Settled BackendDependencies;
  installEvents : list jsstring;
  installAnswer : Settled unit;
  verifyAnswer : Settled BackendDependencies;
  statusUpdates : list jsstring;
  healthAnswer : Settled bool
}.

(** [truncate(s)] with its default [max = 35]. *)
Definition truncate (s : jsstring) : jsstring :=
  if (35 <? length s)%nat then take 35 s ++ lit "..." else s.

(** [parts.join(', ')]. *)
Fixpoint joinWith (parts : list jsstring) : jsstring :=
  match parts with
  | [] => []
  | [p] => p
  | p :: rest => p ++ lit ", " ++ joinWith rest
  end.

Definition onPage (f : Page -> Page) (s : Setup) : Setup :=
  mkSetup (f (page s)) (docker s) (images s) (imagesProgress s) (deps s)
          (depsProgress s) (ready s) (showInstallDocker s) (completions s) (requests s).

Definition request (r : Request) (s : Setup) : Setup :=
  mkSetup (page s) (docker s) (images s) (imagesProgress s) (deps s)
          (depsProgress s) (ready s) (showInstallDocker s) (completions s)
          (requests s ++ [r]).

Definition setDocker (st : StepStatus) (d : jsstring) (s : Setup) : Setup :=
  mkSetup (page s) (mkStep st d) (images s) (imagesProgress s) (deps s)
          (depsProgress s) (ready s) (showInstallDocker s) (completions s) (requests s).

(** [updateStep('images', {status, detail, progress})]; without a
    progress the old one stays. *)
Definition setImages (st : StepStatus) (d : jsstring) (progress : option Z)
  (s : Setup) : Setup :=
  mkSetup (page s) (docker s) (mkStep st d)
          (match progress with Some _ => progress | None => imagesProgress s end)
          (deps s) (depsProgress s) (ready s) (showInstallDocker s)
          (completions s) (requests s).

Definition setDeps (st : StepStatus) (d : jsstring) (progress : option Z)
  (s : Setup) : Setup :=
  mkSetup (page s) (docker s) (images s) (imagesProgress s) (mkStep st d)
          (match progress with Some _ => progress | None => depsProgress s end)
          (ready s) (showInstallDocker s) (completions s) (requests s).

(** [updateStep('deps', {progress})]. *)
Definition setDepsProgress (progress : Z) (s : Setup) : Setup :=
  mkSetup (page s) (docker s) (images s) (imagesProgress s) (deps s)
          (Some progress) (ready s) (showInstallDocker s) (completions s) (requests s).

Definition setReady (st : StepStatus) (d : jsstring) (s : Setup) : Setup :=
  mkSetup (page s) (docker s) (images s) (imagesProgress s) (deps s)
          (depsProgress s) (mkStep st d) (showInstallDocker s) (completions s)
          (requests s).

(** [setError({title, message}); setShowRetry(true);
     runningRef.current = false; logCleanup()]. *)
Definition failPage (t m : jsstring) (pg : Page) : Page :=
  mkPage (containers pg) (Some (mkError t m)) true false false
         (modalsShown pg) (logs pg) (calls pg).

Definition setShowInstallDocker (s : Setup) : Setup :=
  mkSetup (page s) (docker s) (images s) (imagesProgress s) (deps s)
          (depsProgress s) (ready s) true (completions s) (requests s).

Definition log (text : jsstring) (s : Setup) : Setup := onPage (appendLog text) s.

(** The beginning of a run, past the [runningRef] guard: everything is
    reset but the logs. *)
Definition reset (s : Setup) : Setup :=
  let waiting := mkStep pending (lit "Waiting...") in
  log (lit "Starting setup...")
    (mkSetup (mkPage waiting None false true true (modalsShown (page s))
                     (logs (page s)) (calls (page s)))
             waiting waiting None waiting None waiting false
             (completions s) (requests s)).

(** Step 1; the boolean tells whether the run goes on. *)
Definition dockerStep (a : Answers) (s : Setup) : Setup * bool :=
  let s := log (lit "Checking Docker installation...") s in
  let s := setDocker loading (lit "Checking Docker...") s in
  let s := request CheckInstalled s in
  if negb (installedAnswer a) then
    let s := log (lit "Docker not found on system") s in
    let s := setDocker error (lit "Not installed") s in
    let s := setShowInstallDocker s in
    (onPage (failPage (lit "Docker Required") (lit "Install Docker Desktop to continue.")) s,
     false)
  else
    let s := log (lit "Docker installed, checking if daemon is running...") s in
    let s := request CheckRunning s in
    if negb (runningAnswer a) then
      let s := log (lit "Docker daemon is not running") s in
      let s := setDocker error (lit "Not running") s in
      (onPage (failPage (lit "Docker Not Running") (lit "Start Docker Desktop and retry.")) s,
       false)
    else
      let s := log (lit "Docker daemon is running") s in
      (setDocker success (lit "Docker ready") s, true).

(** The callback of [onPullProgress]: the local [pullProgress] is what
    the step shows. *)
Definition onPullProgress (s : Setup) (progress : PullProgress) : Setup :=
  let pullProgress := Z.min (default 0 (imagesProgress s) + 2) 95 in
  setImages loading (truncate (progressStatus progress)) (Some pullProgress) s.

(** Step 2. *)
Definition pullStep (a : Answers) (s : Setup) : Setup * bool :=
  let s := log (lit "Pulling container images...") s in
  let s := setImages loading (lit "Pulling images...") (Some 0) s in
  let s := request PullImages s in
  let s := fold_left onPullProgress (pullEvents a) s in
  match pullAnswer a with
  | Resolved _ =>
      let s := log (lit "All images pulled successfully") s in
      (setImages success (lit "Images ready") (Some 100) s, true)
  | Rejected m =>
      let s := setImages error (lit "Failed") None s in
      (onPage (failPage (lit "Pull Failed") (orStr m (lit "Check internet connection."))) s,
       false)
  end.

(** Step 3: the loop of the claims, on the page. *)
Definition containersStep (a : Answers) (config : ContainerConfig) (s : Setup)
  : Setup * bool :=
  match startStep (attempts a) config (page s) with
  | (Continues, pg) => (onPage (fun _ => pg) s, true)
  | (Returns, pg) => (onPage (fun _ => pg) s, false)
  end.

(** The tools a check reports as missing, in the order of the page. *)
Definition missingOf (d : BackendDependencies) : list jsstring :=
  (if negb (pnpm d) then [lit "pnpm"] else [])
  ++ (if negb (node d) then [lit "node"] else [])
  ++ (if negb (forge d) then [lit "forge"] else [])
  ++ (if negb (aws d) then [lit "aws"] else []).

(** The [try] block of step 4: [Rejected] is what its [catch] gets. *)
Definition depsTry (a : Answers) (s : Setup) : Settled unit * Setup :=
  let s := request (Paused 2000) s in
  let s := request CheckBackendDeps s in
  match depsAnswer a with
  | Rejected m => (Rejected m, s)
  | Resolved deps =>
      let s := setDepsProgress 30 s in
      let done (s : Setup) :=
        let s := log (lit "All backend dependencies verified") s in
        (Resolved tt, setDeps success (lit "All tools ready") (Some 100) s) in
      if negb (allInstalled deps) then
        let missing := joinWith (missingOf deps) in
        let s := log (lit "Installing: " ++ missing) s in
        let s := setDeps loading (lit "Installing: " ++ missing ++ lit "...") None s in
        let s := request InstallBackendDeps s in
        let s := fold_left (fun s status => setDeps loading (truncate status) None s)
                           (installEvents a) s in
        match installAnswer a with
        | Rejected m => (Rejected m, s)
        | Resolved _ =>
            let s := setDeps loading (lit "Verifying installation...") (Some 90) s in
            let s := request (Paused 1000) s in
            let s := request CheckBackendDeps s in
            match verifyAnswer a with
            | Rejected m => (Rejected m, s)
            | Resolved verifyDeps =>
                if negb (allInstalled verifyDeps) then
                  (Rejected (lit "Still missing: " ++ joinWith (missingOf verifyDeps)), s)
                else done s
            end
        end
      else done s
  end.

(** Step 4. *)
Definition depsStep (a : Answers) (s : Setup) : Setup * bool :=
  let s := log (lit "Checking backend dependencies...") s in
  let s := setDeps loading (lit "Checking dependencies...") (Some 10) s in
  match depsTry a s with
  | (Resolved _, s) => (s, true)
  | (Rejected m, s) =>
      let s := setDeps error (lit "Installation failed") None s in
      (onPage (failPage (lit "Dependencies Failed")
                        (orStr m (lit "Could not install backend tools."))) s,
       false)
  end.

Definition finish (pg : Page) : Page :=
  mkPage (containers pg) (errorBox pg) (showRetry pg) false false
         (modalsShown pg) (logs pg) (calls pg).

Definition complete (s : Setup) : Setup :=
  mkSetup (page s) (docker s) (images s) (imagesProgress s) (deps s)
          (depsProgress s) (ready s) (showInstallDocker s) (S (completions s))
          (requests s).

(** Step 5. *)
Definition healthStep (a : Answers) (s : Setup) : Setup :=
  let s := log (lit "Running health checks...") s in
  let s := setReady loading (lit "Health check...") s in
  let s := request (WaitHealthy 180000) s in
  let s := fold_left (fun s status => setReady loading status s) (statusUpdates a) s in
  match healthAnswer a with
  | Resolved true =>
      let s := log (lit "All services healthy - setup complete!") s in
      let s := setReady success (lit "All systems go!") s in
      let s := onPage finish s in
      let s := request (Paused 600) s in
      complete s
  | Resolved false =>
      let s := setReady error (lit "Timeout") s in
      onPage (failPage (lit "Timeout") (lit "Services did not become healthy in time.")) s
  | Rejected m =>
      let s := setReady error (lit "Error") s in
      onPage (failPage (lit "Failed") (orStr m (lit "Unexpected error."))) s
  end.

(** [runSetup()], with the props [adminEmail] and [adminPassword]. *)
Definition runSetup (a : Answers) (adminEmail adminPassword : jsstring) (s : Setup)
  : Setup :=
  if runningRef (page s) then s else
  let s := reset s in
  let '(s, ok) := dockerStep a s in
  if negb ok then s else
  let '(s, ok) := pullStep a s in
  if negb ok then s else
  let '(s, ok) :=
    containersStep a (mkConfig (Some adminEmail) (Some adminPassword)) s in
  if negb ok then s else
  let '(s, ok) := depsStep a s in
  if negb ok then s else
  healthStep a s.

(** The page as it is mounted. *)
Definition mounted : Setup :=
  let waiting := mkStep pending (lit "Waiting...") in
  mkSetup (mkPage waiting None false false false 0 [] [])
          waiting waiting None waiting None waiting false 0 [].

(** The five steps, in order. *)
Definition statuses (s : Setup) : list StepStatus :=
  [status (docker s); status (images s); status (containers (page s));
   status (deps s); status (ready s)].

(** The wiring of step 3 to the main process: 'docker:check-ports' is
    [getPortConflicts] on the machine [w], 'docker:kill-port-processes'
    is [killPortProcesses], which ends on the machine [after]. *)
Definition attemptOn (w after : World) (choice : Choice) (started : Settled unit)
  : Attempt :=
  let portResult := fst (getPortConflicts w) in
  mkAttempt (Resolved portResult) choice
            (fst (killPortProcesses w after
                    (uniqueFrom [] (map port (conflicts portResult)))))
            started.

End SetupRun.

(* ===================================================================== *)
(** * Further vocabulary                                                 *)
(* ===================================================================== *)

Module MoreProps.
Import JS Docker.

(** What the child has written to its standard error in these events. *)
Definition stderrOf (events : list ChildEvent) : jsstring :=
  concat (map (fun ev => match ev with StderrData text => text | _ => [] end) events).

Definition startupTimedOut : jsstring :=
  lit "Container startup timed out. Docker may be unresponsive.".

(** The first and the last code unit of a text are not white space. *)
Definition tight (s : jsstring) : Prop :=
  (exists c rest, s = c :: rest /\ isWhiteSpace c = false)
  /\ (exists front c, s = front ++ [c] /\ isWhiteSpace c = false).

Definition isLogged (e : Effect) : Prop :=
  match e with Logged line => tight line | _ => False end.

(** A decimal digit or the minus sign. *)
Definition isDigitOrMinus (c : N) : bool :=
  ((48 <=? c) && (c <=? 57) || (c =? 45))%N.

Definition portAllocated : jsstring := lit "port is already allocated".

(** An event that settles nothing for the install subprocess: output,
    or a timer (it has none). *)
Definition isQuiet (ev : ChildEvent) : Prop :=
  match ev with
  | StdoutData _ | StderrData _ | TimerFired => True
  | _ => False
  end.

Definition isInstallRequest (r : SetupRun.Request) : bool :=
  match r with SetupRun.InstallBackendDeps => true | _ => false end.

Definition isCheckRequest (r : SetupRun.Request) : bool :=
  match r with SetupRun.CheckBackendDeps => true | _ => false end.

(** The requests made since [before]. *)
Definition requestsSince (before after : SetupRun.Setup) : list SetupRun.Request :=
  drop (length (SetupRun.requests before)) (SetupRun.requests after).

(** What a step that goes on leaves as it found it on the page. *)
Definition sameFlags (pg pg' : SetupPage.Page) : Prop :=
  SetupPage.errorBox pg' = SetupPage.errorBox pg
  /\ SetupPage.showRetry pg' = SetupPage.showRetry pg
  /\ SetupPage.runningRef pg' = SetupPage.runningRef pg
  /\ SetupPage.logListener pg' = SetupPage.logListener pg.

(** The page after a failing path: error box, retry button, no run in
    progress, log listener removed. *)
Definition stopped (pg : SetupPage.Page) : Prop :=
  SetupPage.errorBox pg <> None /\ SetupPage.showRetry pg = true
  /\ SetupPage.runningRef pg = false /\ SetupPage.logListener pg = false.

(** The step list of a run that got through its first [k] steps. *)
Definition endShape (k : nat) : list SetupPage.StepStatus :=
  repeat SetupPage.success k
  ++ (if (k <? 5)%nat then SetupPage.error :: repeat SetupPage.pending (4 - k) else []).



End MoreProps.

(* ===================================================================== *)
(** * Regular expressions: the matcher decides the language              *)
(* ===================================================================== *)

Section RegexFacts.
Import JS Regex.

Lemma lang_cls_inv (p : N -> bool) (s : jsstring) :
  lang (Cls p) s -> exists c, s = [c] /\ p c = true.
Proof. inversion 1; subst; eauto. Qed.

Lemma lang_cat_inv (r1 r2 : re) (s : jsstring) :
  lang (Cat r1 r2) s -> exists s1 s2, s = s1 ++ s2 /\ lang r1 s1 /\ lang r2 s2.
Proof. inversion 1; subst; eauto. Qed.

Lemma lang_alt_inv (r1 r2 : re) (s : jsstring) :
  lang (Alt r1 r2) s -> lang r1 s \/ lang r2 s.
Proof. inversion 1; subst; auto. Qed.

Lemma nullable_lang (r : re) : nullable r = true <-> lang r [].
Proof.
  induction r as [| | p | r1 IH1 r2 IH2 | r1 IH1 r2 IH2 | r IH]; simpl.
  - split; [discriminate | inversion 1].
  - split; [constructor | reflexivity].
  - split; [discriminate | intros H; apply lang_cls_inv in H as (c & ? & _); discriminate].
  - rewrite andb_true_iff, IH1, IH2. split.
    + intros [H1 H2]. exact (lang_cat _ _ [] [] H1 H2).
    + intros H. apply lang_cat_inv in H as (s1 & s2 & Heq & H1 & H2).
      symmetry in Heq. apply app_eq_nil in Heq as [-> ->]. auto.
  - rewrite orb_true_iff, IH1, IH2. split.
    + intros [H | H]; [apply lang_alt_l | apply lang_alt_r]; exact H.
    + apply lang_alt_inv.
  - split; [constructor | reflexivity].
Qed.

Lemma lang_star_cons_inv (r : re) (c : N) (s : jsstring) :
  lang (Star r) (c :: s) ->
  exists s1 s2, s = s1 ++ s2 /\ lang r (c :: s1) /\ lang (Star r) s2.
Proof.
  intros H. remember (Star r) as r' eqn:Hr. remember (c :: s) as cs eqn:Hcs.
  revert s Hcs.
  induction H as [| | | | | |r0 s1 s2 H1 _ H2 IH2]; intros tl Hcs; try discriminate.
  injection Hr as ->.
  destruct s1 as [|c1 s1]; simpl in Hcs.
  - apply IH2; [reflexivity | exact Hcs].
  - injection Hcs as -> <-. exists s1, s2. auto.
Qed.

Lemma deriv_lang (c : N) (r : re) : forall s, lang (deriv c r) s <-> lang r (c :: s).
Proof.
  induction r as [| | p | r1 IH1 r2 IH2 | r1 IH1 r2 IH2 | r IH]; intros s; simpl.
  - split; inversion 1.
  - split; inversion 1.
  - destruct (p c) eqn:Hp; split.
    + inversion 1; subst. constructor. exact Hp.
    + intros H. apply lang_cls_inv in H as (c' & [= <- ->] & _). constructor.
    + inversion 1.
    + intros H. apply lang_cls_inv in H as (c' & [= <- ->] & H). congruence.
  - assert (Hcat : lang (Cat (deriv c r1) r2) s -> lang (Cat r1 r2) (c :: s)).
    { intros H. apply lang_cat_inv in H as (s1 & s2 & -> & H1 & H2).
      apply IH1 in H1. exact (lang_cat _ _ (c :: s1) s2 H1 H2). }
    assert (Hinv : lang (Cat r1 r2) (c :: s) ->
                   lang (Cat (deriv c r1) r2) s
                   \/ (lang r1 [] /\ lang (deriv c r2) s)).
    { intros H. apply lang_cat_inv in H as (s1 & s2 & Heq & H1 & H2).
      destruct s1 as [|c1 s1]; simpl in Heq.
      - right. subst s2. split; [exact H1 | apply IH2; exact H2].
      - injection Heq as <- ->. left. constructor; [apply IH1; exact H1 | exact H2]. }
    destruct (nullable r1) eqn:Hn; split.
    + intros H. apply lang_alt_inv in H as [H | H]; [auto |].
      apply nullable_lang in Hn. apply (lang_cat _ _ [] (c :: s) Hn).
      apply IH2. assumption.
    + intros H. destruct (Hinv H) as [H' | [_ H']];
        [apply lang_alt_l | apply lang_alt_r]; exact H'.
    + exact Hcat.
    + intros H. destruct (Hinv H) as [H' | [H' _]]; [exact H' |].
      apply nullable_lang in H'. congruence.
  - split; intros H; apply lang_alt_inv in H as [H | H];
      [apply lang_alt_l | apply lang_alt_r | apply lang_alt_l | apply lang_alt_r];
      first [apply IH1 | apply IH2]; assumption.
  - split.
    + intros H. apply lang_cat_inv in H as (s1 & s2 & -> & H1 & H2).
      apply IH in H1. exact (lang_star_cons _ (c :: s1) s2 H1 H2).
    + intros H. apply lang_star_cons_inv in H as (s1 & s2 & -> & H1 & H2).
      constructor; [apply IH; exact H1 | exact H2].
Qed.

Lemma test_lang (r : re) (s : jsstring) : test r s = true <-> lang r s.
Proof.
  revert r. induction s as [|c s IH]; intros r; simpl.
  - apply nullable_lang.
  - rewrite IH. apply deriv_lang.
Qed.

Lemma lang_star_cls (p : N -> bool) (s : jsstring) :
  lang (Star (Cls p)) s <-> forallb p s = true.
Proof.
  split.
  - intros H. remember (Star (Cls p)) as r eqn:Hr.
    induction H as [| | | | | |r0 s1 s2 H1 _ H2 IH2]; try discriminate; [reflexivity |].
    injection Hr as ->. apply lang_cls_inv in H1 as (c & -> & Hc). simpl.
    rewrite IH2 by reflexivity. rewrite Hc. reflexivity.
  - induction s as [|c s IH]; simpl; intros H; [constructor |].
    apply andb_true_iff in H as [Hc Hs].
    apply (lang_star_cons _ [c] s); [constructor; exact Hc | auto].
Qed.

Lemma lang_plus_cls (p : N -> bool) (s : jsstring) :
  lang (Plus (Cls p)) s <-> s <> [] /\ forallb p s = true.
Proof.
  unfold Plus. split.
  - intros H. apply lang_cat_inv in H as (s1 & s2 & -> & H1 & H2).
    apply lang_cls_inv in H1 as (c & -> & Hc).
    apply lang_star_cls in H2. simpl. rewrite H2, Hc.
    split; [discriminate | reflexivity].
  - intros [Hne H]. destruct s as [|c s]; [congruence |].
    simpl in H. apply andb_true_iff in H as [Hc Hs].
    apply (lang_cat _ _ [c] s); [constructor; exact Hc | apply lang_star_cls; exact Hs].
Qed.

Lemma lang_unit (a : N) (s : jsstring) : lang (Cls (N.eqb a)) s <-> s = [a].
Proof.
  split.
  - intros H. apply lang_cls_inv in H as (c & -> & Hc).
    apply N.eqb_eq in Hc. congruence.
  - intros ->. constructor. apply N.eqb_refl.
Qed.

End RegexFacts.

(* ===================================================================== *)
(** * Credentials                                                        *)
(* ===================================================================== *)

Section CredentialFacts.
Import JS Regex Docker Props.

Lemma emailPattern_shape (e : jsstring) :
  test emailPattern e = true <-> addressShape e.
Proof.
  rewrite test_lang. unfold emailPattern, addressShape. split.
  - intros H.
    apply lang_cat_inv in H as (l & s1 & -> & Hl & H).
    apply lang_cat_inv in H as (a & s2 & -> & Ha & H).
    apply lang_cat_inv in H as (d & s3 & -> & Hd & H).
    apply lang_cat_inv in H as (o & t & -> & Ho & Ht).
    apply lang_unit in Ha as ->. apply lang_unit in Ho as ->.
    apply lang_plus_cls in Hl as [? ?], Hd as [? ?], Ht as [? ?].
    exists l, d, t. auto 10.
  - intros (l & d & t & -> & Hl & Hd & Ht & Fl & Fd & Ft).
    repeat apply lang_cat;
      first [apply lang_unit; reflexivity | apply lang_plus_cls; auto].
Qed.

Lemma given_blank (field : option jsstring) : blank field <-> given field = None.
Proof.
  unfold blank, given. destruct field as [[|c s]|]; simpl; split; intros H;
    try discriminate; auto; destruct H; discriminate.
Qed.

Lemma given_some (field : option jsstring) (s : jsstring) :
  given field = Some s <-> field = Some s /\ s <> [].
Proof.
  unfold given. destruct field as [[|c f]|]; simpl.
  - split; [discriminate | intros [[= <-] H]; congruence].
  - split; [intros [= <-]; split; [reflexivity | discriminate]
           | intros [[= <-] _]; reflexivity].
  - split; [discriminate | intros [? _]; discriminate].
Qed.

(** What [validateCredentials] returns, case by case. *)
Lemma validateCredentials_cases (config : ContainerConfig) :
  validateCredentials (Some config) =
    match given (adminEmail config) with
    | Some e =>
        if (254 <? length (trim e))%nat then Rejected (lit "Email address too long")
        else if negb (test emailPattern (trim e)) then Rejected (lit "Invalid email format")
        else
          match given (adminPassword config) with
          | Some p =>
              if (128 <? length p)%nat then Rejected (lit "Password too long")
              else if (length p <? 8)%nat
                   then Rejected (lit "Password must be at least 8 characters")
              else Resolved (mkCredentials (Some (trim e)) (Some p))
          | None => Resolved (mkCredentials (Some (trim e)) None)
          end
    | None =>
        match given (adminPassword config) with
        | Some p =>
            if (128 <? length p)%nat then Rejected (lit "Password too long")
            else if (length p <? 8)%nat
                 then Rejected (lit "Password must be at least 8 characters")
            else Resolved (mkCredentials None (Some p))
        | None => Resolved (mkCredentials None None)
        end
    end.
Proof.
  unfold validateCredentials; simpl.
  destruct (given (adminEmail config)) as [e|]; simpl.
  - destruct (254 <? length (trim e))%nat; [reflexivity |].
    destruct (test emailPattern (trim e)); simpl; [| reflexivity].
    destruct (given (adminPassword config)) as [p|]; simpl; [| reflexivity].
    destruct (128 <? length p)%nat; [reflexivity |].
    destruct (length p <? 8)%nat; reflexivity.
  - destruct (given (adminPassword config)) as [p|]; simpl; [| reflexivity].
    destruct (128 <? length p)%nat; [reflexivity |].
    destruct (length p <? 8)%nat; reflexivity.
Qed.

Lemma emailRefused_rejects (config : ContainerConfig) :
  emailRefused config -> exists m, validateCredentials (Some config) = Rejected m.
Proof.
  intros (e & He & Hne & Hbad). rewrite validateCredentials_cases.
  assert (Hg : given (adminEmail config) = Some e) by (apply given_some; auto).
  rewrite Hg.
  destruct (Nat.ltb_spec 254 (length (trim e))); [eauto |].
  destruct (test emailPattern (trim e)) eqn:Ht; simpl; [| eauto].
  apply emailPattern_shape in Ht. destruct Hbad; [contradiction | lia].
Qed.

Lemma passwordRefused_rejects (config : ContainerConfig) :
  passwordRefused config -> exists m, validateCredentials (Some config) = Rejected m.
Proof.
  intros (p & Hp & Hne & Hbad). rewrite validateCredentials_cases.
  assert (Hg : given (adminPassword config) = Some p) by (apply given_some; auto).
  rewrite Hg.
  assert (Hpw : exists m,
    (if (128 <? length p)%nat then Rejected (lit "Password too long")
     else if (length p <? 8)%nat
          then Rejected (lit "Password must be at least 8 characters")
     else Resolved (mkCredentials None (Some p))) = Rejected m
    /\ forall e, (if (128 <? length p)%nat then Rejected (lit "Password too long")
     else if (length p <? 8)%nat
          then Rejected (lit "Password must be at least 8 characters")
     else Resolved (mkCredentials e (Some p))) = Rejected m).
  { destruct (Nat.ltb_spec 128 (length p)); [eauto |].
    destruct (Nat.ltb_spec (length p) 8); [eauto | lia]. }
  destruct Hpw as (m & Hm & Hm').
  destruct (given (adminEmail config)) as [e|]; [| eauto].
  destruct (254 <? length (trim e))%nat; [eauto |].
  destruct (negb (test emailPattern (trim e))); [eauto |].
  exists m. apply Hm'.
Qed.

Lemma accepted_resolves (config : ContainerConfig) :
  ~ emailRefused config -> ~ passwordRefused config ->
  validateCredentials (Some config) =
    Resolved (mkCredentials (trim <$> given (adminEmail config))
                            (given (adminPassword config))).
Proof.
  intros He Hp. rewrite validateCredentials_cases.
  assert (Hpw : forall p, given (adminPassword config) = Some p ->
                (128 <? length p)%nat = false /\ (length p <? 8)%nat = false).
  { intros p Hg. apply given_some in Hg as [Hg Hne].
    split; [apply Nat.ltb_ge | apply Nat.ltb_ge];
      destruct (le_lt_dec (length p) 128), (le_lt_dec 8 (length p)); try lia;
      exfalso; apply Hp; exists p; repeat split; auto; lia. }
  destruct (given (adminEmail config)) as [e|] eqn:Hg; simpl.
  - apply given_some in Hg as [Hg Hne].
    destruct (Nat.ltb_spec 254 (length (trim e))).
    { exfalso. apply He. exists e. auto. }
    destruct (test emailPattern (trim e)) eqn:Ht; simpl.
    + destruct (given (adminPassword config)) as [p|]; [| reflexivity].
      destruct (Hpw p eq_refl) as [-> ->]. reflexivity.
    + exfalso. apply He. exists e. repeat split; auto. left.
      rewrite <- emailPattern_shape. congruence.
  - destruct (given (adminPassword config)) as [p|]; [| reflexivity].
    destruct (Hpw p eq_refl) as [-> ->]. reflexivity.
Qed.

Lemma rejected_before_spawn (w : World) (config : option ContainerConfig)
  (events : list ChildEvent) (m : jsstring) :
  validateCredentials config = Rejected m ->
  rejectedUnspawned (startContainers w config events).
Proof.
  intros H. unfold rejectedUnspawned, startContainers. rewrite H.
  destruct (getComposePath w); simpl; eauto.
Qed.

End CredentialFacts.

Section CredentialClaims.
Import JS Regex Docker Props.

(** The boolean and the propositional reading of the address shape
    agree on a sample that is not an address. *)
Example not_an_email_has_no_address_shape :
  ~ addressShape (trim (lit "not-an-email")).
Proof. rewrite <- emailPattern_shape. vm_compute. discriminate. Qed.

(** C5, as stated, fails: an email value of length 255 that does not
    match the address shape is accepted when white space pads a short
    valid address, because the value is trimmed before it is checked;
    and a password of length 0, which is less than 8, is accepted
    because an empty value is skipped. *)
Lemma padded_email_and_empty_password_accepted :
  let padded := lit "a@b.c" ++ repeat 32%N 250 in
  length padded = 255%nat
  /\ test emailPattern padded = false
  /\ length ([] : jsstring) = 0%nat
  /\ validateCredentials (Some (mkConfig (Some padded) (Some [])))
     = Resolved (mkCredentials (Some (lit "a@b.c")) None)
  /\ spawns (startContainers Sample.bare (Some (mkConfig (Some padded) (Some []))) [])
     = [mkSpawn (DOCKER_BIN Sample.bare)
                (composeArgs (composePath Sample.bare) [lit "up"; lit "-d"])
                (<["ADMIN_EMAIL"%string := lit "a@b.c"]> (baseEnv Sample.bare))].
Proof. vm_compute. repeat split; reflexivity. Qed.

(** C5 (amended).  [startContainers] rejects, before it spawns any
    subprocess, when a non-empty email does not, once trimmed, match the
    address shape or is then longer than 254, and when a non-empty
    password is shorter than 8 or longer than 128; "not-an-email" is such
    an email.  Otherwise validation succeeds with the trimmed email and
    the password; in particular a password of exactly 8 code units,
    whatever they are, is accepted. *)
Theorem startContainers_validates_credentials
  (w : World) (config : ContainerConfig) (events : list ChildEvent) :
  (emailRefused config \/ passwordRefused config ->
   rejectedUnspawned (startContainers w (Some config) events))
  /\ (~ emailRefused config -> ~ passwordRefused config ->
      validateCredentials (Some config)
      = Resolved (mkCredentials (trim <$> given (adminEmail config))
                                (given (adminPassword config))))
  /\ (forall p, adminPassword config = Some p -> length p = 8%nat ->
      ~ emailRefused config ->
      validateCredentials (Some config)
      = Resolved (mkCredentials (trim <$> given (adminEmail config)) (Some p)))
  /\ emailRefused (mkConfig (Some (lit "not-an-email")) (adminPassword config)).
Proof.
  split; [| split; [| split]].
  - intros [H | H];
      [apply emailRefused_rejects in H | apply passwordRefused_rejects in H];
      destruct H as [m Hm]; exact (rejected_before_spawn w _ events m Hm).
  - apply accepted_resolves.
  - intros p Hp Hlen He.
    assert (Hnp : ~ passwordRefused config).
    { intros (p' & Hp' & _ & Hbad). rewrite Hp in Hp'. injection Hp' as <-. lia. }
    rewrite (accepted_resolves config He Hnp). do 2 f_equal.
    apply given_some. split; [exact Hp |]. intros ->. discriminate.
  - exists (lit "not-an-email"). split; [reflexivity |]. split; [discriminate |].
    left. exact not_an_email_has_no_address_shape.
Qed.

Lemma startContainers_validates_credentials_witness :
  rejectedUnspawned
    (startContainers Sample.bare (Some (mkConfig (Some (lit "not-an-email")) None)) []).
Proof.
  pose proof (startContainers_validates_credentials Sample.bare
                (mkConfig (Some (lit "not-an-email")) None) []) as H.
  apply (proj1 H). left. apply (proj2 (proj2 (proj2 H))).
Defined.

Lemma startEnv_email (w : World) (creds : Credentials) :
  email creds = None ->
  startEnv w creds !! "ADMIN_EMAIL"%string = process_env w !! "ADMIN_EMAIL"%string.
Proof.
  intros H. unfold startEnv, setIfGiven, baseEnv. rewrite H. simpl.
  destruct (given (password creds)).
  - rewrite lookup_insert_ne by discriminate. apply lookup_insert_ne. discriminate.
  - apply lookup_insert_ne. discriminate.
Qed.

Lemma startEnv_password (w : World) (creds : Credentials) :
  password creds = None ->
  startEnv w creds !! "ADMIN_PASSWORD"%string = process_env w !! "ADMIN_PASSWORD"%string.
Proof.
  intros H. unfold startEnv, setIfGiven, baseEnv. rewrite H. simpl.
  destruct (given (email creds)).
  - rewrite lookup_insert_ne by discriminate. apply lookup_insert_ne. discriminate.
  - apply lookup_insert_ne. discriminate.
Qed.

(** The subprocess [startContainers] spawns, when it spawns one. *)
Lemma startContainers_spawn (w : World) (config : option ContainerConfig)
  (events : list ChildEvent) (sp : SpawnRequest) :
  sp ∈ spawns (startContainers w config events) ->
  exists creds, validateCredentials config = Resolved creds
                /\ spawn_env sp = startEnv w creds.
Proof.
  unfold startContainers.
  destruct (getComposePath w) as [path | m]; simpl;
    [| intros H; inversion H].
  destruct (validateCredentials config) as [creds | m]; simpl;
    [| intros H; inversion H].
  destruct (spawnRefuses creds); simpl; [intros H; inversion H |].
  intros H. apply list_elem_of_singleton in H as ->. eauto.
Qed.

(** C10, as stated, fails: on a machine started with ADMIN_EMAIL and
    ADMIN_PASSWORD in its environment, an empty email and an absent
    password leave both variables set for the subprocess, with the
    values of the parent. *)
Lemma blank_fields_leave_inherited_variables_set :
  let op := startContainers Sample.withAdminInEnv (Some (mkConfig (Some []) None)) [] in
  (fun sp => spawn_env sp !! "ADMIN_EMAIL"%string) <$> spawns op
  = [Some (lit "ops@example.org")]
  /\ (fun sp => spawn_env sp !! "ADMIN_PASSWORD"%string) <$> spawns op
     = [Some (lit "inherited-secret")].
Proof. vm_compute. split; reflexivity. Qed.

(** C10 (amended).  An [adminEmail] or [adminPassword] that is absent or
    the empty string is skipped: validation goes as if the field were
    not there, so nothing is thrown on its account, and [startContainers]
    does not set the variable: the subprocess it spawns has for
    ADMIN_EMAIL or ADMIN_PASSWORD exactly what [process.env] holds, so
    the variable is unset for the subprocess exactly when the parent has
    none.  With both fields blank and the compose file in place, one
    subprocess is spawned, with the environment of the parent but for
    PATH; and one is spawned whenever validation succeeds with values
    that [spawn] accepts. *)
Theorem blank_credentials_are_skipped
  (w : World) (config : ContainerConfig) (events : list ChildEvent) :
  (blank (adminEmail config) ->
     validateCredentials (Some config)
     = validateCredentials (Some (mkConfig None (adminPassword config)))
     /\ ~ emailRefused config
     /\ forall sp, sp ∈ spawns (startContainers w (Some config) events) ->
          spawn_env sp !! "ADMIN_EMAIL"%string = process_env w !! "ADMIN_EMAIL"%string)
  /\ (blank (adminPassword config) ->
     validateCredentials (Some config)
     = validateCredentials (Some (mkConfig (adminEmail config) None))
     /\ ~ passwordRefused config
     /\ forall sp, sp ∈ spawns (startContainers w (Some config) events) ->
          spawn_env sp !! "ADMIN_PASSWORD"%string = process_env w !! "ADMIN_PASSWORD"%string)
  /\ (blank (adminEmail config) -> blank (adminPassword config) ->
      validateCredentials (Some config) = Resolved (mkCredentials None None))
  /\ validateCredentials None = Resolved (mkCredentials None None)
  /\ (blank (adminEmail config) -> blank (adminPassword config) ->
      composeFileExists w = true ->
      spawns (startContainers w (Some config) events)
      = [mkSpawn (DOCKER_BIN w) (composeArgs (composePath w) [lit "up"; lit "-d"])
                 (<["PATH"%string := EXTENDED_PATH w]> (process_env w))])
  /\ (composeFileExists w = true ->
      forall creds, validateCredentials (Some config) = Resolved creds ->
      spawnRefuses creds = false ->
      exists sp, spawns (startContainers w (Some config) events) = [sp]).
Proof.
  split; [| split; [| split; [| split; [| split]]]].
  - intros Hb. pose proof (proj1 (given_blank _) Hb) as Hg.
    split; [| split].
    + rewrite !validateCredentials_cases. simpl. rewrite Hg. reflexivity.
    + intros (e & He & Hne & _). destruct Hb as [Hb | Hb]; congruence.
    + intros sp Hsp. apply startContainers_spawn in Hsp as (creds & Hv & ->).
      apply startEnv_email.
      rewrite validateCredentials_cases, Hg in Hv.
      destruct (given (adminPassword config)) as [p|].
      * destruct (128 <? length p)%nat; [discriminate |].
        destruct (length p <? 8)%nat; [discriminate |].
        injection Hv as <-. reflexivity.
      * injection Hv as <-. reflexivity.
  - intros Hb. pose proof (proj1 (given_blank _) Hb) as Hg.
    split; [| split].
    + rewrite !validateCredentials_cases. simpl. rewrite Hg. reflexivity.
    + intros (p & Hp & Hne & _). destruct Hb as [Hb | Hb]; congruence.
    + intros sp Hsp. apply startContainers_spawn in Hsp as (creds & Hv & ->).
      apply startEnv_password.
      rewrite validateCredentials_cases, Hg in Hv.
      destruct (given (adminEmail config)) as [e|].
      * destruct (254 <? length (trim e))%nat; [discriminate |].
        destruct (negb (test emailPattern (trim e))); [discriminate |].
        injection Hv as <-. reflexivity.
      * injection Hv as <-. reflexivity.
  - intros He Hp. apply given_blank in He, Hp.
    rewrite validateCredentials_cases, He, Hp. reflexivity.
  - reflexivity.
  - intros He Hp Hfile. apply given_blank in He, Hp.
    unfold startContainers, getComposePath. rewrite Hfile.
    cbn [mbind Settled_bind]. rewrite validateCredentials_cases, He, Hp.
    reflexivity.
  - intros Hfile creds Hcreds Hnul.
    unfold startContainers, getComposePath. rewrite Hfile.
    cbn [mbind Settled_bind]. rewrite Hcreds. cbn [mbind Settled_bind mret Settled_ret].
    rewrite Hnul. eexists. reflexivity.
Qed.

Lemma blank_credentials_are_skipped_witness :
  validateCredentials (Some (mkConfig (Some []) None)) = Resolved (mkCredentials None None).
Proof.
  apply (proj1 (proj2 (proj2 (blank_credentials_are_skipped Sample.bare
                                (mkConfig (Some []) None) [])))).
  - right. reflexivity.
  - left. reflexivity.
Defined.

End CredentialClaims.

(* ===================================================================== *)
(** * The status query                                                   *)
(* ===================================================================== *)

Section StatusFacts.
Import JS Json Docker Props.

Lemma strictEqStr_true (v : option JsValue) (text : jsstring) :
  strictEqStr v text = true <-> v = Some (JStr text).
Proof.
  unfold strictEqStr, jseqb.
  destruct v as [[| | | s | |]|]; try (split; discriminate).
  rewrite bool_decide_eq_true. split; congruence.
Qed.

Lemma stateIsRunning_true (c : JsValue) : stateIsRunning c = true <-> reportsRunning c.
Proof. apply strictEqStr_true. Qed.

Lemma healthIsFine_true (c : JsValue) :
  healthIsFine c = true <-> noHealth c \/ reportsHealthy c.
Proof.
  unfold healthIsFine, noHealth, reportsHealthy.
  rewrite orb_true_iff, strictEqStr_true. reflexivity.
Qed.

Lemma forallb_Forall_iff {A} (f : A -> bool) (P : A -> Prop) (l : list A) :
  (forall x, f x = true <-> P x) -> forallb f l = true <-> Forall P l.
Proof.
  intros H. induction l as [|x l IH]; simpl.
  - split; [constructor | reflexivity].
  - rewrite andb_true_iff, IH, H. split.
    + intros [? ?]. constructor; assumption.
    + inversion 1; auto.
Qed.

(** The five places where [getDockerStatus] returns. *)
Lemma getDockerStatus_cases (w : World) :
  getDockerStatus w =
    if negb (isDockerInstalled w) then mkStatus false false false false None
    else if negb (isDockerRunning w) then mkStatus true false false false None
    else match queryContainers w with
         | Rejected m => mkStatus true true false false (Some m)
         | Resolved psOutput =>
             let up := (3 <=? length (records w))%nat
                       && forallb stateIsRunning (records w) in
             mkStatus true true up (up && forallb healthIsFine (records w)) None
         end.
Proof.
  unfold getDockerStatus, records, statusOutput.
  destruct (isDockerInstalled w); simpl; [| reflexivity].
  destruct (isDockerRunning w); simpl; [| reflexivity].
  destruct (queryContainers w) as [psOutput | m]; [| reflexivity].
  destruct psOutput as [|c s]; reflexivity.
Qed.

Lemma records_none (w : World) : statusOutput w = None -> records w = [].
Proof. unfold records. intros ->. reflexivity. Qed.

Lemma recordsOfLines_skip (before after : list jsstring) (line : jsstring) :
  parse line = None ->
  recordsOfLines (before ++ line :: after) = recordsOfLines (before ++ after).
Proof.
  intros H. unfold recordsOfLines.
  rewrite !List.filter_app, !map_app, !List.filter_app. f_equal. simpl.
  destruct (truthyStr line); [| reflexivity].
  simpl. unfold parseLine at 1. rewrite H. reflexivity.
Qed.

Lemma recordsOfLines_all_fail (lines : list jsstring) :
  Forall (fun line => parse line = None) lines -> recordsOfLines lines = [].
Proof.
  unfold recordsOfLines. induction 1 as [|line lines H _ IH]; [reflexivity |].
  simpl. destruct (truthyStr line); [| exact IH].
  simpl. unfold parseLine at 1. rewrite H. exact IH.
Qed.

(** C9.  Every status [getDockerStatus] returns satisfies: healthy
    implies containersUp, containersUp implies running, running implies
    installed. *)
Theorem getDockerStatus_implication_chain (w : World) :
  let st := getDockerStatus w in
  (healthy st = true -> containersUp st = true)
  /\ (containersUp st = true -> running st = true)
  /\ (running st = true -> installed st = true).
Proof.
  simpl. rewrite getDockerStatus_cases.
  destruct (isDockerInstalled w); cbn [negb containersUp healthy error installed running]; [| repeat split; discriminate].
  destruct (isDockerRunning w); cbn [negb containersUp healthy error installed running]; [| repeat split; discriminate].
  destruct (queryContainers w); cbn [negb containersUp healthy error installed running]; repeat split; try discriminate.
  intros H. apply andb_true_iff in H as [H _]. exact H.
Qed.

(** C6, as stated, fails in its last part: when every line of the
    output fails to parse, the status has containersUp=false but carries
    no error detail. *)
Lemma total_parse_failure_has_no_error_detail :
  map parse (split LF (lit "not json")) = [None]
  /\ getDockerStatus (Sample.printing (lit "not json"))
     = mkStatus true true false false None
  /\ error (getDockerStatus (Sample.printing (lit "not json"))) = None.
Proof. vm_compute. repeat split; reflexivity. Qed.

(** C6 (amended).  With [records w] the values parsed from the lines of
    the status output (none when Docker is not installed or not running
    or the status command failed): containersUp is true exactly when
    there are at least 3 records and every record has State "running";
    healthy is true exactly when, in addition, every record has no (or a
    falsy) Health or Health "healthy".  A line that fails to parse
    contributes no record and never an error.  When every line fails to
    parse the status is installed, running, containersUp=false,
    healthy=false, with no error detail: an error detail is attached
    exactly when the status command itself failed. *)
Theorem getDockerStatus_containers (w : World) :
  let st := getDockerStatus w in
  (containersUp st = true <->
     (3 <= length (records w))%nat /\ Forall reportsRunning (records w))
  /\ (healthy st = true <->
     containersUp st = true
     /\ Forall (fun c => noHealth c \/ reportsHealthy c) (records w))
  /\ (forall psOutput, statusOutput w = Some psOutput ->
        records w = recordsOfLines (split LF psOutput) /\ error st = None)
  /\ (forall before line after, parse line = None ->
        recordsOfLines (before ++ line :: after) = recordsOfLines (before ++ after))
  /\ (forall psOutput, statusOutput w = Some psOutput ->
        Forall (fun line => parse line = None) (split LF psOutput) ->
        st = mkStatus true true false false None)
  /\ (error st <> None <->
        isDockerInstalled w = true /\ isDockerRunning w = true
        /\ exists m, queryContainers w = Rejected m).
Proof.
  simpl.
  assert (Hup : containersUp (getDockerStatus w) = true <->
     (3 <= length (records w))%nat /\ Forall reportsRunning (records w)).
  { rewrite getDockerStatus_cases.
    destruct (isDockerInstalled w) eqn:Hi; cbn [negb containersUp healthy error installed running].
    2:{ rewrite records_none by (unfold statusOutput; rewrite Hi; reflexivity).
        split; [discriminate | simpl; lia]. }
    destruct (isDockerRunning w) eqn:Hr; cbn [negb containersUp healthy error installed running].
    2:{ rewrite records_none by (unfold statusOutput; rewrite Hi, Hr; reflexivity).
        split; [discriminate | simpl; lia]. }
    destruct (queryContainers w) eqn:Hq; cbn [negb containersUp healthy error installed running].
    - rewrite andb_true_iff, Nat.leb_le.
      rewrite (forallb_Forall_iff _ _ _ stateIsRunning_true). reflexivity.
    - rewrite records_none by (unfold statusOutput; rewrite Hi, Hr, Hq; reflexivity).
      split; [discriminate | simpl; lia]. }
  split; [exact Hup |]. split; [| split; [| split; [| split]]].
  - rewrite getDockerStatus_cases.
    destruct (isDockerInstalled w); cbn [negb containersUp healthy error installed running]; [| split; [discriminate | intros [? _]; discriminate]].
    destruct (isDockerRunning w); cbn [negb containersUp healthy error installed running]; [| split; [discriminate | intros [? _]; discriminate]].
    destruct (queryContainers w); cbn [negb containersUp healthy error installed running]; [| split; [discriminate | intros [? _]; discriminate]].
    rewrite andb_true_iff.
    rewrite (forallb_Forall_iff _ _ _ healthIsFine_true). reflexivity.
  - intros psOutput Hout. unfold records. rewrite Hout. split; [reflexivity |].
    rewrite getDockerStatus_cases. unfold statusOutput in Hout.
    destruct (isDockerInstalled w); cbn [negb andb] in *; [| discriminate].
    destruct (isDockerRunning w); cbn [negb andb] in *; [| discriminate].
    destruct (queryContainers w); [reflexivity | discriminate].
  - intros before line after. apply recordsOfLines_skip.
  - intros psOutput Hout Hfail.
    assert (Hrec : records w = []).
    { unfold records. rewrite Hout. apply (recordsOfLines_all_fail _ Hfail). }
    rewrite getDockerStatus_cases, Hrec. unfold statusOutput in Hout.
    destruct (isDockerInstalled w); cbn [negb andb] in *; [| discriminate].
    destruct (isDockerRunning w); cbn [negb andb] in *; [| discriminate].
    destruct (queryContainers w); [reflexivity | discriminate].
  - rewrite getDockerStatus_cases.
    destruct (isDockerInstalled w); cbn [negb containersUp healthy error installed running];
      [| split; [congruence | intros (? & _); discriminate]].
    destruct (isDockerRunning w); cbn [negb containersUp healthy error installed running];
      [| split; [congruence | intros (_ & ? & _); discriminate]].
    destruct (queryContainers w) as [out | m]; cbn [negb containersUp healthy error installed running].
    + split; [congruence | intros (_ & _ & m & ?); discriminate].
    + split; [eauto | discriminate].
Qed.

(** Three running containers, one of them without a health probe, and a
    line of noise: up and healthy. *)
Example three_running_containers :
  let out := [lit "{'State':'running','Health':'healthy','Name':'trh-db'}";
              lit "{'State':'running','Health':''}";
              lit "warning: noise";
              lit "{'Health':'healthy','State':'running'}"] in
  let psOutput :=
    map (fun c => if (c =? 39)%N then 34%N else c)
        (concat (map (fun l => l ++ [LF]) out)) in
  getDockerStatus (Sample.printing psOutput) = mkStatus true true true true None.
Proof. vm_compute. reflexivity. Qed.

End StatusFacts.

(* ===================================================================== *)
(** * The port probe                                                     *)
(* ===================================================================== *)

Section PortFacts.
Import JS Docker Props.

Lemma checkRequiredPorts_blocked (w : World) (P : Z) :
  P ∈ blockedPorts (checkRequiredPorts w)
  <-> P ∈ REQUIRED_PORTS /\ isPortAvailable w P = false.
Proof.
  unfold checkRequiredPorts. cbn [blockedPorts].
  rewrite !list_elem_of_In, List.filter_In, negb_true_iff. reflexivity.
Qed.

Lemma checkRequiredPorts_available (w : World) :
  pc_available (checkRequiredPorts w) = true
  <-> blockedPorts (checkRequiredPorts w) = [].
Proof.
  unfold checkRequiredPorts. cbn [blockedPorts pc_available].
  destruct (List.filter _ REQUIRED_PORTS); simpl; split; congruence.
Qed.

Lemma conflictsOn_port (w : World) (q : Z) (c : PortConflict) :
  c ∈ fst (conflictsOn w q) -> port c = q.
Proof.
  unfold conflictsOn. destruct (execPromise w (lsofCommand q)); simpl.
  - rewrite list_elem_of_In, in_map_iff. intros (pid & <- & _).
    unfold conflictOf. destruct (execPromise w (psCommand pid)); reflexivity.
  - intros H. inversion H.
Qed.

(** The entries of [getPortConflicts], when a port is blocked. *)
Lemma getPortConflicts_entries (w : World) (c : PortConflict) :
  blockedPorts (checkRequiredPorts w) <> [] ->
  c ∈ conflicts (fst (getPortConflicts w))
  <-> exists q, q ∈ blockedPorts (checkRequiredPorts w) /\ c ∈ fst (conflictsOn w q).
Proof.
  intros Hne. unfold getPortConflicts.
  destruct (pc_available (checkRequiredPorts w)) eqn:Ha.
  { apply checkRequiredPorts_available in Ha. contradiction. }
  simpl. rewrite list_elem_of_In, in_concat. split.
  - intros (l & Hl & Hc). rewrite map_map in Hl. apply in_map_iff in Hl as (q & <- & Hq).
    exists q. rewrite !list_elem_of_In. auto.
  - intros (q & Hq & Hc). exists (fst (conflictsOn w q)).
    rewrite list_elem_of_In in Hq. rewrite list_elem_of_In in Hc.
    split; [| exact Hc].
    rewrite map_map. apply in_map_iff. eauto.
Qed.

(** C1, as stated, fails: port 3000 is reported blocked, the process-ID
    lookup fails, and [getPortConflicts] returns no entry for the port;
    it only emits a log line. *)
Lemma blocked_port_without_entry_when_lsof_fails :
  blockedPorts (checkRequiredPorts Sample.port3000Taken) = [3000]
  /\ (exists m, execPromise Sample.port3000Taken (lsofCommand 3000) = Rejected m)
  /\ getPortConflicts Sample.port3000Taken
     = (mkPortConflicts false [],
        [Logged (lit "Could not identify process on port 3000")]).
Proof. vm_compute. repeat split; eauto. Qed.

(** C1 (amended).  For every port P that [checkRequiredPorts] reports
    blocked, [getPortConflicts] answers available=false.  If the
    process-ID lookup for P succeeds, there is an entry with port P for
    every positive process ID it lists, named by the process-name lookup
    or, when that lookup fails, by the placeholder "unknown".  If the
    process-ID lookup fails, no entry has port P.  So an entry with port P
    exists exactly when the lookup succeeded and listed a process ID. *)
Theorem getPortConflicts_reports_blocked_port (w : World) (P : Z) :
  P ∈ blockedPorts (checkRequiredPorts w) ->
  let result := fst (getPortConflicts w) in
  available result = false
  /\ (forall pidOutput pid,
        execPromise w (lsofCommand P) = Resolved pidOutput ->
        pid ∈ listedPids pidOutput ->
        mkPortConflict P pid (nameOf w pid) ∈ conflicts result)
  /\ (forall pid m, execPromise w (psCommand pid) = Rejected m ->
        nameOf w pid = lit "unknown")
  /\ (forall m, execPromise w (lsofCommand P) = Rejected m ->
        (forall c, c ∈ conflicts result -> port c <> P)
        /\ forall e, e ∈ emitLog (lit "Could not identify process on port " ++ showZ P) ->
                     e ∈ snd (getPortConflicts w))
  /\ ((exists c, c ∈ conflicts result /\ port c = P)
      <-> exists pidOutput, execPromise w (lsofCommand P) = Resolved pidOutput
                            /\ listedPids pidOutput <> []).
Proof.
  intros HP. simpl.
  assert (Hne : blockedPorts (checkRequiredPorts w) <> []).
  { intros H. rewrite H in HP. inversion HP. }
  assert (Hentry : forall pidOutput pid,
    execPromise w (lsofCommand P) = Resolved pidOutput ->
    pid ∈ listedPids pidOutput ->
    mkPortConflict P pid (nameOf w pid) ∈ conflicts (fst (getPortConflicts w))).
  { intros pidOutput pid Hl Hpid. apply (getPortConflicts_entries w _ Hne).
    exists P. split; [exact HP |]. unfold conflictsOn. rewrite Hl. simpl.
    rewrite list_elem_of_In. apply in_map_iff. exists pid.
    rewrite <- list_elem_of_In. split; [| exact Hpid].
    unfold conflictOf, nameOf. destruct (execPromise w (psCommand pid)); reflexivity. }
  assert (Hnone : forall m, execPromise w (lsofCommand P) = Rejected m ->
    forall c, c ∈ conflicts (fst (getPortConflicts w)) -> port c <> P).
  { intros m Hl c Hc Hport. apply (getPortConflicts_entries w _ Hne) in Hc as (q & _ & Hc).
    pose proof (conflictsOn_port w q c Hc) as Hq. rewrite Hport in Hq. subst q.
    unfold conflictsOn in Hc. rewrite Hl in Hc. inversion Hc. }
  split; [| split; [exact Hentry | split; [| split]]].
  3:{ intros m Hl. split; [exact (Hnone m Hl) |]. intros e He.
      unfold getPortConflicts.
      destruct (pc_available (checkRequiredPorts w)) eqn:Ha.
      { apply checkRequiredPorts_available in Ha. contradiction. }
      cbn [snd]. rewrite list_elem_of_In, in_concat.
      exists (snd (conflictsOn w P)). split.
      - rewrite map_map. apply in_map_iff. exists P. split; [reflexivity |].
        rewrite <- list_elem_of_In. exact HP.
      - unfold conflictsOn. rewrite Hl. cbn [snd].
        rewrite <- list_elem_of_In. exact He. }
  - unfold getPortConflicts.
    destruct (pc_available (checkRequiredPorts w)) eqn:Ha; [| reflexivity].
    apply checkRequiredPorts_available in Ha. contradiction.
  - intros pid m H. unfold nameOf. rewrite H. reflexivity.
  - split.
    + intros (c & Hc & Hport).
      destruct (execPromise w (lsofCommand P)) as [pidOutput | m] eqn:Hl.
      * exists pidOutput. split; [reflexivity |]. intros Hnil.
        apply (getPortConflicts_entries w _ Hne) in Hc as (q & _ & Hc).
        pose proof (conflictsOn_port w q c Hc) as Hq. rewrite Hport in Hq. subst q.
        unfold conflictsOn in Hc. rewrite Hl, Hnil in Hc. inversion Hc.
      * exfalso. exact (Hnone m eq_refl c Hc Hport).
    + intros (pidOutput & Hl & Hpids).
      destruct (listedPids pidOutput) as [|pid pids] eqn:Hlist; [congruence |].
      exists (mkPortConflict P pid (nameOf w pid)). split; [| reflexivity].
      apply (Hentry pidOutput pid Hl). rewrite Hlist. left.
Qed.

Lemma getPortConflicts_reports_blocked_port_witness :
  mkPortConflict 3000 4242 (lit "unknown")
  ∈ conflicts (fst (getPortConflicts Sample.port3000Listed)).
Proof.
  assert (H : 3000 ∈ blockedPorts (checkRequiredPorts Sample.port3000Listed))
    by (vm_compute; left).
  exact (proj1 (proj2 (getPortConflicts_reports_blocked_port Sample.port3000Listed 3000 H))
           (lit "4242") 4242 eq_refl (list_elem_of_here 4242 [])).
Defined.

End PortFacts.

Section FreePortsFacts.
Import JS Docker Props.

Lemma killOn_effects (w : World) (port0 : Z) (e : Effect) :
  e ∈ killOn w port0 ->
  (exists pid, e = Signalled pid SIGTERM) \/ (exists line, e = Logged line).
Proof.
  unfold killOn. destruct (execPromise w (lsofCommand port0)) as [out | m];
    [| intros H; inversion H].
  rewrite list_elem_of_In, in_concat. intros (l & Hl & He).
  apply in_map_iff in Hl as (pid & <- & _). unfold killOne in He.
  destruct He as [<- | He]; [left; eauto |].
  unfold emitLog in He. right.
  destruct (killError w pid);
    match type of He with
    | In _ (if ?b then _ else _) => destruct b
    end; simpl in He; intuition (subst; eauto).
Qed.

Lemma kills_effects (w : World) (ports : list Z) (e : Effect) :
  e ∈ concat (map (killOn w) ports) ->
  (exists pid, e = Signalled pid SIGTERM) \/ (exists line, e = Logged line).
Proof.
  rewrite list_elem_of_In, in_concat. intros (l & Hl & He).
  apply in_map_iff in Hl as (q & <- & _).
  apply (killOn_effects w q). rewrite list_elem_of_In. exact He.
Qed.

Lemma kills_reach (w : World) (ports : list Z) (q pid : Z) (out : jsstring) :
  q ∈ ports -> execPromise w (lsofCommand q) = Resolved out ->
  pid ∈ listedPids out ->
  Signalled pid SIGTERM ∈ concat (map (killOn w) ports).
Proof.
  intros Hq Hout Hpid. rewrite list_elem_of_In, in_concat.
  exists (killOn w q). split.
  - apply in_map. rewrite <- list_elem_of_In. exact Hq.
  - unfold killOn. rewrite Hout. apply in_concat.
    exists (killOne w q pid). split; [| left; reflexivity].
    apply in_map. rewrite <- list_elem_of_In. exact Hpid.
Qed.

Lemma freeAt_probe (after : World) (q : Z) :
  probePort after q = Resolved true <-> freeAt after q.
Proof.
  unfold probePort, freeAt. destruct (portInRange q).
  - split; [intros [= ->]; auto | intros [_ ->]; reflexivity].
  - split; [discriminate | intros [[=] _]].
Qed.

(** What the verifying loop does: all ports probed and free, or the
    ports up to the first one that is still bound or out of range probed
    and the error for that one thrown. *)
Lemma verifyFreed_spec (after : World) (ports : list Z) :
  (verifyFreed after ports = (Resolved tt, map Probed ports)
   /\ forall q, q ∈ ports -> freeAt after q)
  \/ exists free bad rest,
       ports = free ++ bad :: rest
       /\ (forall q, q ∈ free -> freeAt after q)
       /\ ~ freeAt after bad
       /\ verifyFreed after ports
          = (Rejected (probeError after bad), map Probed (free ++ [bad])).
Proof.
  induction ports as [|q ports IH]; cbn [verifyFreed].
  - left. split; [reflexivity |]. intros q H. inversion H.
  - pose proof (freeAt_probe after q) as Hq. unfold probeError.
    unfold probePort in *. destruct (portInRange q) eqn:Hr.
    + destruct (isPortAvailable after q) eqn:Ha; cbn [negb].
      * assert (Hfree : freeAt after q) by (apply Hq; reflexivity).
        destruct IH as [[-> Hall] | (free & bad & rest & -> & Hfree' & Hb & ->)].
        -- left. split; [reflexivity |]. intros q' H.
           apply elem_of_cons in H as [-> | H]; auto.
        -- right. exists (q :: free), bad, rest.
           split; [reflexivity |]. split; [| split; [exact Hb | reflexivity]].
           intros q' H. apply elem_of_cons in H as [-> | H]; auto.
      * right. exists [], q, ports. split; [reflexivity |].
        split; [intros q' H; inversion H |]. split.
        -- intros Hf. apply Hq in Hf. discriminate.
        -- rewrite Hr. reflexivity.
    + right. exists [], q, ports. split; [reflexivity |].
      split; [intros q' H; inversion H |]. split.
      * intros Hf. apply Hq in Hf. discriminate.
      * rewrite Hr. reflexivity.
Qed.

(** C8, as stated, fails: with ports 3000 and 8000 both still bound
    after the wait, the error is thrown at port 3000 and port 8000 is
    never probed again. *)
Lemma second_port_is_not_probed_after_first_is_bound :
  killPortProcesses Sample.twoPortsTaken Sample.twoPortsTaken [3000; 8000]
  = (Rejected (stillInUse 3000), [Slept 1500; Probed 3000])
  /\ isPortAvailable Sample.twoPortsTaken 8000 = false.
Proof. vm_compute. split; reflexivity. Qed.

(** C8 (amended).  [killPortProcesses] signals with SIGTERM, and with
    nothing else, every process that the lookup lists for a given port;
    then it waits 1500 ms, once; then it probes the given ports, in
    order, and stops at the first one that is still bound or that is not
    a port number (outside 0 to 65535): the ports after it are not
    probed.  It throws at that port: the error that says the port is
    still in use and may have to be freed manually when it is still
    bound, the RangeError of [listen] when it is out of range.  It
    resolves exactly when every given port is in range and can be bound
    after the wait, and then every given port was probed.  For ports in
    range, it throws exactly when some given port is still bound. *)
Theorem killPortProcesses_is_graceful (w after : World) (ports : list Z) :
  let result := fst (killPortProcesses w after ports) in
  let effects := snd (killPortProcesses w after ports) in
  (forall pid sig, Signalled pid sig ∈ effects -> sig = SIGTERM)
  /\ (forall q pidOutput pid,
        q ∈ ports -> execPromise w (lsofCommand q) = Resolved pidOutput ->
        pid ∈ listedPids pidOutput -> Signalled pid SIGTERM ∈ effects)
  /\ (exists kills probed,
        effects = kills ++ [Slept 1500] ++ map Probed probed
        /\ Forall isKillOrLog kills
        /\ ((result = Resolved tt /\ probed = ports)
            \/ exists free bad rest,
                 ports = free ++ bad :: rest
                 /\ (forall q, q ∈ free ->
                       portInRange q = true /\ isPortAvailable after q = true)
                 /\ probed = free ++ [bad]
                 /\ ((portInRange bad = true /\ isPortAvailable after bad = false
                      /\ result = Rejected (stillInUse bad))
                     \/ (portInRange bad = false
                         /\ result = Rejected (listenRangeError after bad)))))
  /\ (result = Resolved tt
      <-> forall q, q ∈ ports -> portInRange q = true /\ isPortAvailable after q = true)
  /\ ((forall q, q ∈ ports -> portInRange q = true) ->
      ((exists m, result = Rejected m)
       <-> exists q, q ∈ ports /\ isPortAvailable after q = false)
      /\ forall m, result = Rejected m -> exists q, q ∈ ports /\ m = stillInUse q).
Proof.
  cbv zeta. unfold killPortProcesses.
  pose proof (verifyFreed_spec after ports) as Hv.
  assert (Hkills : Forall isKillOrLog (concat (map (killOn w) ports))).
  { apply Forall_forall. intros e He.
    apply kills_effects in He as [[pid ->] | [line ->]]; exact I. }
  destruct (verifyFreed after ports) as [r probes] eqn:Hvf. cbn [fst snd].
  assert (Hbad : forall bad, ~ freeAt after bad ->
    (portInRange bad = true /\ isPortAvailable after bad = false
     /\ probeError after bad = stillInUse bad)
    \/ (portInRange bad = false /\ probeError after bad = listenRangeError after bad)).
  { intros bad Hn. unfold freeAt, probeError in *.
    destruct (portInRange bad); [| right; auto].
    destruct (isPortAvailable after bad); [exfalso; auto | left; auto]. }
  split; [| split; [| split; [| split]]].
  - intros pid sig H. apply elem_of_app in H as [H | H].
    + apply kills_effects in H as [[pid' [= _ ->]] | [line [=]]]. reflexivity.
    + apply elem_of_cons in H as [[=] | H].
      destruct Hv as [[[= _ ->] _] | (free & bad & rest & _ & _ & _ & [= _ ->])];
        rewrite list_elem_of_In in H; apply in_map_iff in H as (q & [=] & _).
  - intros q out pid Hq Hout Hpid. apply elem_of_app. left.
    exact (kills_reach w ports q pid out Hq Hout Hpid).
  - destruct Hv as [[[= -> ->] _] | (free & bad & rest & Hp & Hf & Hb & [= -> ->])].
    + exists (concat (map (killOn w) ports)), ports. auto.
    + exists (concat (map (killOn w) ports)), (free ++ [bad]).
      split; [reflexivity |]. split; [exact Hkills |]. right.
      exists free, bad, rest. split; [exact Hp |]. split; [exact Hf |].
      split; [reflexivity |].
      destruct (Hbad bad Hb) as [(Hr & Ha & ->) | (Hr & ->)]; auto.
  - destruct Hv as [[[= -> _] Hall] | (free & bad & rest & -> & _ & Hb & [= -> _])].
    + split; [intros _; exact Hall | reflexivity].
    + split; [discriminate |]. intros Hall. exfalso. apply Hb, Hall.
      apply elem_of_app. right. left.
  - intros Hrange.
    destruct Hv as [[[= -> _] Hall] | (free & bad & rest & -> & _ & Hb & [= -> _])].
    + split; [| discriminate]. split; [intros [m [=]] |].
      intros (q & Hq & Hbound). destruct (Hall q Hq) as [_ Ha]. congruence.
    + assert (Hin : bad ∈ free ++ bad :: rest) by (apply elem_of_app; right; left).
      destruct (Hbad bad Hb) as [(_ & Ha & ->) | (Hr & _)];
        [| rewrite (Hrange bad Hin) in Hr; discriminate].
      split.
      * split; [intros _; eauto | intros _; eauto].
      * intros m [= <-]. eauto.
Qed.

(** The lookup on a machine where [lsof] prints 4242 for port 3000: that
    process is sent the SIGTERM. *)
Lemma killPortProcesses_is_graceful_witness :
  Signalled 4242 SIGTERM
  ∈ snd (killPortProcesses Sample.port3000Listed Sample.bare [3000; 8000]).
Proof.
  apply (proj1 (proj2 (killPortProcesses_is_graceful
                         Sample.port3000Listed Sample.bare [3000; 8000]))
           3000 (lit "4242") 4242).
  - apply list_elem_of_here.
  - reflexivity.
  - vm_compute. apply list_elem_of_here.
Defined.

(** Two ports asked for, process 4242 on the first: one SIGTERM, the
    wait, and both ports probed on a machine where they are free. *)
Example killPortProcesses_sample :
  killPortProcesses Sample.port3000Listed Sample.bare [3000; 8000]
  = (Resolved tt,
     [Signalled 4242 SIGTERM; Logged (lit "Killed process 4242 on port 3000");
      Slept 1500; Probed 3000; Probed 8000]).
Proof. vm_compute. reflexivity. Qed.

End FreePortsFacts.

(* ===================================================================== *)
(** * Teardown                                                           *)
(* ===================================================================== *)

Section StopFacts.
Import JS Docker Props.

Lemma settle_pending (p : Settled unit) (r : Run) :
  promise r = None -> promise (settle p r) = Some p.
Proof. intros H. unfold settle. rewrite H. reflexivity. Qed.

Lemma settle_settled (p q : Settled unit) (r : Run) :
  promise r = Some q -> settle p r = r.
Proof. intros H. unfold settle. rewrite H. reflexivity. Qed.

Lemma stopHandler_settled (r : Run) (ev : ChildEvent) (p : Settled unit) :
  promise r = Some p -> promise (stopHandler r ev) = Some p.
Proof.
  intros H. destruct ev as [text | text | code | m |]; simpl; try exact H.
  - destruct code as [[| n | n] |];
      rewrite (settle_settled _ p) by exact H; exact H.
  - rewrite (settle_settled _ p) by exact H; exact H.
  - destruct (timerArmed r); [| exact H].
    rewrite (settle_settled _ p) by exact H; exact H.
Qed.

Lemma stop_settled_stays (events : list ChildEvent) (r : Run) (p : Settled unit) :
  promise r = Some p -> promise (fold_left stopHandler events r) = Some p.
Proof.
  revert r. induction events as [|ev events IH]; intros r H; simpl; [exact H |].
  apply IH, stopHandler_settled, H.
Qed.

Lemma stop_quiet (events : list ChildEvent) (r : Run) :
  Forall isData events ->
  promise (fold_left stopHandler events r) = promise r
  /\ timerArmed (fold_left stopHandler events r) = timerArmed r
  /\ signals (fold_left stopHandler events r) = signals r.
Proof.
  intros H. revert r. induction H as [|ev events Hev _ IH]; intros r; simpl; [auto |].
  destruct ev as [text | text | | |]; try contradiction; simpl;
    destruct (IH (logData text r)) as (-> & -> & ->); auto.
Qed.

(** What an event that is not output settles a pending promise to. *)
Lemma stopHandler_pending (r : Run) (ev : ChildEvent) :
  promise r = None -> timerArmed r = true -> ~ isData ev ->
  promise (stopHandler r ev) = promise (stopHandler spawned ev)
  /\ promise (stopHandler r ev) <> None.
Proof.
  intros Hp Ht Hev. destruct ev as [text | text | code | m |]; simpl in *;
    try (exfalso; apply Hev; exact I).
  - destruct code as [[| n | n] |]; rewrite settle_pending by exact Hp;
      (split; [reflexivity | discriminate]).
  - rewrite settle_pending by exact Hp. split; [reflexivity | discriminate].
  - rewrite Ht. rewrite settle_pending by exact Hp. split; [reflexivity | discriminate].
Qed.

(** The first event that is not output decides. *)
Lemma stop_first_decides (quiet rest : list ChildEvent) (ev : ChildEvent) :
  Forall isData quiet -> ~ isData ev ->
  promise (fold_left stopHandler (quiet ++ ev :: rest) spawned)
  = promise (stopHandler spawned ev).
Proof.
  intros Hq Hev. rewrite fold_left_app. simpl.
  destruct (stop_quiet quiet spawned Hq) as (Hp & Ht & _).
  destruct (stopHandler_pending _ ev Hp Ht Hev) as [Heq Hsome].
  destruct (promise (stopHandler (fold_left stopHandler quiet spawned) ev)) as [p|] eqn:E;
    [| congruence].
  rewrite <- Heq. apply stop_settled_stays. exact E.
Qed.

Lemma first_event (events : list ChildEvent) :
  Forall isData events
  \/ exists quiet ev rest,
       events = quiet ++ ev :: rest /\ Forall isData quiet /\ ~ isData ev.
Proof.
  induction events as [|ev events IH]; [left; constructor |].
  assert (Hdata : isData ev ->
    Forall isData (ev :: events)
    \/ exists quiet ev' rest,
         ev :: events = quiet ++ ev' :: rest /\ Forall isData quiet /\ ~ isData ev').
  { intros Hev. destruct IH as [IH | (quiet & ev' & rest & -> & Hq & Hev')].
    - left. apply Forall_cons. split; assumption.
    - right. exists (ev :: quiet), ev', rest. split; [reflexivity |].
      split; [apply Forall_cons; split; assumption | exact Hev']. }
  destruct ev as [text | text | code | m |]; try (apply Hdata; exact I);
    right; eexists [], _, events; (split; [reflexivity |]);
    (split; [constructor | intros []]).
Qed.

Lemma settle_keeps (p : Settled unit) (r : Run) :
  timerArmed (settle p r) = timerArmed r /\ signals (settle p r) = signals r.
Proof. unfold settle. destruct (promise r); split; reflexivity. Qed.

(** Once the timer is cleared or has fired, no signal is sent any more. *)
Lemma stopHandler_disarmed (r : Run) (ev : ChildEvent) :
  timerArmed r = false ->
  timerArmed (stopHandler r ev) = false /\ signals (stopHandler r ev) = signals r.
Proof.
  intros H. destruct ev as [text | text | [[| n | n] |] | m |];
    unfold stopHandler, settle, release, logData; cbn [promise];
    rewrite ?H; try destruct (promise r); cbn [timerArmed signals]; auto.
Qed.

Lemma stop_disarmed_stays (events : list ChildEvent) (r : Run) :
  timerArmed r = false -> signals (fold_left stopHandler events r) = signals r.
Proof.
  revert r. induction events as [|ev events IH]; intros r H; cbn [fold_left];
    [reflexivity |].
  destruct (stopHandler_disarmed r ev H) as [Ht Hs]. rewrite (IH _ Ht). exact Hs.
Qed.

(** The signals of a run: one SIGTERM when the first event that is not
    output is the timeout, none otherwise. *)
Lemma stop_first_signals (quiet rest : list ChildEvent) (ev : ChildEvent) :
  Forall isData quiet -> ~ isData ev ->
  signals (fold_left stopHandler (quiet ++ ev :: rest) spawned)
  = match ev with TimerFired => [SIGTERM] | _ => [] end.
Proof.
  intros Hq Hev. rewrite fold_left_app. cbn [fold_left].
  destruct (stop_quiet quiet spawned Hq) as (_ & Ht & Hs).
  set (r := fold_left stopHandler quiet spawned) in *.
  change (timerArmed spawned) with true in Ht.
  change (signals spawned) with (@nil Signal) in Hs.
  assert (H : timerArmed (stopHandler r ev) = false
              /\ signals (stopHandler r ev)
                 = match ev with TimerFired => [SIGTERM] | _ => [] end).
  { destruct ev as [text | text | [[| n | n] |] | m |];
      try (exfalso; apply Hev; exact I);
      unfold stopHandler, settle, release, killChild, disarm; cbn [promise];
      rewrite ?Ht; try destruct (promise r); cbn [timerArmed signals promise];
      rewrite ?Hs; auto. }
  destruct H as [Hd Hsig]. rewrite (stop_disarmed_stays rest _ Hd). exact Hsig.
Qed.

(** C7, as stated, fails: the timeout fires, the child is sent SIGTERM
    and closes with a null exit code, and the promise is rejected, by
    neither a non-zero exit code nor a spawn error. *)
Lemma stop_rejects_on_timeout_despite_null_exit :
  promise (run (stopContainers Sample.bare [TimerFired; Closed None]))
  = Some (Rejected shutdownTimedOut)
  /\ signals (run (stopContainers Sample.bare [TimerFired; Closed None])) = [SIGTERM].
Proof. vm_compute. split; reflexivity. Qed.

(** C7 (amended).  With the compose file in place, the promise of
    [stopContainers] is settled by the first event of the child that is
    not output: it resolves exactly when that event is a close with exit
    code 0 or null; it rejects when that event is a close with another
    exit code, a spawn error, or the 120-second timeout.  The timeout
    also sends SIGTERM to the child, once; in no other case is the child
    sent a signal.  No later event changes the outcome (a close with
    code null after the timeout included), and with only output so far
    the promise is pending and no signal was sent.  Without the compose
    file it rejects before spawning. *)
Theorem stopContainers_outcome (w : World) (events : list ChildEvent) :
  (composeFileExists w = false ->
   rejectedUnspawned (stopContainers w events)
   /\ signals (run (stopContainers w events)) = [])
  /\ (composeFileExists w = true ->
      let p := promise (run (stopContainers w events)) in
      let sent := signals (run (stopContainers w events)) in
      (Forall isData events -> p = None /\ sent = [])
      /\ (forall quiet rest, Forall isData quiet ->
            ((events = quiet ++ Closed (Some 0) :: rest
              \/ events = quiet ++ Closed None :: rest) ->
             p = Some (Resolved tt) /\ sent = [])
            /\ (forall n, n <> 0 -> events = quiet ++ Closed (Some n) :: rest ->
                p = Some (Rejected (lit "Docker compose down failed with code " ++ showZ n))
                /\ sent = [])
            /\ (forall m, events = quiet ++ Errored m :: rest ->
                p = Some (Rejected m) /\ sent = [])
            /\ (events = quiet ++ TimerFired :: rest ->
                p = Some (Rejected shutdownTimedOut) /\ sent = [SIGTERM]))
      /\ (p = Some (Resolved tt) <->
          exists quiet rest, Forall isData quiet
            /\ (events = quiet ++ Closed (Some 0) :: rest
                \/ events = quiet ++ Closed None :: rest))
      /\ (sent = [SIGTERM] <->
          exists quiet rest, Forall isData quiet
            /\ events = quiet ++ TimerFired :: rest)
      /\ (sent = [] \/ sent = [SIGTERM])).
Proof.
  unfold stopContainers, getComposePath, rejectedUnspawned. split.
  - intros ->. simpl. eauto.
  - intros ->. cbn [run promise spawns]. cbv zeta.
    assert (Hcases : forall quiet rest, Forall isData quiet ->
      ((events = quiet ++ Closed (Some 0) :: rest
        \/ events = quiet ++ Closed None :: rest) ->
       promise (fold_left stopHandler events spawned) = Some (Resolved tt)
       /\ signals (fold_left stopHandler events spawned) = [])
      /\ (forall n, n <> 0 -> events = quiet ++ Closed (Some n) :: rest ->
          promise (fold_left stopHandler events spawned)
          = Some (Rejected (lit "Docker compose down failed with code " ++ showZ n))
          /\ signals (fold_left stopHandler events spawned) = [])
      /\ (forall m, events = quiet ++ Errored m :: rest ->
          promise (fold_left stopHandler events spawned) = Some (Rejected m)
          /\ signals (fold_left stopHandler events spawned) = [])
      /\ (events = quiet ++ TimerFired :: rest ->
          promise (fold_left stopHandler events spawned) = Some (Rejected shutdownTimedOut)
          /\ signals (fold_left stopHandler events spawned) = [SIGTERM])).
    { intros quiet rest Hq. split; [| split; [| split]].
      - intros [-> | ->];
          rewrite stop_first_decides, stop_first_signals by (auto; intros []);
          split; reflexivity.
      - intros n Hn ->.
        rewrite stop_first_decides, stop_first_signals by (auto; intros []).
        split; [| reflexivity].
        destruct n; [congruence | reflexivity | reflexivity].
      - intros m ->.
        rewrite stop_first_decides, stop_first_signals by (auto; intros []).
        split; reflexivity.
      - intros ->.
        rewrite stop_first_decides, stop_first_signals by (auto; intros []).
        split; reflexivity. }
    assert (Hquiet : Forall isData events ->
      promise (fold_left stopHandler events spawned) = None
      /\ signals (fold_left stopHandler events spawned) = []).
    { intros Hq. destruct (stop_quiet events spawned Hq) as (-> & _ & ->).
      split; reflexivity. }
    split; [exact Hquiet |]. split; [exact Hcases |].
    destruct (first_event events) as [Hq | (quiet & ev & rest & Hev & Hq & Hnd)].
    + destruct (Hquiet Hq) as [Hp Hs]. rewrite Hp, Hs.
      assert (Hnone : forall quiet ev rest,
                events = quiet ++ ev :: rest -> isData ev).
      { intros quiet ev rest ->. apply Forall_app in Hq as [_ Hq].
        apply Forall_cons in Hq as [Hq _]. exact Hq. }
      split; [| split; [| left; reflexivity]].
      * split; [discriminate |].
        intros (quiet & rest & _ & [H | H]); destruct (Hnone _ _ _ H).
      * split; [discriminate |].
        intros (quiet & rest & _ & H); destruct (Hnone _ _ _ H).
    + destruct (Hcases quiet rest Hq) as (Hok & Hexit & Herr & Htime).
      assert (Huniq : forall quiet' ev' rest',
                Forall isData quiet' -> ~ isData ev' ->
                events = quiet' ++ ev' :: rest' -> ev' = ev).
      { intros quiet' ev' rest' Hq' Hnd' H'. rewrite Hev in H'. clear - Hq Hq' Hnd Hnd' H'.
        revert quiet' Hq' H'. induction Hq as [|d quiet Hd Hq IH]; intros quiet' Hq' H'.
        - destruct Hq' as [|d' quiet' Hd' Hq']; simpl in H'.
          + injection H' as -> _. reflexivity.
          + injection H' as -> _. contradiction.
        - destruct Hq' as [|d' quiet' Hd' Hq']; simpl in H'.
          + injection H' as <- _. contradiction.
          + injection H' as _ H'. exact (IH quiet' Hq' H'). }
      split; [| split].
      * split.
        -- intros Hres. exists quiet, rest. split; [exact Hq |].
           destruct ev as [text | text | [[| n | n] |] | m |];
             try (exfalso; apply Hnd; exact I); auto.
           ++ destruct (Hexit (Z.pos n) ltac:(discriminate) Hev) as [Hp _].
              rewrite Hp in Hres. discriminate.
           ++ destruct (Hexit (Z.neg n) ltac:(discriminate) Hev) as [Hp _].
              rewrite Hp in Hres. discriminate.
           ++ destruct (Herr m Hev) as [Hp _]. rewrite Hp in Hres. discriminate.
           ++ destruct (Htime Hev) as [Hp _]. rewrite Hp in Hres. discriminate.
        -- intros (quiet' & rest' & Hq' & Hev').
           exact (proj1 (proj1 (Hcases quiet' rest' Hq') Hev')).
      * split.
        -- intros Hs. exists quiet, rest. split; [exact Hq |].
           rewrite Hev, (stop_first_signals quiet rest ev Hq Hnd) in Hs.
           destruct ev; try discriminate Hs. exact Hev.
        -- intros (quiet' & rest' & Hq' & Hev').
           exact (proj2 (proj2 (proj2 (proj2 (Hcases quiet' rest' Hq'))) Hev')).
      * rewrite Hev, (stop_first_signals quiet rest ev Hq Hnd).
        destruct ev; auto.
Qed.

(** Stopping a stack that is already stopped: the child prints and exits
    with code 0, the promise resolves. *)
Example stop_already_stopped :
  promise (run (stopContainers Sample.bare
                  [StderrData (lit "Warning: No resource found to remove"); Closed (Some 0)]))
  = Some (Resolved tt).
Proof. vm_compute. reflexivity. Qed.

End StopFacts.

(* ===================================================================== *)
(** * The health poller                                                  *)
(* ===================================================================== *)

Section PollerFacts.
Import JS Docker Props.

Variable polls : nat -> Poll.
Variables timeoutMs startTime : Z.

Lemma queryStart_step (k : nat) :
  queryStart polls startTime k + HEALTH_CHECK_INTERVAL
  <= queryStart polls startTime (S k).
Proof. simpl. lia. Qed.

Lemma queryStart_mono (k j : nat) :
  (k <= j)%nat -> queryStart polls startTime k <= queryStart polls startTime j.
Proof.
  induction 1 as [|j _ IH]; [lia |].
  pose proof (queryStart_step j). unfold HEALTH_CHECK_INTERVAL in *. lia.
Qed.

(** The loop from turn [k] on, when no earlier turn was healthy. *)
Lemma waitLoop_decides (fuel k : nat) (labels : list jsstring) :
  (forall j, (j < k)%nat -> ~ healthyAt polls j) ->
  (Z.to_nat (timeoutMs - (queryStart polls startTime k - startTime)) < fuel)%nat ->
  exists b labels',
    waitLoop fuel polls timeoutMs startTime k (queryStart polls startTime k) labels
    = Some (b, labels')
    /\ (b = true <-> exists j, withinWindow polls timeoutMs startTime j
                                /\ healthyAt polls j).
Proof.
  revert k labels. induction fuel as [|fuel IH]; intros k labels Hpast Hfuel; [lia |].
  simpl. destruct (Z.ltb_spec (queryStart polls startTime k - startTime) timeoutMs) as [Hin | Hout].
  - destruct (healthy (getDockerStatus (poll_world (polls k)))) eqn:Hk.
    + eexists true, _. split; [reflexivity |]. split; [| reflexivity].
      intros _. exists k. split; assumption.
    + destruct (IH (S k) (labels ++ [phaseLabel (getDockerStatus (poll_world (polls k)))]))
        as (b & labels' & Hrun & Hiff).
      * intros j Hj. destruct (Nat.eq_dec j k) as [-> | Hne].
        -- unfold healthyAt. rewrite Hk. discriminate.
        -- apply Hpast. lia.
      * pose proof (queryStart_step k). unfold HEALTH_CHECK_INTERVAL in *. lia.
      * exists b, labels'. split; [| exact Hiff]. exact Hrun.
  - eexists false, _. split; [reflexivity |]. split; [discriminate |].
    intros (j & Hwin & Hj). exfalso.
    destruct (Nat.lt_ge_cases j k) as [Hlt | Hge].
    + exact (Hpast j Hlt Hj).
    + pose proof (queryStart_mono k j Hge). unfold withinWindow in Hwin. lia.
Qed.

End PollerFacts.

Section PollerClaim.
Import JS Docker Props.

(** C2, as stated, fails: with a timeout of 1 ms, a status query that
    starts at once and takes 5000 seconds to report the stack healthy
    makes [waitForHealthy] return true, although no query returned
    healthy within the window: the deadline is tested only before a
    query starts. *)
Lemma healthy_answer_after_the_deadline_counts :
  waitForHealthy 2 slowHealthy (Some 1) 0 = Some (true, [lit "All services healthy"])
  /\ queryStart slowHealthy 0 0 = 0
  /\ queryEnd slowHealthy 0 0 = 5000000.
Proof. vm_compute. repeat split; reflexivity. Qed.

(** C2 (amended).  [waitForHealthy] returns (given turns enough for the
    timeout, it does return, with a boolean and never an error), and it
    returns true if and only if some status query that starts before the
    timeout has elapsed returns healthy=true, however long that query
    takes; so it returns false when no query started within the window
    is healthy.  This holds for every timeout that is a whole number of
    milliseconds (120000 when none is given), every start time and every
    sequence of machine states, query durations and timer delays.  A
    query that starts within the window may return after it: the window
    bounds the start of the healthy query, not its end. *)
Theorem waitForHealthy_true_iff_healthy_within_timeout
  (polls : nat -> Poll) (timeoutMs : option Z) (startTime : Z) :
  let window := default HEALTH_CHECK_TIMEOUT timeoutMs in
  (exists turns : nat, forall fuel : nat, (turns <= fuel)%nat ->
     exists (b : bool) (labels : list jsstring),
       waitForHealthy fuel polls timeoutMs startTime = Some (b, labels)
       /\ (b = true <-> exists k, withinWindow polls window startTime k
                                  /\ healthyAt polls k)
       /\ (b = false <-> forall k, withinWindow polls window startTime k ->
                                   ~ healthyAt polls k))
  /\ (forall k, withinWindow polls window startTime k
                <-> queryStart polls startTime k - startTime < window)
  /\ (forall k, queryStart polls startTime k <= queryEnd polls startTime k).
Proof.
  cbv zeta. split; [| split].
  - exists (S (Z.to_nat (default HEALTH_CHECK_TIMEOUT timeoutMs))).
    intros fuel Hfuel. unfold waitForHealthy.
    destruct (waitLoop_decides polls (default HEALTH_CHECK_TIMEOUT timeoutMs) startTime
                fuel 0 []) as (b & labels & Hrun & Hiff).
    + intros j Hj. lia.
    + simpl. lia.
    + exists b, labels. split; [exact Hrun |]. split; [exact Hiff |].
      destruct b.
      * split; [discriminate |]. intros Hnone.
        destruct (proj1 Hiff eq_refl) as (k & Hw & Hk). destruct (Hnone k Hw Hk).
      * split; [| reflexivity]. intros _ k Hw Hk.
        assert (Ht : false = true) by (apply Hiff; eauto). discriminate.
  - intros k. reflexivity.
  - intros k. unfold queryEnd. lia.
Qed.

End PollerClaim.

(* ===================================================================== *)
(** * The single-flight guard                                            *)
(* ===================================================================== *)

Section GuardFacts.
Import JS Docker Main.

(** Between events, the flag is set exactly while one guarded handler
    is suspended, and there is never more than one. *)
Lemma runEvents_invariant (events : list Event) :
  (dockerOperationInProgress (runEvents events) = true
   /\ exists active, suspended (runEvents events) = [active])
  \/ runEvents events = mkMain false [].
Proof.
  unfold runEvents. induction events as [|ev events IH] using rev_ind.
  - right. reflexivity.
  - rewrite fold_left_app. simpl.
    destruct IH as [[Hflag [active Hs]] | ->].
    + destruct ev as [request | outcome]; simpl.
      * unfold enter. rewrite Hflag. destruct (fromTray request); simpl; left; eauto.
      * unfold leave. rewrite Hs. simpl. right. reflexivity.
    + destruct ev as [request | outcome]; simpl.
      * left. eauto.
      * right. reflexivity.
Qed.

(** C3.  In every state the main process can reach: while the flag is
    set, exactly one guarded operation is suspended, and a start command
    throws 'Docker operation already in progress' at once and leaves the
    flag and the suspended operation as they were; while the flag is
    clear, the start command sets it and suspends, and when the awaited
    [startContainers] settles, resolved or rejected, the flag is clear
    again and the handler replies with that outcome. *)
Theorem docker_start_is_single_flight
  (events : list Event) (config : option ContainerConfig) :
  let st := runEvents events in
  (dockerOperationInProgress st = true ->
     dockerStart config st = Threw inProgressMessage st
     /\ (exists active, suspended st = [active])
     /\ runEvents (events ++ [Invoked (DockerStart config)]) = st)
  /\ (dockerOperationInProgress st = false ->
     dockerStart config st = Awaits (mkMain true [DockerStart config])
     /\ (forall outcome,
           leave outcome (mkMain true [DockerStart config])
           = (Some (DockerStart config, outcome), mkMain false []))
     /\ (forall w childEvents outcome,
           promise (run (startContainers w config childEvents)) = Some outcome ->
           dockerStartToEnd w config childEvents st
           = (Some outcome, mkMain false []))).
Proof.
  simpl. split.
  - intros Hflag.
    assert (Hthrow : dockerStart config (runEvents events)
                     = Threw inProgressMessage (runEvents events)).
    { unfold dockerStart, enter. rewrite Hflag. reflexivity. }
    split; [exact Hthrow |]. split.
    + destruct (runEvents_invariant events) as [[_ H] | H]; [exact H |].
      rewrite H in Hflag. discriminate.
    + unfold runEvents in *. rewrite fold_left_app. simpl.
      unfold dockerStart in Hthrow. rewrite Hthrow. reflexivity.
  - intros Hflag.
    assert (Hst : runEvents events = mkMain false []).
    { destruct (runEvents_invariant events) as [[H _] | H]; [congruence | exact H]. }
    rewrite Hst. split; [reflexivity |]. split; [reflexivity |].
    intros w childEvents outcome Hp. unfold dockerStartToEnd. simpl.
    rewrite Hp. reflexivity.
Qed.

Lemma docker_start_is_single_flight_witness :
  dockerStart None (runEvents [Invoked DockerStop])
  = Threw inProgressMessage (runEvents [Invoked DockerStop]).
Proof.
  exact (proj1 (proj1 (docker_start_is_single_flight [Invoked DockerStop] None) eq_refl)).
Defined.

End GuardFacts.

(* ===================================================================== *)
(** * The container-start loop                                           *)
(* ===================================================================== *)

Section StartLoopFacts.
Import JS Docker SetupPage SetupProps.

Lemma isPortError_nonempty (m : jsstring) :
  isPortError m = true -> errorMsgOf m = m.
Proof. destruct m; [discriminate | reflexivity]. Qed.

Lemma checksAndStartsSince_app (pg pg' : Page) (new : list IpcCall) :
  calls pg' = calls pg ++ new ->
  checksAndStartsSince pg pg' = List.filter isCheckOrStart new.
Proof.
  intros H. unfold checksAndStartsSince. rewrite H, drop_app_length. reflexivity.
Qed.

(** One attempt whose start call fails: the port check and the start
    call are made, in this order, and the [catch] block gets the
    message. *)
Lemma tryStart_start_fails (a : Attempt) (config : ContainerConfig) (pg : Page)
  (m : jsstring) :
  startFails a m ->
  exists pg', tryStart a config pg = (Rejected m, pg')
    /\ exists new, calls pg' = calls pg ++ new
         /\ List.filter isCheckOrStart new = [CheckPorts; Start config].
Proof.
  intros [(portResult & Hcheck & Hports) Hstart].
  unfold tryStart, resolvePortConflicts. rewrite Hcheck.
  destruct (available portResult) eqn:Hav.
  - rewrite Hstart. eexists. split; [reflexivity |]. simpl.
    exists [CheckPorts; Start config]. rewrite <- app_assoc. split; reflexivity.
  - destruct Hports as [? | [-> Hkill]]; [discriminate |].
    rewrite Hkill, Hstart. eexists. split; [reflexivity |]. simpl.
    eexists [CheckPorts; KillPortProcesses _; Start config].
    rewrite <- !app_assoc. split; reflexivity.
Qed.

(** The loop from turn [attempt] on, when [n] start failures are retried
    and the next one is not. *)
Lemma startLoop_terminal (attempts : nat -> Attempt) (config : ContainerConfig)
  (n : nat) :
  forall (left attempt : nat) (pg : Page) (m : jsstring),
  (n < left)%nat ->
  (forall k, (attempt <= k < attempt + n)%nat ->
     exists mk, startFails (attempts k) mk
                /\ isPortError (errorMsgOf mk) = true /\ (k < 2)%nat) ->
  startFails (attempts (attempt + n)%nat) m ->
  isPortError (errorMsgOf m) && (attempt + n <? 2)%nat = false ->
  exists pg',
    startLoop left attempts config attempt pg = (Returns, pg')
    /\ errorBox pg' = Some (mkError (lit "Start Failed") (errorMsgOf m))
    /\ containers pg' = mkStep error (lit "Failed")
    /\ showRetry pg' = true /\ runningRef pg' = false
    /\ exists new, calls pg' = calls pg ++ new
         /\ List.filter isCheckOrStart new
            = concat (repeat [CheckPorts; Start config] (S n)).
Proof.
  induction n as [|n IH]; intros left attempt pg m Hleft Hretry Hlast Hterm.
  - destruct left as [|left]; [lia |]. rewrite Nat.add_0_r in *.
    destruct (tryStart_start_fails _ config pg m Hlast) as (pg1 & Htry & new & Hcalls & Hnew).
    cbn [startLoop]. rewrite Htry. cbv beta iota zeta.
    change (orStr m (lit "Could not start containers.")) with (errorMsgOf m).
    rewrite Hterm.
    eexists. split; [reflexivity |]. cbn [failStep errorBox containers showRetry runningRef calls].
    repeat (split; [reflexivity |]).
    exists new. split; [exact Hcalls | exact Hnew].
  - destruct left as [|left]; [lia |].
    destruct (Hretry attempt ltac:(lia)) as (mk & Hfail & Hport & Hk).
    destruct (tryStart_start_fails _ config pg mk Hfail) as (pg1 & Htry & new & Hcalls & Hnew).
    cbn [startLoop]. rewrite Htry. cbv beta iota zeta.
    change (orStr mk (lit "Could not start containers.")) with (errorMsgOf mk).
    rewrite Hport.
    destruct (Nat.ltb_spec attempt 2) as [_ | ?]; [| lia]. cbn [andb].
    destruct (IH left (S attempt)
                (appendLog (lit "Port conflict during startup, retrying...") pg1) m)
      as (pg' & Hloop & Herr & Hstep & Hretry' & Hrun & new' & Hcalls' & Hnew').
    + lia.
    + intros k Hk'. apply Hretry. lia.
    + replace (S attempt + n)%nat with (attempt + S n)%nat by lia. exact Hlast.
    + replace (S attempt + n)%nat with (attempt + S n)%nat by lia. exact Hterm.
    + exists pg'. split; [exact Hloop |]. repeat (split; [assumption |]).
      exists (new ++ new'). split.
      * rewrite Hcalls'. cbn [appendLog calls]. rewrite Hcalls, app_assoc. reflexivity.
      * rewrite List.filter_app, Hnew, Hnew'. reflexivity.
Qed.

End StartLoopFacts.

Section StartLoopClaim.
Import JS Docker SetupPage SetupProps.

(** C4.  In the container-start step, when the first three attempts get
    past port resolution and their start calls fail with messages
    classified as port-related, port resolution runs exactly 3 times,
    once before each of exactly 3 start calls, and the step then fails
    for good with the message of the third failure, a port-related one:
    there is no 4th attempt.  When a start call fails with a message not
    classified as port-related, after earlier port-related failures or
    none, the step fails for good at once with that message: no further
    port check or start call is made. *)
Theorem container_start_retry_policy
  (attempts : nat -> Attempt) (config : ContainerConfig) (pg : Page) :
  (forall m0 m1 m2,
     startFails (attempts 0%nat) m0 -> isPortError m0 = true ->
     startFails (attempts 1%nat) m1 -> isPortError m1 = true ->
     startFails (attempts 2%nat) m2 -> isPortError m2 = true ->
     exists pg',
       startStep attempts config pg = (Returns, pg')
       /\ checksAndStartsSince pg pg'
          = [CheckPorts; Start config; CheckPorts; Start config;
             CheckPorts; Start config]
       /\ errorBox pg' = Some (mkError (lit "Start Failed") m2)
       /\ containers pg' = mkStep error (lit "Failed")
       /\ showRetry pg' = true /\ runningRef pg' = false)
  /\ (forall n m,
        (n < 3)%nat ->
        (forall k, (k < n)%nat ->
           exists mk, startFails (attempts k) mk /\ isPortError (errorMsgOf mk) = true) ->
        startFails (attempts n) m -> isPortError (errorMsgOf m) = false ->
        exists pg',
          startStep attempts config pg = (Returns, pg')
          /\ checksAndStartsSince pg pg'
             = concat (repeat [CheckPorts; Start config] (S n))
          /\ errorBox pg' = Some (mkError (lit "Start Failed") (errorMsgOf m))
          /\ containers pg' = mkStep error (lit "Failed")
          /\ showRetry pg' = true /\ runningRef pg' = false).
Proof.
  split.
  - intros m0 m1 m2 H0 P0 H1 P1 H2 P2.
    destruct (startLoop_terminal attempts config 2 3 0 pg m2)
      as (pg' & Hloop & Herr & Hstep & Hretry & Hrun & new & Hcalls & Hnew).
    + lia.
    + intros k Hk. assert (k = 0 \/ k = 1)%nat as [-> | ->] by lia.
      * exists m0. rewrite (isPortError_nonempty m0 P0). auto.
      * exists m1. rewrite (isPortError_nonempty m1 P1). auto.
    + exact H2.
    + apply andb_false_r.
    + exists pg'. rewrite (isPortError_nonempty m2 P2) in Herr.
      rewrite (checksAndStartsSince_app pg pg' new Hcalls), Hnew.
      repeat split; assumption.
  - intros n m Hn Hretried Hfail Hother.
    destruct (startLoop_terminal attempts config n 3 0 pg m)
      as (pg' & Hloop & Herr & Hstep & Hretry & Hrun & new & Hcalls & Hnew).
    + exact Hn.
    + intros k Hk. assert (Hkn : (k < n)%nat) by lia.
      destruct (Hretried k Hkn) as (mk & ? & ?).
      exists mk. split; [assumption |]. split; [assumption | lia].
    + exact Hfail.
    + simpl. rewrite Hother. reflexivity.
    + exists pg'. rewrite (checksAndStartsSince_app pg pg' new Hcalls), Hnew.
      repeat split; assumption.
Qed.

Lemma portConflictEachTime_fails (k : nat) :
  startFails (portConflictEachTime k)
    (lit "Port conflict detected. Another process is using required ports.").
Proof.
  split; [| reflexivity].
  exists (mkPortConflicts true []). split; [reflexivity | left; reflexivity].
Qed.

Lemma container_start_retry_policy_witness :
  exists pg',
    startStep portConflictEachTime (mkConfig None None) pageAtStep3 = (Returns, pg')
    /\ checksAndStartsSince pageAtStep3 pg'
       = [CheckPorts; Start (mkConfig None None); CheckPorts; Start (mkConfig None None);
          CheckPorts; Start (mkConfig None None)]
    /\ errorBox pg'
       = Some (mkError (lit "Start Failed")
                 (lit "Port conflict detected. Another process is using required ports."))
    /\ containers pg' = mkStep error (lit "Failed")
    /\ showRetry pg' = true /\ runningRef pg' = false.
Proof.
  exact (proj1 (container_start_retry_policy portConflictEachTime
                  (mkConfig None None) pageAtStep3)
           _ _ _
           (portConflictEachTime_fails 0) eq_refl
           (portConflictEachTime_fails 1) eq_refl
           (portConflictEachTime_fails 2) eq_refl).
Defined.

(** The failure [startContainers] reports when compose finds a port
    allocated is one the loop classifies as port-related. *)
Example compose_port_failure_is_port_related :
  promise (run (startContainers Sample.bare None
                  [StderrData (lit "Bind for 0.0.0.0:3000 failed: port is already allocated");
                   Closed (Some 1)]))
  = Some (Rejected (lit "Port conflict detected. Another process is using required ports."))
  /\ isPortError (lit "Port conflict detected. Another process is using required ports.")
     = true.
Proof. vm_compute. split; reflexivity. Qed.

(** A missing image is not retried: one port check, one start call. *)
Example missing_image_is_terminal :
  let attempts := fun _ : nat =>
    mkAttempt (Resolved (mkPortConflicts true [])) cancel (Resolved tt)
      (Rejected (lit "Required Docker images not found. Please pull images first.")) in
  let r := startStep attempts (mkConfig None None) pageAtStep3 in
  fst r = Returns
  /\ calls (snd r) = [CheckPorts; Start (mkConfig None None)]
  /\ errorBox (snd r)
     = Some (mkError (lit "Start Failed")
               (lit "Required Docker images not found. Please pull images first.")).
Proof. vm_compute. repeat split; reflexivity. Qed.

End StartLoopClaim.

(* ===================================================================== *)
(** * The log sink                                                       *)
(* ===================================================================== *)

Section LogFacts.
Import JS Docker MoreProps.

Lemma trimStart_split (s : jsstring) :
  exists ws, s = ws ++ trimStart s /\ forallb isWhiteSpace ws = true.
Proof.
  induction s as [|c s IH]; simpl.
  - exists []. auto.
  - destruct (isWhiteSpace c) eqn:Hc.
    + destruct IH as (ws & Hs & Hws). exists (c :: ws). simpl.
      rewrite Hc, Hws. split; [f_equal; exact Hs | reflexivity].
    + exists []. auto.
Qed.

Lemma trimStart_head (s : jsstring) (c : N) (rest : jsstring) :
  trimStart s = c :: rest -> isWhiteSpace c = false.
Proof.
  induction s as [|a s IH]; simpl; [discriminate |].
  destruct (isWhiteSpace a) eqn:Ha; [exact IH |].
  intros [= <- _]. exact Ha.
Qed.

Lemma trimEnd_split (s : jsstring) :
  exists ws, s = trimEnd s ++ ws /\ forallb isWhiteSpace ws = true.
Proof.
  unfold trimEnd. destruct (trimStart_split (rev s)) as (ws & Hs & Hws).
  exists (rev ws). split.
  - rewrite <- (rev_involutive s) at 1. rewrite Hs at 1. apply rev_app_distr.
  - rewrite forallb_forall in *. intros x Hx. apply Hws. apply in_rev. exact Hx.
Qed.

Lemma trimEnd_last (s front : jsstring) (c : N) :
  trimEnd s = front ++ [c] -> isWhiteSpace c = false.
Proof.
  unfold trimEnd. intros H.
  apply (f_equal (@rev N)) in H. rewrite rev_involutive, rev_app_distr in H.
  simpl in H. exact (trimStart_head _ _ _ H).
Qed.

(** A trimmed text is empty or tight. *)
Lemma trim_tight (s : jsstring) : trim s = [] \/ tight (trim s).
Proof.
  unfold trim.
  destruct (trimEnd (trimStart s)) as [|c rest] eqn:He; [left; reflexivity |].
  right. split.
  - exists c, rest. split; [reflexivity |].
    destruct (trimEnd_split (trimStart s)) as (ws & Hs & _).
    rewrite He in Hs. simpl in Hs. exact (trimStart_head s c _ Hs).
  - destruct (exists_last (l := c :: rest)) as (front & d & Hd); [discriminate |].
    exists front, d. split; [exact Hd |].
    rewrite <- He in Hd. exact (trimEnd_last _ _ _ Hd).
Qed.

Lemma emitLog_tight (line : jsstring) : Forall isLogged (emitLog line).
Proof.
  unfold emitLog. destruct (trim_tight line) as [-> | Ht]; [constructor |].
  destruct (truthyStr (trim line)); [| constructor].
  apply Forall_cons. split; [exact Ht | constructor].
Qed.

Lemma logData_tight (text : jsstring) (r : Run) :
  Forall isLogged (logLines r) -> Forall isLogged (logLines (logData text r)).
Proof.
  intros H. unfold logData. simpl. apply Forall_app. split; [exact H |].
  apply Forall_concat, Forall_map, Forall_forall. intros line _. apply emitLog_tight.
Qed.

Lemma stopHandler_tight (r : Run) (ev : ChildEvent) :
  Forall isLogged (logLines r) -> Forall isLogged (logLines (stopHandler r ev)).
Proof.
  intros H. destruct ev as [text | text | [[| n | n] |] | m |]; simpl;
    try (apply logData_tight; exact H); unfold settle; simpl;
    repeat match goal with |- context [match ?x with _ => _ end] => destruct x end;
    simpl; exact H.
Qed.

Lemma startHandler_tight (r : Run) (ev : ChildEvent) :
  Forall isLogged (logLines r) -> Forall isLogged (logLines (startHandler r ev)).
Proof.
  intros H. destruct ev as [text | text | [[| n | n] |] | m |]; simpl;
    try (apply logData_tight; exact H); unfold settle; simpl;
    repeat match goal with |- context [match ?x with _ => _ end] => destruct x end;
    simpl; exact H.
Qed.

Lemma fold_tight (h : Run -> ChildEvent -> Run) (events : list ChildEvent) :
  (forall r ev, Forall isLogged (logLines r) -> Forall isLogged (logLines (h r ev))) ->
  forall r, Forall isLogged (logLines r) ->
            Forall isLogged (logLines (fold_left h events r)).
Proof.
  intros Hh. induction events as [|ev events IH]; intros r Hr; simpl; [exact Hr |].
  apply IH, Hh, Hr.
Qed.

(** X1.  The log callback never gets a blank line: every line that
    [emitLog] hands over, and so every line logged while the compose
    subprocesses of [startContainers] and [stopContainers] write output,
    is non-empty and neither starts nor ends with white space. *)
Theorem log_lines_are_never_blank
  (w : World) (config : option ContainerConfig) (events : list ChildEvent)
  (line : jsstring) :
  Forall isLogged (emitLog line)
  /\ Forall isLogged (logLines (run (startContainers w config events)))
  /\ Forall isLogged (logLines (run (stopContainers w events)))
  /\ (trim line = [] -> emitLog line = []).
Proof.
  split; [apply emitLog_tight |]. split; [| split].
  - unfold startContainers.
    destruct (_ ← getComposePath w; _) as [[path creds] | m]; simpl;
      [| constructor].
    destruct (spawnRefuses creds); simpl; [constructor |].
    apply (fold_tight startHandler events startHandler_tight). constructor.
  - unfold stopContainers. destruct (getComposePath w); simpl; [| constructor].
    apply (fold_tight stopHandler events stopHandler_tight). constructor.
  - intros H. unfold emitLog. rewrite H. reflexivity.
Qed.

End LogFacts.

(* ===================================================================== *)
(** * More on the port probe                                             *)
(* ===================================================================== *)

Section MorePortFacts.
Import JS Docker Props.

Lemma listedPids_positive (pidOutput : jsstring) (p : Z) :
  p ∈ listedPids pidOutput -> 0 < p.
Proof.
  unfold listedPids. rewrite list_elem_of_omap. intros (seg & _ & H).
  destruct (parseInt (trim seg)) as [n|]; [| discriminate].
  destruct (Z.ltb_spec 0 n); [| discriminate]. injection H as <-. assumption.
Qed.

Lemma killOn_signals (w : World) (q p : Z) (sig : Signal) :
  Signalled p sig ∈ killOn w q ->
  exists pidOutput, execPromise w (lsofCommand q) = Resolved pidOutput
                    /\ p ∈ listedPids pidOutput.
Proof.
  unfold killOn. destruct (execPromise w (lsofCommand q)) as [out | m];
    [| intros H; inversion H].
  rewrite list_elem_of_In, in_concat. intros (l & Hl & He).
  apply in_map_iff in Hl as (p' & <- & Hp'). unfold killOne in He.
  exists out. split; [reflexivity |].
  destruct He as [[= -> _] | He]; [rewrite list_elem_of_In; exact Hp' |].
  exfalso. unfold emitLog in He.
  destruct (killError w p');
    match type of He with
    | In _ (if ?b then _ else _) => destruct b
    end; simpl in He; intuition discriminate.
Qed.

(** X2.  [killPortProcesses] signals only processes that the lookup
    listed for one of the given ports, and only with a positive process
    ID: it never signals process 0 or a negative ID (a process group),
    whatever the lookup prints.  Given no port at all it signals nothing,
    probes nothing and resolves. *)
Theorem killPortProcesses_signals_only_listed_processes
  (w after : World) (ports : list Z) :
  (forall p sig, Signalled p sig ∈ snd (killPortProcesses w after ports) ->
     0 < p
     /\ exists q pidOutput, q ∈ ports
          /\ execPromise w (lsofCommand q) = Resolved pidOutput
          /\ p ∈ listedPids pidOutput)
  /\ killPortProcesses w after [] = (Resolved tt, [Slept 1500]).
Proof.
  split; [| reflexivity].
  intros p sig H. unfold killPortProcesses in H.
  destruct (verifyFreed_spec after ports)
    as [[Hv _] | (free & bound & rest & _ & _ & _ & Hv)];
    rewrite Hv in H; simpl in H.
  all: apply elem_of_app in H as [H | H];
    [| apply elem_of_cons in H as [[=] | H];
       rewrite list_elem_of_In in H; apply in_map_iff in H as (? & [=] & _)].
  all: rewrite list_elem_of_In, in_concat in H; destruct H as (l & Hl & He);
    apply in_map_iff in Hl as (q & <- & Hq);
    rewrite <- list_elem_of_In in He; rewrite <- list_elem_of_In in Hq;
    apply killOn_signals in He as (out & Hout & Hp);
    (split; [exact (listedPids_positive out p Hp) | eauto 6]).
Qed.

(** X3.  [getPortConflicts] answers available=true exactly when all of
    3000, 5433 and 8000 can be bound, and then it lists nothing and logs
    nothing.  Every entry it lists is for a required port that could not
    be bound, with a positive process ID that the lookup printed for that
    port. *)
Theorem getPortConflicts_is_sound (w : World) :
  let result := fst (getPortConflicts w) in
  (available result = true <->
     forall q, q ∈ REQUIRED_PORTS -> isPortAvailable w q = true)
  /\ (available result = true -> getPortConflicts w = (mkPortConflicts true [], []))
  /\ (forall c, c ∈ conflicts result ->
        port c ∈ REQUIRED_PORTS /\ isPortAvailable w (port c) = false
        /\ 0 < pid c
        /\ exists pidOutput, execPromise w (lsofCommand (port c)) = Resolved pidOutput
                             /\ pid c ∈ listedPids pidOutput).
Proof.
  simpl.
  assert (Hav : available (fst (getPortConflicts w)) = pc_available (checkRequiredPorts w)).
  { unfold getPortConflicts. destruct (pc_available (checkRequiredPorts w)); reflexivity. }
  split; [| split].
  - rewrite Hav, checkRequiredPorts_available. split.
    + intros Hnil q Hq. destruct (isPortAvailable w q) eqn:E; [reflexivity |].
      assert (Hin : q ∈ blockedPorts (checkRequiredPorts w))
        by (apply checkRequiredPorts_blocked; auto).
      rewrite Hnil in Hin. inversion Hin.
    + intros Hall. destruct (blockedPorts (checkRequiredPorts w)) as [|q qs] eqn:E;
        [reflexivity |].
      assert (Hin : q ∈ blockedPorts (checkRequiredPorts w)) by (rewrite E; left).
      apply checkRequiredPorts_blocked in Hin as [Hq Hb].
      rewrite (Hall q Hq) in Hb. discriminate.
  - rewrite Hav. intros Ha. unfold getPortConflicts. rewrite Ha. reflexivity.
  - intros c Hc.
    destruct (blockedPorts (checkRequiredPorts w)) as [|q0 qs] eqn:E.
    { unfold getPortConflicts in Hc.
      rewrite (proj2 (checkRequiredPorts_available w) E) in Hc. inversion Hc. }
    assert (Hne : blockedPorts (checkRequiredPorts w) <> []) by (rewrite E; discriminate).
    apply (getPortConflicts_entries w c Hne) in Hc as (q & Hq & Hc).
    pose proof (conflictsOn_port w q c Hc) as Hport. subst q.
    apply checkRequiredPorts_blocked in Hq as [Hreq Hb].
    split; [exact Hreq |]. split; [exact Hb |].
    unfold conflictsOn in Hc.
    destruct (execPromise w (lsofCommand (port c))) as [out | m]; [| inversion Hc].
    simpl in Hc. rewrite list_elem_of_In in Hc. apply in_map_iff in Hc as (p & Hp & Hin).
    assert (Hpid : pid c = p).
    { rewrite <- Hp. unfold conflictOf. destruct (execPromise w (psCommand p)); reflexivity. }
    rewrite <- list_elem_of_In in Hin. rewrite Hpid.
    split; [exact (listedPids_positive out p Hin) | eauto].
Qed.

End MorePortFacts.

(* ===================================================================== *)
(** * Starting the stack                                                 *)
(* ===================================================================== *)

Section StartFacts.
Import JS Docker Props MoreProps.

Lemma startHandler_settled (r : Run) (ev : ChildEvent) (p : Settled unit) :
  promise r = Some p -> promise (startHandler r ev) = Some p.
Proof.
  intros H. destruct ev as [text | text | code | m |]; simpl; try exact H.
  - destruct code as [[| n | n] |];
      rewrite (settle_settled _ p) by exact H; exact H.
  - rewrite (settle_settled _ p) by exact H; exact H.
  - destruct (timerArmed r); [| exact H].
    rewrite (settle_settled _ p) by exact H; exact H.
Qed.

Lemma start_settled_stays (events : list ChildEvent) (r : Run) (p : Settled unit) :
  promise r = Some p -> promise (fold_left startHandler events r) = Some p.
Proof.
  revert r. induction events as [|ev events IH]; intros r H; simpl; [exact H |].
  apply IH, startHandler_settled, H.
Qed.

Lemma start_quiet (events : list ChildEvent) (r : Run) :
  Forall isData events ->
  promise (fold_left startHandler events r) = promise r
  /\ timerArmed (fold_left startHandler events r) = timerArmed r
  /\ stderrOutput (fold_left startHandler events r) = stderrOutput r ++ stderrOf events.
Proof.
  intros H. revert r. induction H as [|ev events Hev _ IH]; intros r; simpl.
  - rewrite app_nil_r. auto.
  - destruct ev as [text | text | | |]; try contradiction; simpl.
    + destruct (IH (logData text r)) as (-> & -> & ->). auto.
    + destruct (IH (logData text (appendStderr text r))) as (-> & -> & ->).
      simpl. unfold stderrOf at 2. simpl. rewrite <- app_assoc. auto.
Qed.

(** What the first event that is not output does to a pending promise. *)
Lemma start_first_decides (quiet rest : list ChildEvent) (ev : ChildEvent) :
  Forall isData quiet -> ~ isData ev ->
  promise (fold_left startHandler (quiet ++ ev :: rest) spawned)
  = match ev with
    | Closed (Some 0) => Some (Resolved tt)
    | Closed code => Some (Rejected (startFailure code (stderrOf quiet)))
    | Errored m => Some (Rejected m)
    | _ => Some (Rejected startupTimedOut)
    end.
Proof.
  intros Hq Hev. rewrite fold_left_app. simpl.
  destruct (start_quiet quiet spawned Hq) as (Hp & Ht & Hs). simpl in Hs.
  set (r := fold_left startHandler quiet spawned) in *.
  destruct ev as [text | text | code | m |];
    try (exfalso; apply Hev; exact I).
  - destruct code as [[| n | n] |]; apply start_settled_stays; simpl;
      rewrite settle_pending by exact Hp; try reflexivity; rewrite Hs; reflexivity.
  - apply start_settled_stays; simpl. rewrite settle_pending by exact Hp. reflexivity.
  - apply start_settled_stays; simpl. rewrite Ht. simpl.
    rewrite settle_pending by exact Hp. reflexivity.
Qed.

Lemma start_quiet_signals (events : list ChildEvent) (r : Run) :
  Forall isData events ->
  signals (fold_left startHandler events r) = signals r.
Proof.
  intros H. revert r. induction H as [|ev events Hev _ IH]; intros r;
    cbn [fold_left]; [reflexivity |].
  destruct ev as [text | text | | |]; try contradiction; rewrite IH; reflexivity.
Qed.

Lemma startHandler_disarmed (r : Run) (ev : ChildEvent) :
  timerArmed r = false ->
  timerArmed (startHandler r ev) = false /\ signals (startHandler r ev) = signals r.
Proof.
  intros H. destruct ev as [text | text | [[| n | n] |] | m |];
    unfold startHandler, settle, release, logData, appendStderr; cbn [promise];
    rewrite ?H; try destruct (promise r); cbn [timerArmed signals]; auto.
Qed.

Lemma start_disarmed_stays (events : list ChildEvent) (r : Run) :
  timerArmed r = false -> signals (fold_left startHandler events r) = signals r.
Proof.
  revert r. induction events as [|ev events IH]; intros r H; cbn [fold_left];
    [reflexivity |].
  destruct (startHandler_disarmed r ev H) as [Ht Hs]. rewrite (IH _ Ht). exact Hs.
Qed.

(** The signals of a run: one SIGTERM when the first event that is not
    output is the timeout, none otherwise. *)
Lemma start_first_signals (quiet rest : list ChildEvent) (ev : ChildEvent) :
  Forall isData quiet -> ~ isData ev ->
  signals (fold_left startHandler (quiet ++ ev :: rest) spawned)
  = match ev with TimerFired => [SIGTERM] | _ => [] end.
Proof.
  intros Hq Hev. rewrite fold_left_app. cbn [fold_left].
  destruct (start_quiet quiet spawned Hq) as (_ & Ht & _).
  pose proof (start_quiet_signals quiet spawned Hq) as Hs.
  set (r := fold_left startHandler quiet spawned) in *.
  change (timerArmed spawned) with true in Ht.
  change (signals spawned) with (@nil Signal) in Hs.
  assert (H : timerArmed (startHandler r ev) = false
              /\ signals (startHandler r ev)
                 = match ev with TimerFired => [SIGTERM] | _ => [] end).
  { destruct ev as [text | text | [[| n | n] |] | m |];
      try (exfalso; apply Hev; exact I);
      unfold startHandler, settle, release, killChild, disarm; cbn [promise];
      rewrite ?Ht; try destruct (promise r); cbn [timerArmed signals promise];
      rewrite ?Hs; auto. }
  destruct H as [Hd Hsig]. rewrite (start_disarmed_stays rest _ Hd). exact Hsig.
Qed.

Lemma holdsNul_In (v : jsstring) : holdsNul v = true <-> In 0%N v.
Proof.
  unfold holdsNul. rewrite existsb_exists. split.
  - intros (c & Hc & Heq). apply N.eqb_eq in Heq. subst c. exact Hc.
  - intros H. exists 0%N. split; [exact H | reflexivity].
Qed.

Lemma spawnRefuses_spec (creds : Credentials) :
  spawnRefuses creds = true <->
  (exists v, given (email creds) = Some v /\ In 0%N v)
  \/ (exists v, given (password creds) = Some v /\ In 0%N v).
Proof.
  unfold spawnRefuses. rewrite orb_true_iff.
  assert (H : forall f : option jsstring,
    match f with Some v => holdsNul v | None => false end = true
    <-> exists v, f = Some v /\ In 0%N v).
  { intros [v |]; split.
    - intros H. exists v. split; [reflexivity | apply holdsNul_In; exact H].
    - intros (v' & [= <-] & H). apply holdsNul_In. exact H.
    - discriminate.
    - intros (v' & [=] & _). }
  rewrite !H. reflexivity.
Qed.

(** X4.  Once the compose file is found and the credentials pass,
    [startContainers] hands the environment to [spawn].  If the email or
    the password it adds holds a NUL, [spawn] throws: nothing is spawned
    and the promise is rejected with that TypeError.  Otherwise one
    subprocess is spawned and the promise is settled by the first event
    that is not output: it resolves exactly when that event is a close
    with exit code 0.  A close with any other code, null (ended by a
    signal) included, rejects with the message chosen from the standard
    error written so far; a spawn error rejects with its message; the
    120-second timeout rejects and sends SIGTERM to the child, once, and
    in no other case is the child sent a signal.  No later event changes
    the outcome, and with only output so far the promise is pending. *)
Theorem startContainers_outcome
  (w : World) (config : option ContainerConfig) (creds : Credentials)
  (events : list ChildEvent) :
  composeFileExists w = true ->
  validateCredentials config = Resolved creds ->
  let op := startContainers w config events in
  let p := promise (run op) in
  let sent := signals (run op) in
  (spawnRefuses creds = true <->
   (exists v, given (email creds) = Some v /\ In 0%N v)
   \/ (exists v, given (password creds) = Some v /\ In 0%N v))
  /\ (spawnRefuses creds = true ->
      spawns op = []
      /\ p = Some (Rejected (spawnTypeError w (startEnv w creds)))
      /\ sent = [])
  /\ (spawnRefuses creds = false ->
      spawns op = [mkSpawn (DOCKER_BIN w)
                           (composeArgs (composePath w) [lit "up"; lit "-d"])
                           (startEnv w creds)]
      /\ (Forall isData events -> p = None /\ sent = [])
      /\ (forall quiet rest, Forall isData quiet ->
            (events = quiet ++ Closed (Some 0) :: rest ->
             p = Some (Resolved tt) /\ sent = [])
            /\ (forall code, code <> Some 0 -> events = quiet ++ Closed code :: rest ->
                p = Some (Rejected (startFailure code (stderrOf quiet))) /\ sent = [])
            /\ (forall m, events = quiet ++ Errored m :: rest ->
                p = Some (Rejected m) /\ sent = [])
            /\ (events = quiet ++ TimerFired :: rest ->
                p = Some (Rejected startupTimedOut) /\ sent = [SIGTERM]))
      /\ (p = Some (Resolved tt) <->
          exists quiet rest, Forall isData quiet
                             /\ events = quiet ++ Closed (Some 0) :: rest)
      /\ (sent = [SIGTERM] <->
          exists quiet rest, Forall isData quiet
                             /\ events = quiet ++ TimerFired :: rest)).
Proof.
  intros Hfile Hcreds. cbv zeta. unfold startContainers, getComposePath.
  rewrite Hfile. cbn [mbind Settled_bind mret Settled_ret]. rewrite Hcreds.
  cbn [mbind Settled_bind mret Settled_ret]. cbv zeta.
  split; [| split].
  - apply spawnRefuses_spec.
  - intros ->. cbn. auto.
  - intros ->. cbn [spawns run].
    assert (Hcases : forall quiet rest, Forall isData quiet ->
      (events = quiet ++ Closed (Some 0) :: rest ->
       promise (fold_left startHandler events spawned) = Some (Resolved tt)
       /\ signals (fold_left startHandler events spawned) = [])
      /\ (forall code, code <> Some 0 -> events = quiet ++ Closed code :: rest ->
          promise (fold_left startHandler events spawned)
          = Some (Rejected (startFailure code (stderrOf quiet)))
          /\ signals (fold_left startHandler events spawned) = [])
      /\ (forall m, events = quiet ++ Errored m :: rest ->
          promise (fold_left startHandler events spawned) = Some (Rejected m)
          /\ signals (fold_left startHandler events spawned) = [])
      /\ (events = quiet ++ TimerFired :: rest ->
          promise (fold_left startHandler events spawned)
          = Some (Rejected startupTimedOut)
          /\ signals (fold_left startHandler events spawned) = [SIGTERM])).
    { intros quiet rest Hq. split; [| split; [| split]].
      - intros ->.
        rewrite start_first_decides, start_first_signals by (auto; intros []).
        split; reflexivity.
      - intros code Hcode ->.
        rewrite start_first_decides, start_first_signals by (auto; intros []).
        split; [| reflexivity].
        destruct code as [[| n | n] |]; try reflexivity. congruence.
      - intros m ->.
        rewrite start_first_decides, start_first_signals by (auto; intros []).
        split; reflexivity.
      - intros ->.
        rewrite start_first_decides, start_first_signals by (auto; intros []).
        split; reflexivity. }
    assert (Hquiet : Forall isData events ->
      promise (fold_left startHandler events spawned) = None
      /\ signals (fold_left startHandler events spawned) = []).
    { intros Hq. destruct (start_quiet events spawned Hq) as (-> & _).
      rewrite (start_quiet_signals events spawned Hq). split; reflexivity. }
    split; [reflexivity |]. split; [exact Hquiet |]. split; [exact Hcases |].
    destruct (first_event events) as [Hq | (quiet & ev & rest & Hev & Hq & Hnd)].
    + destruct (Hquiet Hq) as [Hp Hs]. rewrite Hp, Hs.
      assert (Hnone : forall quiet ev rest,
                events = quiet ++ ev :: rest -> isData ev).
      { intros quiet ev rest ->. apply Forall_app in Hq as [_ Hq].
        apply Forall_cons in Hq as [Hq _]. exact Hq. }
      split.
      * split; [discriminate |].
        intros (quiet & rest & _ & H); destruct (Hnone _ _ _ H).
      * split; [discriminate |].
        intros (quiet & rest & _ & H); destruct (Hnone _ _ _ H).
    + split.
      * split.
        -- intros Hres. exists quiet, rest. split; [exact Hq |].
           rewrite Hev, (start_first_decides quiet rest ev Hq Hnd) in Hres.
           destruct ev as [text | text | [[| n | n] |] | m |];
             try discriminate Hres; try (exfalso; apply Hnd; exact I).
           exact Hev.
        -- intros (quiet' & rest' & Hq' & Hev').
           exact (proj1 (proj1 (Hcases quiet' rest' Hq') Hev')).
      * split.
        -- intros Hs. exists quiet, rest. split; [exact Hq |].
           rewrite Hev, (start_first_signals quiet rest ev Hq Hnd) in Hs.
           destruct ev; try discriminate Hs. exact Hev.
        -- intros (quiet' & rest' & Hq' & Hev').
           exact (proj2 (proj2 (proj2 (proj2 (Hcases quiet' rest' Hq'))) Hev')).
Qed.

Lemma startContainers_outcome_witness :
  promise (run (startContainers Sample.bare None
                  [StdoutData (lit "Container trh-backend  Started"); Closed None]))
  = Some (Rejected (lit "Docker compose up failed with code null."))
  /\ signals (run (startContainers Sample.bare None
                     [StdoutData (lit "Container trh-backend  Started"); Closed None]))
     = [].
Proof.
  refine (proj1 (proj2 (proj1 (proj2 (proj2 (proj2 (proj2
    (startContainers_outcome Sample.bare None (mkCredentials None None)
       [StdoutData (lit "Container trh-backend  Started"); Closed None]
       eq_refl eq_refl)) eq_refl)))
    [StdoutData (lit "Container trh-backend  Started")] [] _))
    None _ eq_refl).
  - apply List.Forall_cons; [exact I | apply List.Forall_nil].
  - discriminate.
Defined.

(** A password with a NUL in it passes validation and is refused by
    [spawn]; the timeout of a start that hangs sends one SIGTERM. *)
Example start_refuses_nul_and_times_out :
  let nul := Some (mkConfig None (Some (lit "secret" ++ [0%N] ++ lit "secret"))) in
  spawns (startContainers Sample.bare nul [Closed (Some 0)]) = []
  /\ promise (run (startContainers Sample.bare nul [Closed (Some 0)]))
     = Some (Rejected (lit "The property 'options.env' must be a string without null bytes."))
  /\ signals (run (startContainers Sample.bare None [TimerFired; Closed None]))
     = [SIGTERM].
Proof. vm_compute. repeat split; reflexivity. Qed.

End StartFacts.

(* ===================================================================== *)
(** * Which start failures the page retries                              *)
(* ===================================================================== *)

Section ClassificationFacts.
Import JS Docker SetupPage SetupProps MoreProps.

Lemma startsWith_no_cross (needle pre rest : jsstring) (c : N) :
  existsb (N.eqb c) needle = false ->
  startsWith needle (pre ++ c :: rest) = startsWith needle pre.
Proof.
  revert pre. induction needle as [|a needle IH]; intros pre Hc; [destruct pre; reflexivity |].
  simpl in Hc. apply orb_false_iff in Hc as [Hac Hc].
  destruct pre as [|b pre]; simpl.
  - rewrite N.eqb_sym, Hac. reflexivity.
  - rewrite (IH pre Hc). reflexivity.
Qed.

Lemma includes_no_cross (needle pre rest : jsstring) (c : N) :
  needle <> [] -> existsb (N.eqb c) needle = false ->
  includes needle (pre ++ c :: rest) = includes needle pre || includes needle rest.
Proof.
  intros Hne Hc. induction pre as [|b pre IH].
  - destruct needle as [|a needle]; [congruence |].
    simpl in *. apply orb_false_iff in Hc as [Hac _].
    rewrite N.eqb_sym, Hac. reflexivity.
  - change (includes needle ((b :: pre) ++ c :: rest))
      with (startsWith needle ((b :: pre) ++ c :: rest)
            || includes needle (pre ++ c :: rest)).
    rewrite (startsWith_no_cross needle (b :: pre) rest c Hc), IH.
    simpl. rewrite orb_assoc. reflexivity.
Qed.

Lemma includes_skip (needle mid post : jsstring) :
  needle <> [] ->
  forallb (fun c => negb (existsb (N.eqb c) needle)) mid = true ->
  includes needle (mid ++ post) = includes needle post.
Proof.
  intros Hne. induction mid as [|c mid IH]; intros H; [reflexivity |].
  simpl in H. apply andb_true_iff in H as [Hc Hmid]. apply negb_true_iff in Hc.
  change ((c :: mid) ++ post) with ([] ++ c :: (mid ++ post)).
  rewrite (includes_no_cross needle [] (mid ++ post) c Hne Hc).
  rewrite (IH Hmid). destruct needle; [congruence | reflexivity].
Qed.

(** A text is searched in a prefix, a middle made of code units foreign
    to the needle, and a suffix: the needle is in the prefix or in the
    suffix, or the middle is empty. *)
Lemma includes_around (needle pre mid post : jsstring) :
  needle <> [] ->
  forallb (fun c => negb (existsb (N.eqb c) needle)) mid = true ->
  includes needle (pre ++ mid ++ post)
  = match mid with
    | [] => includes needle (pre ++ post)
    | _ :: _ => includes needle pre || includes needle post
    end.
Proof.
  intros Hne H. destruct mid as [|c mid]; [reflexivity |].
  simpl in H. apply andb_true_iff in H as [Hc Hmid]. apply negb_true_iff in Hc.
  change ((c :: mid) ++ post) with (c :: (mid ++ post)).
  rewrite (includes_no_cross needle pre (mid ++ post) c Hne Hc).
  rewrite (includes_skip needle mid post Hne Hmid). reflexivity.
Qed.

Lemma string_of_uint_units (d : Decimal.uint) :
  forallb isDigitOrMinus (lit (NilEmpty.string_of_uint d)) = true.
Proof. induction d; simpl; try rewrite IHd; reflexivity. Qed.

Lemma showZ_units (n : Z) : forallb isDigitOrMinus (showZ n) = true.
Proof.
  unfold showZ, NilZero.string_of_int, NilZero.string_of_uint.
  destruct (Z.to_int n) as [d | d]; destruct d; simpl;
    try reflexivity; apply string_of_uint_units.
Qed.

Lemma foreign_units (needle mid : jsstring) :
  forallb (fun c => negb (isDigitOrMinus c)) needle = true ->
  forallb isDigitOrMinus mid = true ->
  forallb (fun c => negb (existsb (N.eqb c) needle)) mid = true.
Proof.
  intros Hn Hm. rewrite forallb_forall in *. intros c Hc.
  apply negb_true_iff. destruct (existsb (N.eqb c) needle) eqn:E; [| reflexivity].
  apply existsb_exists in E as (a & Ha & Hca). apply N.eqb_eq in Hca. subst a.
  specialize (Hn c Ha). specialize (Hm c Hc). rewrite Hm in Hn. discriminate.
Qed.

Lemma toLowerCase_units (s : jsstring) :
  forallb isDigitOrMinus s = true -> toLowerCase s = s.
Proof.
  unfold toLowerCase. induction s as [|c s IH]; simpl; [reflexivity |].
  intros H. apply andb_true_iff in H as [Hc Hs]. rewrite (IH Hs). f_equal.
  unfold lowerUnit, isDigitOrMinus in *.
  destruct (N.leb_spec 65 c); [| reflexivity].
  destruct (N.leb_spec c 90); [| reflexivity].
  apply orb_true_iff in Hc as [Hc | Hc].
  - apply andb_true_iff in Hc as [_ Hc]. apply N.leb_le in Hc. lia.
  - apply N.eqb_eq in Hc. lia.
Qed.

Lemma generic_failure_not_port_related (code : option Z) :
  isPortError (lit "Docker compose up failed with code " ++ showCode code ++ lit ".")
  = false.
Proof.
  destruct code as [n|]; [| vm_compute; reflexivity]. unfold showCode, isPortError.
  pose proof (showZ_units n) as Hu.
  unfold toLowerCase. rewrite !map_app. fold (toLowerCase (showZ n)).
  rewrite (toLowerCase_units _ Hu).
  rewrite !includes_around;
    try discriminate; try (apply foreign_units; [vm_compute; reflexivity | exact Hu]).
  destruct (showZ n); vm_compute; reflexivity.
Qed.

(** X5.  Of the failures [startContainers] reports when compose-up
    closes with a non-zero or null code, the setup page classifies as
    port-related, and so retries, exactly those whose standard error
    contains "port is already allocated": the missing-image, the
    cannot-connect and the generic "failed with code" messages are never
    taken for a port error, whatever the exit code.  Neither are the
    startup timeout and the four credential errors. *)
Theorem port_retry_only_for_allocated_port (code : option Z) (stderr : jsstring) :
  isPortError (errorMsgOf (startFailure code stderr)) = includes portAllocated stderr
  /\ isPortError (errorMsgOf startupTimedOut) = false
  /\ Forall (fun m => isPortError (errorMsgOf m) = false)
       [lit "Email address too long"; lit "Invalid email format";
        lit "Password too long"; lit "Password must be at least 8 characters"].
Proof.
  split; [| split; [vm_compute; reflexivity | repeat constructor]].
  unfold startFailure, portAllocated.
  destruct (includes (lit "port is already allocated") stderr); [vm_compute; reflexivity |].
  destruct (includes (lit "No such image") stderr); [vm_compute; reflexivity |].
  destruct (includes (lit "Cannot connect") stderr); [vm_compute; reflexivity |].
  assert (Horstr : forall m, errorMsgOf (lit "Docker compose up failed with code " ++ m)
                             = lit "Docker compose up failed with code " ++ m)
    by reflexivity.
  rewrite Horstr. apply generic_failure_not_port_related.
Qed.

End ClassificationFacts.

(* ===================================================================== *)
(** * More on the health poller                                          *)
(* ===================================================================== *)

Section MorePollerFacts.
Import JS Docker Props MoreProps.





End MorePollerFacts.

(* ===================================================================== *)
(** * Cleaning up, quitting, loading the platform                        *)
(* ===================================================================== *)

Section CleanupFacts.
Import JS Docker DockerExtra.

Lemma cleanup_now (sends : Z -> Signal -> bool) (active : list Child) (e : Effect) :
  e ∈ snd (fst (cleanupProcesses sends active))
  <-> exists proc, proc ∈ active /\ killed proc = false
                   /\ e = Signalled (childId proc) SIGTERM.
Proof.
  unfold cleanupProcesses. simpl. rewrite list_elem_of_In, in_concat. split.
  - intros (l & Hl & He). rewrite map_map in Hl.
    apply in_map_iff in Hl as (proc & <- & Hproc).
    unfold cleanupOne in He. destruct (killed proc) eqn:Hk; simpl in He; [destruct He |].
    destruct He as [<- | []]. exists proc. rewrite list_elem_of_In. auto.
  - intros (proc & Hproc & Hk & ->). exists [Signalled (childId proc) SIGTERM].
    split; [| left; reflexivity]. rewrite map_map. apply in_map_iff.
    exists proc. rewrite <- list_elem_of_In. split; [| exact Hproc].
    unfold cleanupOne. rewrite Hk. reflexivity.
Qed.

Lemma cleanup_later (sends : Z -> Signal -> bool) (active : list Child) (e : Effect) :
  e ∈ snd (cleanupProcesses sends active)
  <-> exists proc, proc ∈ active /\ killed proc = false
                   /\ sends (childId proc) SIGTERM = false
                   /\ e = Signalled (childId proc) SIGKILL.
Proof.
  unfold cleanupProcesses. simpl. rewrite list_elem_of_In, in_concat. split.
  - intros (l & Hl & He). rewrite map_map in Hl.
    apply in_map_iff in Hl as (proc & <- & Hproc).
    unfold cleanupOne, followUp, killProc in He.
    destruct (killed proc) eqn:Hk; simpl in He; [destruct He |].
    destruct (sends (childId proc) SIGTERM) eqn:Hs; simpl in He; [destruct He |].
    destruct He as [<- | []]. exists proc. rewrite list_elem_of_In. auto.
  - intros (proc & Hproc & Hk & Hs & ->). exists [Signalled (childId proc) SIGKILL].
    split; [| left; reflexivity]. rewrite map_map. apply in_map_iff.
    exists proc. rewrite <- list_elem_of_In. split; [| exact Hproc].
    unfold cleanupOne, followUp, killProc. rewrite Hk. simpl. rewrite Hs. reflexivity.
Qed.

(** X7.  [cleanupProcesses] empties the registry and sends SIGTERM to
    exactly the registered children that no signal had been sent to
    before.  Its 5-second timers send SIGKILL exactly to those of them to
    which the SIGTERM could not be sent: because [killed] is set as soon
    as a signal is sent, a child that received the SIGTERM is never sent
    SIGKILL, whether or not it has ended. *)
Theorem cleanupProcesses_escalates_only_after_failed_sigterm
  (sends : Z -> Signal -> bool) (activeProcesses : list Child) :
  let registry := fst (fst (cleanupProcesses sends activeProcesses)) in
  let now := snd (fst (cleanupProcesses sends activeProcesses)) in
  let later := snd (cleanupProcesses sends activeProcesses) in
  registry = []
  /\ (forall e, e ∈ now <->
        exists proc, proc ∈ activeProcesses /\ killed proc = false
                     /\ e = Signalled (childId proc) SIGTERM)
  /\ (forall e, e ∈ later <->
        exists proc, proc ∈ activeProcesses /\ killed proc = false
                     /\ sends (childId proc) SIGTERM = false
                     /\ e = Signalled (childId proc) SIGKILL)
  /\ (forall proc, proc ∈ activeProcesses -> sends (childId proc) SIGTERM = true ->
        Signalled (childId proc) SIGKILL ∉ later).
Proof.
  simpl. split; [reflexivity |]. split; [apply cleanup_now |].
  split; [apply cleanup_later |].
  intros proc Hproc Hs Hin. apply cleanup_later in Hin as (proc' & _ & _ & Hs' & [= Hid]).
  rewrite <- Hid in Hs'. congruence.
Qed.

End CleanupFacts.

Section QuitFacts.
Import JS Docker MainExtra.

Lemma quit_ended (events : list QuitEvent) (q : Quitting) :
  ended q = true -> fold_left quitStep events q = q.
Proof.
  intros H. induction events as [|ev events IH]; cbn [fold_left]; [reflexivity |].
  unfold quitStep at 2. rewrite H. exact IH.
Qed.

(** Requests that leave the application there, once the flag is set. *)
Lemma quit_lingering (waiting : list bool) :
  forall (s : bool) (effects : list AppEffect),
  fold_left quitStep (map lingering waiting) (mkQuitting true s false effects)
  = mkQuitting true s false (effects ++ concat (map lingerEffects waiting)).
Proof.
  induction waiting as [|tray waiting IH]; intros s effects; cbn [map fold_left concat].
  - rewrite app_nil_r. reflexivity.
  - destruct tray; cbn; rewrite IH; repeat rewrite <- app_assoc; reflexivity.
Qed.

(** What holds in every state the main process gets to. *)
Lemma quit_invariant (events : list QuitEvent) :
  forall q,
  ((isQuitting q = false -> did q = [] /\ stopping q = false)
   /\ (length (List.filter isStopContainers (did q)) <= 1)%nat
   /\ (length (List.filter isCleanup (did q)) <= 1)%nat
   /\ (isQuitting q = true ->
       length (List.filter isStopContainers (did q))
       = length (List.filter isCleanup (did q)))
   /\ (List.filter isAppExit (did q) = []
       \/ (ended q = true /\ length (List.filter isAppExit (did q)) = 1%nat))
   /\ (stopping q = true \/ List.filter isAppExit (did q) <> [] ->
       List.filter isStopContainers (did q) <> [])) ->
  let q' := fold_left quitStep events q in
  (length (List.filter isStopContainers (did q')) <= 1)%nat
  /\ (length (List.filter isCleanup (did q')) <= 1)%nat
  /\ (length (List.filter isAppExit (did q')) <= 1)%nat
  /\ (List.filter isAppExit (did q') <> [] ->
      List.filter isStopContainers (did q') <> [] /\ ended q' = true).
Proof.
  induction events as [|ev events IH]; intros q (Hfresh & Hstop & Hclean & Heq & Hexit & Hafter).
  - cbn [fold_left]. cbv zeta. split; [exact Hstop |]. split; [exact Hclean |]. split.
    + destruct Hexit as [-> | [_ ->]]; simpl; lia.
    + intros Hne. split; [apply Hafter; right; exact Hne |].
      destruct Hexit as [He | [He _]]; [contradiction | exact He].
  - cbn [fold_left]. apply IH. clear IH.
    unfold quitStep. destruct (ended q) eqn:Hend.
    { rewrite Hend. exact (conj Hfresh (conj Hstop (conj Hclean (conj Heq (conj Hexit Hafter))))). }
    assert (Hnoexit : List.filter isAppExit (did q) = []).
    { destruct Hexit as [H | [H _]]; [exact H | congruence]. }
    destruct ev as [c | c | outcome].
    + unfold trayQuit, beforeQuit. cbn [isQuitting stopping ended did].
      rewrite <- app_assoc, !List.filter_app, !length_app, Hnoexit. cbn.
      rewrite ?app_nil_r, ?Nat.add_0_r.
      destruct (isQuitting q) eqn:Hq.
      * specialize (Heq eq_refl).
        split; [discriminate |]. split; [exact Hstop |]. split; [exact Hclean |].
        split; [intros _; exact Heq |]. split; [left; reflexivity |].
        intros [Hs | Hne]; [apply Hafter; left; exact Hs | contradiction].
      * destruct (Hfresh eq_refl) as [Hd Hs]. rewrite Hd, Hs. cbn.
        split; [discriminate |]. split; [lia |]. split; [lia |].
        split; [reflexivity |]. split; [left; reflexivity |].
        intros [[=] | Hne]. contradiction.
    + unfold beforeQuit. destruct (isQuitting q) eqn:Hq;
        cbn [isQuitting stopping ended did];
        rewrite !List.filter_app, !length_app, Hnoexit; cbn;
        rewrite ?app_nil_r, ?Nat.add_0_r.
      * specialize (Heq eq_refl).
        split; [discriminate |]. split; [exact Hstop |]. split; [exact Hclean |].
        split; [intros _; exact Heq |]. split; [left; reflexivity |].
        intros [Hs | Hne]; [| contradiction].
        apply Hafter. left. exact Hs.
      * destruct (Hfresh eq_refl) as [Hd Hs]. rewrite Hd. cbn.
        split; [discriminate |]. split; [lia |]. split; [lia |].
        split; [reflexivity |]. split; [left; reflexivity |]. discriminate.
    + destruct (stopping q) eqn:Hs.
      2: { rewrite Hend, Hs.
           exact (conj Hfresh (conj Hstop (conj Hclean (conj Heq (conj Hexit Hafter))))). }
      unfold resumeQuit. cbn [isQuitting stopping ended did].
      rewrite !List.filter_app, !length_app, Hnoexit.
      assert (Hq : isQuitting q = true).
      { destruct (isQuitting q) eqn:Hq; [reflexivity |].
        destruct (Hfresh eq_refl) as [_ H]. congruence. }
      destruct outcome; cbn; rewrite ?app_nil_r, ?Nat.add_0_r.
      * split; [congruence |]. split; [exact Hstop |]. split; [exact Hclean |].
        split; [exact Heq |]. split; [right; auto |].
        intros _. apply Hafter. left. reflexivity.
      * split; [congruence |]. split; [exact Hstop |]. split; [exact Hclean |].
        split; [exact Heq |]. split; [right; auto |].
        intros _. apply Hafter. left. reflexivity.
Qed.

(** With the flag set and no teardown under way, none ever starts. *)
Lemma quit_without_teardown (events : list QuitEvent) :
  forall q,
  isQuitting q = true -> stopping q = false ->
  ~ In StopContainers (did q) -> ~ In CleanupProcesses (did q) ->
  ~ In (AppExit 0) (did q) ->
  let q' := fold_left quitStep events q in
  ~ In StopContainers (did q') /\ ~ In CleanupProcesses (did q')
  /\ ~ In (AppExit 0) (did q').
Proof.
  induction events as [|ev events IH]; intros q Hq Hs Hstop Hclean Hexit;
    cbn [fold_left]; [auto |].
  apply IH; clear IH; unfold quitStep; destruct (ended q); auto;
    destruct ev as [c | c | outcome]; unfold trayQuit, beforeQuit;
    cbn [isQuitting stopping ended did]; rewrite ?Hq, ?Hs;
    cbn [isQuitting stopping ended did]; auto;
    rewrite ?in_app_iff; cbn [In]; intuition discriminate.
Qed.

(** X8.  Quitting.  The teardown of 'before-quit' (kill the tracked
    subprocesses, call [stopContainers]) starts at most once, and
    [app.exit(0)] is called at most once, only in a run in which the
    teardown started, and ends the application.  When the
    first request is the 'Quit' item of the tray menu, which sets
    [isQuitting] before it calls [app.quit()], no teardown ever runs: the
    stack is not stopped.  When the first request is another one, the
    teardown starts and waits for the stop; once the stop is settled,
    whether it succeeded or not, [app.exit(0)] ends the application.  But
    a request that arrives while the teardown waits is not prevented: if
    the windows then close, the application ends at once, with the stop
    still under way and without [app.exit(0)]. *)
Theorem quit_teardown_runs_once_and_not_from_tray
  (events rest : list QuitEvent) (waiting : list bool) (windowsClose : bool)
  (outcome : Settled unit) :
  let start :=
    [PreventDefault; CleanupProcesses; StopContainers]
    ++ concat (map lingerEffects waiting) in
  let first := QuitRequested windowsClose :: map lingering waiting in
  ((length (List.filter isStopContainers (did (quitAll events))) <= 1)%nat
   /\ (length (List.filter isCleanup (did (quitAll events))) <= 1)%nat
   /\ (length (List.filter isAppExit (did (quitAll events))) <= 1)%nat
   /\ (List.filter isAppExit (did (quitAll events)) <> [] ->
       List.filter isStopContainers (did (quitAll events)) <> []
       /\ ended (quitAll events) = true))
  /\ (~ In StopContainers (did (quitAll (TrayQuitClicked windowsClose :: rest)))
      /\ ~ In CleanupProcesses (did (quitAll (TrayQuitClicked windowsClose :: rest)))
      /\ ~ In (AppExit 0) (did (quitAll (TrayQuitClicked windowsClose :: rest))))
  /\ quitAll first = mkQuitting true true false start
  /\ quitAll (first ++ StopSettled outcome :: rest)
     = mkQuitting true false true (start ++ teardownEnd outcome)
  /\ quitAll (first ++ QuitRequested true :: rest)
     = mkQuitting true true true (start ++ [QuitGoesOn])
  /\ quitAll (first ++ TrayQuitClicked true :: rest)
     = mkQuitting true true true (start ++ [AppQuit; QuitGoesOn]).
Proof.
  cbv zeta.
  assert (Hfirst : quitAll (QuitRequested windowsClose :: map lingering waiting)
                   = mkQuitting true true false
                       ([PreventDefault; CleanupProcesses; StopContainers]
                        ++ concat (map lingerEffects waiting))).
  { unfold quitAll. cbn [fold_left]. unfold quitStep at 2, atStart, beforeQuit.
    cbn [ended isQuitting did app]. apply quit_lingering. }
  assert (Hnext : forall ev,
            quitAll ((QuitRequested windowsClose :: map lingering waiting) ++ ev :: rest)
            = fold_left quitStep rest
                (quitStep (mkQuitting true true false
                             ([PreventDefault; CleanupProcesses; StopContainers]
                              ++ concat (map lingerEffects waiting))) ev)).
  { intros ev. unfold quitAll in *. rewrite fold_left_app, Hfirst. reflexivity. }
  split; [| split; [| split; [exact Hfirst | split; [| split]]]].
  - apply (quit_invariant events atStart). unfold atStart. cbn.
    repeat split; auto; try lia. intros [[=] | H]. contradiction.
  - unfold quitAll. cbn [fold_left].
    apply quit_without_teardown; cbn; try reflexivity; intuition discriminate.
  - rewrite Hnext. apply quit_ended. reflexivity.
  - rewrite Hnext. unfold quitStep at 2, beforeQuit. cbn [ended isQuitting stopping did].
    apply quit_ended. reflexivity.
  - rewrite Hnext. unfold quitStep at 2, trayQuit, beforeQuit.
    cbn [ended isQuitting stopping did]. rewrite <- app_assoc.
    apply quit_ended. reflexivity.
Qed.

(** A second request while the stop is under way: the application ends
    before the stop is settled, and [app.exit(0)] is never called. *)
Example quit_during_teardown :
  did (quitAll [QuitRequested true; TrayQuitClicked true; StopSettled (Resolved tt)])
  = [PreventDefault; CleanupProcesses; StopContainers; AppQuit; QuitGoesOn].
Proof. reflexivity. Qed.

End QuitFacts.

Section LoadPlatformFacts.
Import JS Docker MainExtra.





End LoadPlatformFacts.

(* ===================================================================== *)
(** * Installing the backend dependencies                                *)
(* ===================================================================== *)

Section InstallFacts.
Import JS Docker DockerExtra MoreProps.

Ltac short_texts :=
  repeat (apply List.Forall_cons || apply List.Forall_nil); simpl; lia.

Lemma installLine_keeps (r : Install) (line : jsstring) :
  installPromise (installLine r line) = installPromise r
  /\ (Forall (fun t => (length t <= 50)%nat) (progress r) ->
      Forall (fun t => (length t <= 50)%nat) (progress (installLine r line))).
Proof.
  unfold installLine. destruct (isStepLine line); simpl; [| auto].
  split; [reflexivity |]. intros H. apply Forall_app. split; [exact H |].
  apply List.Forall_cons; [rewrite length_take; lia | constructor].
Qed.

Lemma fold_installLine_keeps (lines : list jsstring) (r : Install) :
  installPromise (fold_left installLine lines r) = installPromise r
  /\ (Forall (fun t => (length t <= 50)%nat) (progress r) ->
      Forall (fun t => (length t <= 50)%nat) (progress (fold_left installLine lines r))).
Proof.
  revert r. induction lines as [|line lines IH]; intros r; simpl; [auto |].
  destruct (IH (installLine r line)) as [-> Hb].
  destruct (installLine_keeps r line) as [-> Hb']. auto.
Qed.

Lemma fold_logInstall_keeps (lines : list jsstring) (r : Install) :
  installPromise (fold_left (fun r line => logInstall line r) lines r) = installPromise r
  /\ progress (fold_left (fun r line => logInstall line r) lines r) = progress r.
Proof.
  revert r. induction lines as [|line lines IH]; intros r; simpl; [auto |].
  destruct (IH (logInstall line r)) as [-> ->]. auto.
Qed.

Lemma installHandler_quiet (w : World) (r : Install) (ev : ChildEvent) :
  isQuiet ev -> installPromise (installHandler w r ev) = installPromise r.
Proof.
  destruct ev as [text | text | | |]; simpl; try contradiction; intros _.
  - apply fold_installLine_keeps.
  - apply fold_logInstall_keeps.
  - reflexivity.
Qed.

Lemma installHandler_bound (w : World) (r : Install) (ev : ChildEvent) :
  Forall (fun t => (length t <= 50)%nat) (progress r) ->
  Forall (fun t => (length t <= 50)%nat) (progress (installHandler w r ev)).
Proof.
  intros H. destruct ev as [text | text | [[| n | n] |] | m |]; simpl.
  - apply fold_installLine_keeps, H.
  - rewrite (proj2 (fold_logInstall_keeps _ r)). exact H.
  - unfold settleInstall. simpl. destruct (installPromise r); simpl;
      apply Forall_app; (split; [exact H | short_texts]).
  - unfold settleInstall. destruct (installPromise r); exact H.
  - unfold settleInstall. destruct (installPromise r); exact H.
  - unfold settleInstall. simpl. destruct (installPromise r); simpl;
      apply Forall_app; (split; [exact H | short_texts]).
  - unfold settleInstall. destruct (installPromise r); exact H.
  - exact H.
Qed.

Lemma installHandler_settled (w : World) (r : Install) (ev : ChildEvent)
  (p : Settled unit) :
  installPromise r = Some p -> installPromise (installHandler w r ev) = Some p.
Proof.
  intros H. destruct ev as [text | text | [[| n | n] |] | m |]; simpl;
    unfold settleInstall; simpl; rewrite ?H; simpl; try exact H; try reflexivity.
  - rewrite (proj1 (fold_installLine_keeps _ r)). exact H.
  - rewrite (proj1 (fold_logInstall_keeps _ r)). exact H.
Qed.

Lemma install_settled_stays (w : World) (events : list ChildEvent) (r : Install)
  (p : Settled unit) :
  installPromise r = Some p ->
  installPromise (fold_left (installHandler w) events r) = Some p.
Proof.
  revert r. induction events as [|ev events IH]; intros r H; simpl; [exact H |].
  apply IH, installHandler_settled, H.
Qed.

Lemma install_quiet (w : World) (events : list ChildEvent) (r : Install) :
  Forall isQuiet events ->
  installPromise (fold_left (installHandler w) events r) = installPromise r.
Proof.
  intros H. revert r. induction H as [|ev events Hev _ IH]; intros r; simpl; [auto |].
  rewrite IH. apply installHandler_quiet, Hev.
Qed.

Lemma install_bound (w : World) (events : list ChildEvent) (r : Install) :
  Forall (fun t => (length t <= 50)%nat) (progress r) ->
  Forall (fun t => (length t <= 50)%nat)
         (progress (fold_left (installHandler w) events r)).
Proof.
  revert r. induction events as [|ev events IH]; intros r H; simpl; [exact H |].
  apply IH, installHandler_bound, H.
Qed.

Lemma install_first_decides (w : World) (quiet rest : list ChildEvent)
  (ev : ChildEvent) (r : Install) (p : Settled unit) :
  Forall isQuiet quiet -> installPromise r = None ->
  (forall r', installPromise r' = None ->
              installPromise (installHandler w r' ev) = Some p) ->
  installPromise (fold_left (installHandler w) (quiet ++ ev :: rest) r) = Some p.
Proof.
  intros Hq Hr Hev. rewrite fold_left_app. simpl.
  apply install_settled_stays, Hev. rewrite install_quiet by exact Hq. exact Hr.
Qed.

(** X10.  [installBackendDependencies] rejects with 'Failed to download
    dependency installer', without spawning anything, when the download
    command fails.  Otherwise it spawns the installer, and the first
    close or spawn error decides: a close with exit code 0 or null
    resolves (after the command that makes the symbolic links has been
    run, whatever that command does), a close with another code rejects
    naming the code, a spawn error rejects with its message.  There is no
    timeout: with only output the promise stays pending.  Every text
    handed to [onProgress] has at most 50 code units. *)
Theorem installBackendDependencies_outcome (w : World) (events : list ChildEvent) :
  let spawned := fst (installBackendDependencies w events) in
  let r := snd (installBackendDependencies w events) in
  ((exists m, execPromise w (downloadCommand w) = Rejected m) ->
     spawned = []
     /\ installPromise r = Some (Rejected (lit "Failed to download dependency installer"))
     /\ commands r = [downloadCommand w])
  /\ ((exists out, execPromise w (downloadCommand w) = Resolved out) ->
     length spawned = 1%nat
     /\ (Forall isQuiet events -> installPromise r = None)
     /\ (forall quiet rest, Forall isQuiet quiet ->
           ((events = quiet ++ Closed (Some 0) :: rest
             \/ events = quiet ++ Closed None :: rest) ->
            installPromise r = Some (Resolved tt)
            /\ In (symlinkCommand w) (commands r))
           /\ (forall n, n <> 0 -> events = quiet ++ Closed (Some n) :: rest ->
               installPromise r
               = Some (Rejected (lit "Dependency installation failed with code "
                                 ++ showZ n)))
           /\ (forall m, events = quiet ++ Errored m :: rest ->
               installPromise r = Some (Rejected m))))
  /\ Forall (fun t => (length t <= 50)%nat) (progress r).
Proof.
  simpl. unfold installBackendDependencies.
  destruct (execPromise w (downloadCommand w)) as [out | m0] eqn:Hd; simpl.
  - split; [intros [m [=]] |]. split.
    + intros _. split; [reflexivity |]. split; [apply install_quiet |].
      intros quiet rest Hq. split; [| split].
      * intros Hev. split.
        -- destruct Hev as [-> | ->];
             (apply install_first_decides; [exact Hq | reflexivity |]);
             intros r' Hr'; simpl; unfold settleInstall; simpl; rewrite Hr'; reflexivity.
        -- assert (Hkeep : forall evs r0, In (symlinkCommand w) (commands r0) ->
             In (symlinkCommand w) (commands (fold_left (installHandler w) evs r0))).
           { induction evs as [|e evs IHe]; intros r0 H0; simpl; [exact H0 |].
             apply IHe. destruct e as [text | text | [[| n | n] |] | m |]; simpl;
               unfold settleInstall; simpl;
               repeat match goal with
                      | |- context [match installPromise ?x with _ => _ end] =>
                          destruct (installPromise x)
                      end; simpl; try exact H0;
               try (apply in_or_app; left; exact H0).
             - clear IHe. revert r0 H0.
               induction (List.filter truthyStr (split LF text)) as [|l ls IHl];
                 intros r0 H0; simpl; [exact H0 |].
               apply IHl. unfold installLine. destruct (isStepLine l); exact H0.
             - clear IHe. revert r0 H0.
               induction (List.filter truthyStr (split LF text)) as [|l ls IHl];
                 intros r0 H0; simpl; [exact H0 |]. apply IHl. exact H0. }
           assert (Hran : forall code r0, (code = Some 0 \/ code = None) ->
             In (symlinkCommand w) (commands (installHandler w r0 (Closed code)))).
           { intros code r0 [-> | ->]; simpl; unfold settleInstall; simpl;
               destruct (installPromise r0); simpl; apply in_or_app; right; left;
               reflexivity. }
           destruct Hev as [-> | ->]; rewrite fold_left_app; simpl;
             apply Hkeep; [apply (Hran (Some 0)) | apply (Hran None)]; auto.
      * intros n Hn ->.
        apply install_first_decides; [exact Hq | reflexivity |].
        intros r' Hr'. destruct n; [congruence | |]; simpl; unfold settleInstall;
          rewrite Hr'; reflexivity.
      * intros m ->.
        apply install_first_decides; [exact Hq | reflexivity |].
        intros r' Hr'. simpl. unfold settleInstall. rewrite Hr'. reflexivity.
    + apply install_bound. short_texts.
  - split; [| split; [intros [out [=]] | short_texts]].
    intros _. auto.
Qed.

End InstallFacts.

(* ===================================================================== *)
(** * From the credentials form to the main process                      *)
(* ===================================================================== *)

Section FormFacts.
Import JS Regex Docker Props ConfigPage.







End FormFacts.

(* ===================================================================== *)
(** * One guarded operation at a time                                    *)
(* ===================================================================== *)

Section MoreGuardFacts.
Import JS Docker Main.

(** X12.  However the six guarded operations (start, stop, pull, install
    dependencies, and the tray items Restart and Stop) are requested and
    finish, at most one of them is ever in flight, and the flag is set
    exactly while one is.  A request that arrives meanwhile changes
    nothing: an IPC handler throws 'Docker operation already in
    progress', a tray item shows the 'Operation In Progress' box. *)
Theorem guarded_operations_exclude_each_other
  (events : list Event) (request : Request) :
  let st := runEvents events in
  (length (suspended st) <= 1)%nat
  /\ (dockerOperationInProgress st = true <-> suspended st <> [])
  /\ (dockerOperationInProgress st = true ->
      runEvents (events ++ [Invoked request]) = st
      /\ enter request st
         = if fromTray request
           then ShowedErrorBox (lit "Operation In Progress")
                  (lit "Please wait for the current operation to complete.") st
           else Threw inProgressMessage st)
  /\ (dockerOperationInProgress st = false ->
      runEvents (events ++ [Invoked request]) = mkMain true [request]).
Proof.
  simpl.
  destruct (runEvents_invariant events) as [[Hflag [active Hs]] | Hinit].
  - rewrite Hflag, Hs. split; [simpl; lia |]. split; [split; [discriminate | reflexivity] |].
    split; [| discriminate]. intros _.
    assert (Henter : enter request (runEvents events)
      = if fromTray request
        then ShowedErrorBox (lit "Operation In Progress")
               (lit "Please wait for the current operation to complete.")
               (runEvents events)
        else Threw inProgressMessage (runEvents events)).
    { unfold enter. rewrite Hflag. reflexivity. }
    split; [| exact Henter].
    unfold runEvents in *. rewrite fold_left_app. simpl. rewrite Henter.
    destruct (fromTray request); reflexivity.
  - rewrite Hinit. simpl. split; [lia |].
    split; [split; [discriminate | congruence] |]. split; [discriminate |].
    intros _. unfold runEvents in *. rewrite fold_left_app, Hinit. reflexivity.
Qed.

End MoreGuardFacts.

(* ===================================================================== *)
(** * Port resolution, from the page to the main process                 *)
(* ===================================================================== *)

Section ResolveFacts.
Import JS Docker Props SetupPage SetupProps SetupRun MoreProps.

Lemma uniqueFrom_spec (ports : list Z) :
  forall seen,
  NoDup (uniqueFrom seen ports)
  /\ forall q, q ∈ uniqueFrom seen ports <-> q ∈ ports /\ q ∉ seen.
Proof.
  induction ports as [|p ports IH]; intros seen; simpl.
  - split; [constructor |]. intros q. split; [inversion 1 | intros [H _]; inversion H].
  - destruct (existsb (Z.eqb p) seen) eqn:E.
    + destruct (IH seen) as [Hnd Hin]. split; [exact Hnd |]. intros q.
      rewrite Hin, elem_of_cons. split; [tauto |].
      intros [[-> | H] Hq]; [| tauto]. exfalso. apply Hq.
      apply existsb_exists in E as (x & Hx & Hpx). apply Z.eqb_eq in Hpx. subst x.
      rewrite list_elem_of_In. exact Hx.
    + assert (Hp : p ∉ seen).
      { intros H. rewrite list_elem_of_In in H.
        assert (existsb (Z.eqb p) seen = true)
          by (apply existsb_exists; exists p; split; [exact H | apply Z.eqb_refl]).
        congruence. }
      destruct (IH (p :: seen)) as [Hnd Hin]. split.
      * constructor; [| exact Hnd]. rewrite Hin. intros [_ H]. apply H. left.
      * intros q. rewrite !elem_of_cons, Hin, not_elem_of_cons.
        split.
        -- intros [-> | [H1 [H2 H3]]]; [split; [left; reflexivity | exact Hp] | tauto].
        -- intros [[-> | H] Hq]; [left; reflexivity |].
           destruct (Z.eq_dec q p) as [-> | Hne]; [left; reflexivity | right; tauto].
Qed.

(** X13.  When the port check reports conflicts, [resolvePortConflicts]
    opens the modal once.  If the user confirms, it asks the main
    process, in one call, to free every conflicting port exactly once,
    however many processes hold it; if the user cancels, it asks for
    nothing and returns false. *)
Theorem resolvePortConflicts_frees_each_port_once
  (a : Attempt) (pg : Page) (portResult : PortConflicts) :
  checkPorts a = Resolved portResult -> available portResult = false ->
  let pg' := snd (resolvePortConflicts a pg) in
  modalsShown pg' = S (modalsShown pg)
  /\ (userChoice a = cancel ->
      resolvePortConflicts a pg = (Resolved false, pg')
      /\ calls pg' = calls pg ++ [CheckPorts])
  /\ (userChoice a = confirm ->
      exists ports,
        calls pg' = calls pg ++ [CheckPorts; KillPortProcesses ports]
        /\ NoDup ports
        /\ (forall q, q ∈ ports <-> exists c, c ∈ conflicts portResult /\ port c = q)
        /\ fst (resolvePortConflicts a pg)
           = match killPorts a with
             | Resolved _ => Resolved true
             | Rejected m => Rejected m
             end).
Proof.
  intros Hcheck Hav. simpl. unfold resolvePortConflicts. rewrite Hcheck, Hav.
  split; [destruct (userChoice a); [destruct (killPorts a) |]; reflexivity |].
  split.
  - intros ->. simpl. split; reflexivity.
  - intros ->. exists (uniqueFrom [] (map port (conflicts portResult))).
    destruct (uniqueFrom_spec (map port (conflicts portResult)) []) as [Hnd Hin].
    split; [destruct (killPorts a); simpl; rewrite <- app_assoc; reflexivity |].
    split; [exact Hnd |]. split; [| destruct (killPorts a); reflexivity].
    intros q. rewrite Hin, list_elem_of_fmap. split.
    + intros [(c & -> & Hc) _]. eauto.
    + intros (c & Hc & <-). split; [eauto | inversion 1].
Qed.

Lemma resolvePortConflicts_frees_each_port_once_witness :
  exists ports,
    calls (snd (resolvePortConflicts
                  (mkAttempt (Resolved (mkPortConflicts false
                                [mkPortConflict 3000 11 (lit "node");
                                 mkPortConflict 3000 12 (lit "node")]))
                             confirm (Resolved tt) (Resolved tt))
                  pageAtStep3))
    = calls pageAtStep3 ++ [CheckPorts; KillPortProcesses ports]
    /\ NoDup ports
    /\ (forall q, q ∈ ports <->
          exists c, c ∈ [mkPortConflict 3000 11 (lit "node");
                         mkPortConflict 3000 12 (lit "node")] /\ port c = q)
    /\ fst (resolvePortConflicts
              (mkAttempt (Resolved (mkPortConflicts false
                            [mkPortConflict 3000 11 (lit "node");
                             mkPortConflict 3000 12 (lit "node")]))
                         confirm (Resolved tt) (Resolved tt))
              pageAtStep3)
       = Resolved true.
Proof.
  exact (proj2 (proj2 (resolvePortConflicts_frees_each_port_once
           (mkAttempt (Resolved (mkPortConflicts false
                         [mkPortConflict 3000 11 (lit "node");
                          mkPortConflict 3000 12 (lit "node")]))
                      confirm (Resolved tt) (Resolved tt))
           pageAtStep3 _ eq_refl eq_refl)) eq_refl).
Defined.

Lemma verifyFreed_resolves (after : World) (ports : list Z) :
  fst (verifyFreed after ports) = Resolved tt
  <-> forall q, q ∈ ports -> freeAt after q.
Proof.
  destruct (verifyFreed_spec after ports)
    as [[-> Hall] | (free & bad & rest & -> & _ & Hb & ->)]; simpl.
  - tauto.
  - split; [discriminate |]. intros H. exfalso. apply Hb, H.
    apply elem_of_app. right. left.
Qed.

Lemma killPortProcesses_resolves (w after : World) (ports : list Z) :
  fst (killPortProcesses w after ports) = Resolved tt
  <-> forall q, q ∈ ports -> freeAt after q.
Proof.
  rewrite <- verifyFreed_resolves. unfold killPortProcesses.
  destruct (verifyFreed after ports). reflexivity.
Qed.

(** The ports of the entries are required ports, so port numbers. *)
Lemma conflict_port_in_range (w : World) (c : PortConflict) :
  c ∈ conflicts (fst (getPortConflicts w)) -> portInRange (port c) = true.
Proof.
  intros Hc.
  assert (Hne : blockedPorts (checkRequiredPorts w) <> []).
  { intros Hb. apply checkRequiredPorts_available in Hb.
    unfold getPortConflicts in Hc. rewrite Hb in Hc. inversion Hc. }
  apply (getPortConflicts_entries w c Hne) in Hc as (q & Hq & Hc).
  apply conflictsOn_port in Hc as ->.
  apply checkRequiredPorts_blocked in Hq as [Hq _].
  unfold REQUIRED_PORTS in Hq.
  repeat (apply elem_of_cons in Hq as [-> | Hq]; [reflexivity |]).
  inversion Hq.
Qed.

(** X14.  With the page wired to the main process and the user
    confirming, port resolution succeeds exactly when every port that has
    a conflict entry can be bound after the kill.  A required port that
    is blocked but has no entry (its process lookup failed) is neither
    freed nor probed again: when no blocked port has an entry,
    [killPortProcesses] is called with no port, nothing is signalled, and
    the page logs 'Ports freed successfully' and goes on to start the
    containers, whatever the state of the ports. *)
Theorem port_resolution_ignores_unlisted_ports
  (w after : World) (started : Settled unit) (pg : Page) :
  available (fst (getPortConflicts w)) = false ->
  let a := attemptOn w after confirm started in
  (fst (resolvePortConflicts a pg) = Resolved true
   <-> forall c, c ∈ conflicts (fst (getPortConflicts w)) ->
                 isPortAvailable after (port c) = true)
  /\ ((forall q, q ∈ blockedPorts (checkRequiredPorts w) ->
         exists m, execPromise w (lsofCommand q) = Rejected m) ->
      resolvePortConflicts a pg
      = (Resolved true,
         appendLog (lit "Ports freed successfully")
           (call (KillPortProcesses [])
              (updateStep loading (lit "Freeing ports...")
                 (appendLog (lit "Freeing ports...")
                    (showModal
                       (appendLog (lit "Port conflict on: ")
                          (call CheckPorts
                             (updateStep loading (lit "Checking ports...")
                                (appendLog (lit "Checking for port conflicts...") pg))))))))
                       )
      /\ snd (killPortProcesses w after []) = [Slept 1500]).
Proof.
  intros Hav. simpl.
  set (ports := uniqueFrom [] (map port (conflicts (fst (getPortConflicts w))))).
  assert (Hports : forall q, q ∈ ports <->
            exists c, c ∈ conflicts (fst (getPortConflicts w)) /\ port c = q).
  { intros q. unfold ports.
    rewrite (proj2 (uniqueFrom_spec _ [])), list_elem_of_fmap. split.
    - intros [(c & -> & Hc) _]. eauto.
    - intros (c & Hc & <-). split; [eauto | inversion 1]. }
  split.
  - unfold resolvePortConflicts, attemptOn. cbn [checkPorts userChoice killPorts].
    rewrite Hav. fold ports.
    destruct (fst (killPortProcesses w after ports)) as [[] | m] eqn:Hk; cbn [fst].
    + split; [| reflexivity]. intros _ c Hc.
      apply (proj1 (killPortProcesses_resolves w after ports) Hk).
      apply Hports. eauto.
    + split; [discriminate |]. intros Hall. exfalso.
      assert (Hres : fst (killPortProcesses w after ports) = Resolved tt).
      { apply killPortProcesses_resolves. intros q Hq.
        apply Hports in Hq as (c & Hc & <-).
        split; [exact (conflict_port_in_range w c Hc) | auto]. }
      congruence.
  - intros Hlsof.
    assert (Hnil : conflicts (fst (getPortConflicts w)) = []).
    { destruct (conflicts (fst (getPortConflicts w))) as [|c cs] eqn:E; [reflexivity |].
      exfalso.
      assert (Hne : blockedPorts (checkRequiredPorts w) <> []).
      { intros Hb. apply checkRequiredPorts_available in Hb.
        unfold getPortConflicts in Hav. rewrite Hb in Hav. discriminate. }
      assert (Hc : c ∈ conflicts (fst (getPortConflicts w))) by (rewrite E; left).
      apply (getPortConflicts_entries w c Hne) in Hc as (q & Hq & Hc).
      destruct (Hlsof q Hq) as [m Hm]. unfold conflictsOn in Hc. rewrite Hm in Hc.
      inversion Hc. }
    split; [| reflexivity].
    unfold resolvePortConflicts, attemptOn. cbn [checkPorts userChoice killPorts].
    rewrite Hav, Hnil. reflexivity.
Qed.

Lemma port_resolution_ignores_unlisted_ports_witness :
  fst (resolvePortConflicts
         (attemptOn Sample.port3000Taken Sample.port3000Taken confirm (Resolved tt))
         pageAtStep3)
  = Resolved true.
Proof.
  pose proof (port_resolution_ignores_unlisted_ports
                Sample.port3000Taken Sample.port3000Taken (Resolved tt) pageAtStep3
                eq_refl) as H.
  apply (proj1 H). intros c Hc. inversion Hc.
Defined.

End ResolveFacts.

(* ===================================================================== *)
(** * The steps of [runSetup]                                            *)
(* ===================================================================== *)

Section StepFacts.
Import JS Docker DockerExtra SetupPage SetupRun.

Lemma truncate_length (s : jsstring) : (length (truncate s) <= 38)%nat.
Proof.
  unfold truncate. destruct (Nat.ltb_spec 35 (length s)).
  - rewrite length_app, length_take. change (length (lit "...")) with 3%nat. lia.
  - lia.
Qed.

Lemma pull_fold (events : list PullProgress) :
  forall (s : Setup) (p : Z),
  imagesProgress s = Some p -> 0 <= p <= 95 ->
  let s' := fold_left onPullProgress events s in
  imagesProgress s' = Some (Z.min (p + 2 * Z.of_nat (length events)) 95)
  /\ page s' = page s /\ docker s' = docker s /\ deps s' = deps s
  /\ depsProgress s' = depsProgress s /\ ready s' = ready s
  /\ showInstallDocker s' = showInstallDocker s /\ completions s' = completions s
  /\ requests s' = requests s
  /\ (events <> [] -> status (images s') = loading
                      /\ (length (detail (images s')) <= 38)%nat).
Proof.
  induction events as [|ev events IH] using rev_ind; intros s p Hp Hr; cbv zeta.
  - cbn [fold_left length]. split; [rewrite Hp; f_equal; lia |].
    repeat (split; [reflexivity |]). intros H. exfalso. apply H. reflexivity.
  - rewrite fold_left_app. cbn [fold_left].
    destruct (IH s p Hp Hr) as (Hprog & Hpage & Hd & Hdeps & Hdp & Hrdy & Hsid & Hc & Hreq & _).
    unfold onPullProgress at 1 3 4 5 6 7 8 9 10 11 12. simpl. rewrite Hprog. simpl.
    rewrite length_app. simpl.
    split; [f_equal; lia |]. repeat (split; [assumption |]).
    intros _. split; [reflexivity | apply truncate_length].
Qed.

(** X15.  While images are pulled, the k-th progress event puts the bar
    at min(2k, 95) percent, so the bar never goes back and stays at or
    below 95 until the pull ends.  The step is shown as loading with the
    status of the last event as its text: the status itself when it has
    at most 35 code units, else its first 35 code units followed by
    three dots; before the first event the text is 'Pulling images...'.
    When the pull succeeds the bar jumps to 100 and the run goes on; when
    it fails the bar stays where it was, the step shows 'Failed' and the
    run ends with the 'Pull Failed' error and the retry button. *)
Theorem pull_progress_is_capped (a : Answers) (s : Setup) (k : nat) :
  (k <= length (pullEvents a))%nat ->
  let during :=
    fold_left onPullProgress (take k (pullEvents a))
      (request PullImages
         (setImages loading (lit "Pulling images...") (Some 0)
            (log (lit "Pulling container images...") s))) in
  let after := fst (pullStep a s) in
  imagesProgress during = Some (Z.min (2 * Z.of_nat k) 95)
  /\ match k with
     | O => images during = mkStep loading (lit "Pulling images...")
     | S j =>
         forall ev, pullEvents a !! j = Some ev ->
           images during
           = mkStep loading
               (if (length (progressStatus ev) <=? 35)%nat then progressStatus ev
                else take 35 (progressStatus ev) ++ [46%N; 46%N; 46%N])
     end
  /\ (length (detail (images during)) <= 38)%nat
  /\ match pullAnswer a with
     | Resolved _ =>
         snd (pullStep a s) = true
         /\ imagesProgress after = Some 100
         /\ images after = mkStep success (lit "Images ready")
         /\ errorBox (page after) = errorBox (page s)
     | Rejected m =>
         snd (pullStep a s) = false
         /\ imagesProgress after
            = Some (Z.min (2 * Z.of_nat (length (pullEvents a))) 95)
         /\ images after = mkStep error (lit "Failed")
         /\ errorBox (page after)
            = Some (mkError (lit "Pull Failed") (orStr m (lit "Check internet connection.")))
         /\ showRetry (page after) = true /\ runningRef (page after) = false
     end.
Proof.
  intros Hk. cbv zeta.
  set (s0 := request PullImages
               (setImages loading (lit "Pulling images...") (Some 0)
                  (log (lit "Pulling container images...") s))).
  assert (H0 : imagesProgress s0 = Some 0) by reflexivity.
  destruct (pull_fold (take k (pullEvents a)) s0 0 H0 ltac:(lia))
    as (Hprog & _ & _ & _ & _ & _ & _ & _ & _ & Hdetail).
  rewrite length_take in Hprog.
  split; [rewrite Hprog; f_equal; lia |]. split; [| split].
  - destruct k as [|j]; [reflexivity |]. intros ev Hev.
    rewrite (take_S_r _ _ _ Hev), fold_left_app. cbn [fold_left].
    unfold onPullProgress at 1, setImages. cbn [images]. unfold truncate.
    rewrite Nat.leb_antisym. destruct (35 <? length (progressStatus ev))%nat; reflexivity.
  - destruct (take k (pullEvents a)) as [|e es] eqn:E.
    + simpl. lia.
    + apply Hdetail. discriminate.
  - destruct (pull_fold (pullEvents a) s0 0 H0 ltac:(lia))
      as (Hall & Hpage & _).
    unfold pullStep. fold s0. destruct (pullAnswer a) as [[] | m]; simpl.
    + repeat split. rewrite Hpage. reflexivity.
    + split; [reflexivity |]. split; [rewrite Hall; f_equal; lia |].
      repeat split.
Qed.

Lemma pull_progress_is_capped_witness :
  let events :=
    repeat (mkProgress (lit "backend")
              (lit "Pulling fs layer for the backend image 4f4fb700ef54")) 60 in
  let during :=
    fold_left onPullProgress (take 60 events)
      (request PullImages
         (setImages loading (lit "Pulling images...") (Some 0)
            (log (lit "Pulling container images...") mounted))) in
  imagesProgress during = Some 95
  /\ images during = mkStep loading (lit "Pulling fs layer for the backend im...").
Proof.
  cbv zeta.
  assert (Hk : (60 <= length (pullEvents
            (mkAnswers true true
               (repeat (mkProgress (lit "backend")
                          (lit "Pulling fs layer for the backend image 4f4fb700ef54")) 60)
               (Resolved tt) (fun _ => mkAttempt (Resolved (mkPortConflicts true []))
                                                 cancel (Resolved tt) (Resolved tt))
               (Resolved (mkDeps true true true true true)) [] (Resolved tt)
               (Resolved (mkDeps true true true true true)) [] (Resolved true))))%nat).
  { cbn [pullEvents]. rewrite repeat_length. lia. }
  destruct (pull_progress_is_capped _ mounted 60 Hk) as (Hbar & Htext & _).
  split; [exact Hbar | exact (Htext _ eq_refl)].
Defined.

End StepFacts.

Section DepsFacts.
Import JS Docker DockerExtra SetupPage SetupRun MoreProps.

(** What a fold of callbacks that only touch the deps step leaves alone. *)
Lemma install_events_frame (events : list jsstring) (s : Setup) :
  let s' := fold_left (fun s status => setDeps loading (truncate status) None s) events s in
  page s' = page s /\ requests s' = requests s /\ docker s' = docker s
  /\ images s' = images s /\ imagesProgress s' = imagesProgress s
  /\ ready s' = ready s /\ showInstallDocker s' = showInstallDocker s
  /\ completions s' = completions s.
Proof.
  revert s. induction events as [|ev events IH]; intros s; simpl; [repeat split |].
  destruct (IH (setDeps loading (truncate ev) None s)) as (-> & -> & -> & -> & -> & -> & -> & ->).
  repeat split.
Qed.

Lemma missingOf_check (w : World) :
  let d := checkBackendDependencies w in
  (allInstalled d = true <-> missingOf d = [])
  /\ (In (lit "pnpm") (missingOf d) <-> checkCommand w (lit "pnpm") = false)
  /\ (In (lit "node") (missingOf d) <-> checkCommand w (lit "node") = false)
  /\ (In (lit "forge") (missingOf d) <-> checkCommand w (lit "forge") = false)
  /\ (In (lit "aws") (missingOf d) <-> checkCommand w (lit "aws") = false).
Proof.
  unfold checkBackendDependencies, missingOf.
  cbn [pnpm node forge aws allInstalled].
  destruct (checkCommand w (lit "pnpm")), (checkCommand w (lit "node")),
    (checkCommand w (lit "forge")), (checkCommand w (lit "aws"));
    cbn [negb andb app]; repeat split; intros H;
    try discriminate H; try reflexivity;
    try (vm_compute; tauto);
    vm_compute in H; decompose [or] H; try discriminate; try contradiction.
Qed.

Ltac settle_ex :=
  repeat (first [split | eexists]); first [reflexivity | eassumption].

(** X16.  The dependency step checks once; it installs only when that
    check says a tool is missing, and then at most once, followed by
    exactly one more check: never a second installation.  It succeeds
    only if the last check it made reported everything installed, and
    when the re-check still misses tools it fails with 'Still missing: '
    and their names.  For a check answered by [checkBackendDependencies],
    everything is installed exactly when no tool is listed as missing, and
    a tool is listed exactly when its [which] probe failed. *)
Theorem deps_step_installs_at_most_once (a : Answers) (s : Setup) (w : World) :
  let s' := fst (depsStep a s) in
  let ok := snd (depsStep a s) in
  let new := requestsSince s s' in
  (length (List.filter isInstallRequest new) <= 1)%nat
  /\ (1 <= length (List.filter isCheckRequest new) <= 2)%nat
  /\ (In InstallBackendDeps new <->
      exists d, depsAnswer a = Resolved d /\ allInstalled d = false)
  /\ (length (List.filter isCheckRequest new) = 2%nat <->
      (exists d, depsAnswer a = Resolved d /\ allInstalled d = false)
      /\ exists u, installAnswer a = Resolved u)
  /\ (ok = true <->
      (exists d, depsAnswer a = Resolved d /\ allInstalled d = true)
      \/ ((exists d, depsAnswer a = Resolved d /\ allInstalled d = false)
          /\ (exists u, installAnswer a = Resolved u)
          /\ exists v, verifyAnswer a = Resolved v /\ allInstalled v = true))
  /\ (ok = true -> deps s' = mkStep success (lit "All tools ready")
                   /\ depsProgress s' = Some 100
                   /\ errorBox (page s') = errorBox (page s))
  /\ (ok = false -> deps s' = mkStep error (lit "Installation failed")
                    /\ showRetry (page s') = true /\ runningRef (page s') = false)
  /\ (forall d u v, depsAnswer a = Resolved d -> allInstalled d = false ->
        installAnswer a = Resolved u -> verifyAnswer a = Resolved v ->
        allInstalled v = false ->
        errorBox (page s')
        = Some (mkError (lit "Dependencies Failed")
                  (lit "Still missing: " ++ joinWith (missingOf v))))
  /\ ((allInstalled (checkBackendDependencies w) = true
       <-> missingOf (checkBackendDependencies w) = [])
      /\ (In (lit "pnpm") (missingOf (checkBackendDependencies w))
          <-> checkCommand w (lit "pnpm") = false)
      /\ (In (lit "node") (missingOf (checkBackendDependencies w))
          <-> checkCommand w (lit "node") = false)
      /\ (In (lit "forge") (missingOf (checkBackendDependencies w))
          <-> checkCommand w (lit "forge") = false)
      /\ (In (lit "aws") (missingOf (checkBackendDependencies w))
          <-> checkCommand w (lit "aws") = false)).
Proof.
  cbv zeta. split; [| split; [| split; [| split; [| split; [| split; [| split; [| split]]]]]]].
  9: exact (missingOf_check w).
  all: unfold depsStep, depsTry, requestsSince.
  all: destruct (depsAnswer a) as [d | m1] eqn:Hd.
  all: try destruct (allInstalled d) eqn:Hall.
  all: try destruct (installAnswer a) as [u | m2] eqn:Hi.
  all: try destruct (verifyAnswer a) as [v | m3] eqn:Hv.
  all: try destruct (allInstalled v) eqn:Hallv.
  all: cbn [negb fst snd].
  all: try match goal with
       | |- context [fold_left ?f ?l ?s0] =>
           let H := fresh "Hframe" in
           pose proof (install_events_frame l s0) as H;
           cbv zeta in H;
           set (folded := fold_left f l s0) in *;
           destruct H as (Hpg & Hrq & _)
       end.
  all: cbn [fst snd requests page deps depsProgress errorBox showRetry runningRef
            setDeps setDepsProgress request log onPage failPage appendLog].
  all: rewrite ?Hrq, ?Hpg.
  all: cbn [fst snd requests page deps depsProgress errorBox showRetry runningRef
            setDeps setDepsProgress request log onPage failPage appendLog].
  all: rewrite <- ?app_assoc, ?drop_app_length.
  all: cbn [app List.filter isInstallRequest isCheckRequest length In].
  all: try lia.
  all: try (split; [discriminate | ]); try (split; [| discriminate]).
  all: try (repeat split; reflexivity).
  all: try (intros; discriminate).
  all: try (split; intros H).
  all: try intros H.
  all: repeat match goal with
       | H : ex _ |- _ => destruct H
       | H : _ /\ _ |- _ => destruct H
       | H : _ \/ _ |- _ => destruct H
       | H : False |- _ => destruct H
       end.
  all: intros.
  all: try congruence.
  all: repeat match goal with
       | H : Resolved ?x = Resolved ?y |- _ => injection H as H; try subst y
       end.
  all: try reflexivity.
  all: first [ solve [settle_ex] | left; solve [settle_ex] | right; solve [settle_ex]
             | right; right; left; reflexivity ].
Qed.

End DepsFacts.

(* ===================================================================== *)
(** * The whole run                                                      *)
(* ===================================================================== *)

Section RunFacts.
Import JS Docker DockerExtra SetupPage SetupRun MoreProps.

Lemma sameFlags_refl (pg : Page) : sameFlags pg pg.
Proof. repeat split. Qed.

Lemma sameFlags_trans (pg1 pg2 pg3 : Page) :
  sameFlags pg1 pg2 -> sameFlags pg2 pg3 -> sameFlags pg1 pg3.
Proof.
  unfold sameFlags. intros (-> & -> & -> & ->) (-> & -> & -> & ->). repeat split.
Qed.

(** One turn of the loop of step 3. *)
Lemma tryStart_exit (a : Attempt) (config : ContainerConfig) (pg : Page) :
  match tryStart a config pg with
  | (Resolved true, pg') => status (containers pg') = success /\ sameFlags pg pg'
  | (Resolved false, pg') => status (containers pg') = error /\ stopped pg'
  | (Rejected _, pg') => sameFlags pg pg'
  end.
Proof.
  unfold tryStart, resolvePortConflicts.
  destruct (checkPorts a) as [portResult | m]; [| repeat split].
  destruct (available portResult).
  - destruct (start a); repeat split.
  - destruct (userChoice a).
    + destruct (killPorts a); [| repeat split].
      destruct (start a); repeat split.
    + repeat split. discriminate.
Qed.

(** Step 3 either goes on with the step at success and the flags of the
    page untouched, or returns with the page stopped on an error. *)
Lemma startLoop_exit (attempts : nat -> Attempt) (config : ContainerConfig) :
  forall (left attempt : nat) (pg : Page),
  match startLoop left attempts config attempt pg with
  | (Continues, pg') => status (containers pg') = success /\ sameFlags pg pg'
  | (Returns, pg') => status (containers pg') = error /\ stopped pg'
  end.
Proof.
  induction left as [|left IH]; intros attempt pg; cbn [startLoop].
  - repeat split. discriminate.
  - pose proof (tryStart_exit (attempts attempt) config pg) as Htry.
    destruct (tryStart (attempts attempt) config pg) as [[[|] | m] pg1];
      [exact Htry | exact Htry |].
    cbv zeta.
    destruct (isPortError (orStr m (lit "Could not start containers."))
              && (attempt <? 2)%nat).
    + specialize (IH (S attempt)
                     (appendLog (lit "Port conflict during startup, retrying...") pg1)).
      destruct (startLoop left attempts config (S attempt) _) as [[|] pg2].
      * destruct IH as [Hs Hf]. split; [exact Hs |].
        eapply sameFlags_trans; [exact Htry |]. exact Hf.
      * exact IH.
    + repeat split. discriminate.
Qed.

Lemma status_updates_frame (updates : list jsstring) (s : Setup) :
  let s' := fold_left (fun s status => setReady loading status s) updates s in
  page s' = page s /\ docker s' = docker s /\ images s' = images s
  /\ deps s' = deps s /\ showInstallDocker s' = showInstallDocker s
  /\ completions s' = completions s.
Proof.
  revert s. induction updates as [|u updates IH]; intros s; simpl; [repeat split |].
  destruct (IH (setReady loading u s)) as (-> & -> & -> & -> & -> & ->).
  repeat split.
Qed.

Lemma pull_events_frame (events : list PullProgress) (s : Setup) :
  let s' := fold_left onPullProgress events s in
  page s' = page s /\ docker s' = docker s /\ deps s' = deps s
  /\ ready s' = ready s /\ showInstallDocker s' = showInstallDocker s
  /\ completions s' = completions s.
Proof.
  revert s. induction events as [|ev events IH]; intros s; simpl; [repeat split |].
  destruct (IH (onPullProgress s ev)) as (-> & -> & -> & -> & -> & ->).
  repeat split.
Qed.

(** What a step leaves alone: the other steps' lines, the completions. *)
Lemma dockerStep_exit (a : Answers) (s : Setup) :
  let s' := fst (dockerStep a s) in
  images s' = images s /\ containers (page s') = containers (page s)
  /\ deps s' = deps s /\ ready s' = ready s /\ completions s' = completions s
  /\ if snd (dockerStep a s)
     then status (docker s') = success /\ sameFlags (page s) (page s')
          /\ showInstallDocker s' = showInstallDocker s
          /\ installedAnswer a = true /\ runningAnswer a = true
     else status (docker s') = error /\ stopped (page s')
          /\ (installedAnswer a = false \/ runningAnswer a = false)
          /\ showInstallDocker s'
             = (negb (installedAnswer a) || showInstallDocker s).
Proof.
  unfold dockerStep.
  destruct (installedAnswer a); [destruct (runningAnswer a) |]; cbn;
    repeat split; auto; discriminate.
Qed.

Lemma pullStep_exit (a : Answers) (s : Setup) :
  let s' := fst (pullStep a s) in
  docker s' = docker s /\ containers (page s') = containers (page s)
  /\ deps s' = deps s /\ ready s' = ready s /\ completions s' = completions s
  /\ showInstallDocker s' = showInstallDocker s
  /\ if snd (pullStep a s)
     then status (images s') = success /\ sameFlags (page s) (page s')
          /\ isResolved (pullAnswer a) = true
     else status (images s') = error /\ stopped (page s').
Proof.
  unfold pullStep. cbv zeta.
  match goal with |- context [fold_left onPullProgress ?l ?s0] =>
    destruct (pull_events_frame l s0) as (Hpg & Hd & Hdeps & Hr & Hsid & Hc);
    set (folded := fold_left onPullProgress l s0) in *
  end.
  destruct (pullAnswer a); cbn; rewrite ?Hpg, ?Hd, ?Hdeps, ?Hr, ?Hsid, ?Hc; cbn;
    repeat split; discriminate.
Qed.

Lemma containersStep_exit (a : Answers) (config : ContainerConfig) (s : Setup) :
  let s' := fst (containersStep a config s) in
  docker s' = docker s /\ images s' = images s
  /\ deps s' = deps s /\ ready s' = ready s /\ completions s' = completions s
  /\ showInstallDocker s' = showInstallDocker s
  /\ if snd (containersStep a config s)
     then status (containers (page s')) = success /\ sameFlags (page s) (page s')
     else status (containers (page s')) = error /\ stopped (page s').
Proof.
  unfold containersStep, startStep.
  pose proof (startLoop_exit (attempts a) config 3 0 (page s)) as Hexit.
  destruct (startLoop 3 (attempts a) config 0 (page s)) as [[|] pg'];
    cbn [fst snd onPage docker images deps ready completions showInstallDocker page];
    repeat (split; [reflexivity |]); exact Hexit.
Qed.

Lemma depsStep_exit (a : Answers) (s : Setup) :
  let s' := fst (depsStep a s) in
  docker s' = docker s /\ images s' = images s
  /\ containers (page s') = containers (page s)
  /\ ready s' = ready s /\ completions s' = completions s
  /\ showInstallDocker s' = showInstallDocker s
  /\ if snd (depsStep a s)
     then status (deps s') = success /\ sameFlags (page s) (page s')
     else status (deps s') = error /\ stopped (page s').
Proof.
  unfold depsStep, depsTry. cbv zeta.
  destruct (depsAnswer a) as [d | m1]; [| cbn; repeat split; discriminate].
  destruct (allInstalled d); cbn [negb]; [cbn; repeat split |].
  match goal with |- context [fold_left ?f ?l ?s0] =>
    destruct (install_events_frame l s0) as (Hpg & _ & Hd & Hi & _ & Hr & Hsid & Hc);
    set (folded := fold_left f l s0) in *
  end.
  destruct (installAnswer a) as [u | m2].
  2: { cbn. rewrite ?Hpg, ?Hd, ?Hi, ?Hr, ?Hsid, ?Hc. cbn. repeat split. discriminate. }
  destruct (verifyAnswer a) as [v | m3].
  2: { cbn. rewrite ?Hpg, ?Hd, ?Hi, ?Hr, ?Hsid, ?Hc. cbn. repeat split. discriminate. }
  destruct (allInstalled v); cbn; rewrite ?Hpg, ?Hd, ?Hi, ?Hr, ?Hsid, ?Hc; cbn;
    repeat split; discriminate.
Qed.

Lemma healthStep_exit (a : Answers) (s : Setup) :
  let s' := healthStep a s in
  docker s' = docker s /\ images s' = images s
  /\ containers (page s') = containers (page s) /\ deps s' = deps s
  /\ showInstallDocker s' = showInstallDocker s
  /\ runningRef (page s') = false /\ logListener (page s') = false
  /\ match healthAnswer a with
     | Resolved true =>
         status (ready s') = success /\ errorBox (page s') = errorBox (page s)
         /\ showRetry (page s') = showRetry (page s)
         /\ completions s' = S (completions s)
     | _ =>
         status (ready s') = error /\ stopped (page s')
         /\ completions s' = completions s
     end.
Proof.
  unfold healthStep. cbv zeta.
  match goal with |- context [fold_left ?f ?l ?s0] =>
    destruct (status_updates_frame l s0) as (Hpg & Hd & Hi & Hdeps & Hsid & Hc);
    set (folded := fold_left f l s0) in *
  end.
  destruct (healthAnswer a) as [[|] | m]; cbn;
    rewrite ?Hpg, ?Hd, ?Hi, ?Hdeps, ?Hsid, ?Hc; cbn; repeat split; discriminate.
Qed.

(** X17.  A run of the setup page.  Called while a run is in progress it
    does nothing.  Otherwise it ends with no run in progress and the log
    listener removed, and with the five steps in one of six shapes: the
    first k steps at success, and, when k is below five, step k+1 at
    error and the steps after it still pending; no step is left loading.
    With all five at success there is no error box and no retry button
    and [onComplete] was called once, which requires Docker installed and
    running, a pull that resolved and a health check that answered true;
    with fewer, the error box and the retry button are shown and
    [onComplete] was not called.  The install-Docker button is shown
    exactly when Docker was reported as not installed. *)
Theorem runSetup_ends_in_one_of_six_shapes
  (a : Answers) (adminEmail adminPassword : jsstring) (s : Setup) :
  let s' := runSetup a adminEmail adminPassword s in
  if runningRef (page s) then s' = s
  else
    runningRef (page s') = false /\ logListener (page s') = false
    /\ showInstallDocker s' = negb (installedAnswer a)
    /\ exists k : nat,
         (k <= 5)%nat /\ statuses s' = endShape k
         /\ (k = 5%nat ->
             errorBox (page s') = None /\ showRetry (page s') = false
             /\ completions s' = S (completions s)
             /\ installedAnswer a = true /\ runningAnswer a = true
             /\ isResolved (pullAnswer a) = true
             /\ healthAnswer a = Resolved true)
         /\ ((k < 5)%nat ->
             errorBox (page s') <> None /\ showRetry (page s') = true
             /\ completions s' = completions s).
Proof.
  cbv zeta. unfold runSetup.
  destruct (runningRef (page s)) eqn:Hidle; [reflexivity |].
  set (s0 := reset s).
  assert (H0 : statuses s0 = repeat pending 5) by reflexivity.
  assert (F0 : errorBox (page s0) = None /\ showRetry (page s0) = false) by (split; reflexivity).
  assert (C0 : completions s0 = completions s) by reflexivity.
  assert (I0 : showInstallDocker s0 = false) by reflexivity.
  clearbody s0. unfold statuses in *.
  injection H0 as Hd0 Hi0 Hc0 Hdeps0 Hr0.
  (* step 1 *)
  pose proof (dockerStep_exit a s0) as H1. cbv zeta in H1.
  destruct (dockerStep a s0) as [s1 ok1]. cbn [fst snd] in H1.
  destruct H1 as (Hi1 & Hc1 & Hdeps1 & Hr1 & C1 & H1).
  destruct ok1; cbn [negb].
  2: { destruct H1 as (Hst & (He & Hret & Hrun & Hl) & Hans & Hsid).
       repeat (split; [assumption |]).
       split. { rewrite Hsid, I0. destruct Hans as [-> | Hra]; [reflexivity |].
                destruct (installedAnswer a) eqn:Hia; [| reflexivity].
                reflexivity. }
       exists 0%nat. split; [lia |]. split.
       { unfold endShape. cbn. rewrite Hst, Hi1, Hc1, Hdeps1, Hr1, Hi0, Hc0, Hdeps0, Hr0.
         reflexivity. }
       split; [intros; lia |]. intros _. repeat split; congruence. }
  destruct H1 as (Hst1 & Hf1 & Hsid1 & Hia & Hra).
  (* step 2 *)
  pose proof (pullStep_exit a s1) as H2. cbv zeta in H2.
  destruct (pullStep a s1) as [s2 ok2]. cbn [fst snd] in H2.
  destruct H2 as (Hd2 & Hc2 & Hdeps2 & Hr2 & C2 & Hsid2 & H2).
  destruct ok2; cbn [negb].
  2: { destruct H2 as (Hst & (He & Hret & Hrun & Hl)).
       repeat (split; [assumption |]).
       split; [rewrite Hsid2, Hsid1, I0, Hia; reflexivity |].
       exists 1%nat. split; [lia |]. split.
       { unfold endShape. cbn. rewrite Hst, Hd2, Hst1, Hc2, Hc1, Hdeps2, Hdeps1, Hr2, Hr1,
           Hc0, Hdeps0, Hr0. reflexivity. }
       split; [intros; lia |]. intros _. repeat split; congruence. }
  destruct H2 as (Hst2 & Hf2 & Hpull).
  (* step 3 *)
  pose proof (containersStep_exit a (mkConfig (Some adminEmail) (Some adminPassword)) s2) as H3.
  cbv zeta in H3.
  destruct (containersStep a _ s2) as [s3 ok3]. cbn [fst snd] in H3.
  destruct H3 as (Hd3 & Hi3 & Hdeps3 & Hr3 & C3 & Hsid3 & H3).
  destruct ok3; cbn [negb].
  2: { destruct H3 as (Hst & (He & Hret & Hrun & Hl)).
       repeat (split; [assumption |]).
       split; [rewrite Hsid3, Hsid2, Hsid1, I0, Hia; reflexivity |].
       exists 2%nat. split; [lia |]. split.
       { unfold endShape. cbn. rewrite Hst, Hd3, Hd2, Hst1, Hi3, Hst2, Hdeps3, Hdeps2, Hdeps1,
           Hr3, Hr2, Hr1, Hdeps0, Hr0. reflexivity. }
       split; [intros; lia |]. intros _. repeat split; congruence. }
  destruct H3 as (Hst3 & Hf3).
  (* step 4 *)
  pose proof (depsStep_exit a s3) as H4. cbv zeta in H4.
  destruct (depsStep a s3) as [s4 ok4]. cbn [fst snd] in H4.
  destruct H4 as (Hd4 & Hi4 & Hc4 & Hr4 & C4 & Hsid4 & H4).
  destruct ok4; cbn [negb].
  2: { destruct H4 as (Hst & (He & Hret & Hrun & Hl)).
       repeat (split; [assumption |]).
       split; [rewrite Hsid4, Hsid3, Hsid2, Hsid1, I0, Hia; reflexivity |].
       exists 3%nat. split; [lia |]. split.
       { unfold endShape. cbn. rewrite Hst, Hd4, Hd3, Hd2, Hst1, Hi4, Hi3, Hst2, Hc4, Hst3,
           Hr4, Hr3, Hr2, Hr1, Hr0. reflexivity. }
       split; [intros; lia |]. intros _. repeat split; congruence. }
  destruct H4 as (Hst4 & Hf4).
  (* step 5 *)
  pose proof (healthStep_exit a s4) as H5. cbv zeta in H5.
  set (s5 := healthStep a s4) in *. clearbody s5.
  destruct H5 as (Hd5 & Hi5 & Hc5 & Hdeps5 & Hsid5 & Hrun5 & Hl5 & H5).
  split; [exact Hrun5 |]. split; [exact Hl5 |].
  split; [rewrite Hsid5, Hsid4, Hsid3, Hsid2, Hsid1, I0, Hia; reflexivity |].
  assert (Hflags : errorBox (page s4) = None /\ showRetry (page s4) = false).
  { destruct F0 as [E0 R0].
    destruct Hf1 as (E1 & R1 & _), Hf2 as (E2 & R2 & _), Hf3 as (E3 & R3 & _),
      Hf4 as (E4 & R4 & _).
    split; congruence. }
  destruct Hflags as [E4 R4].
  assert (Hfour : [status (docker s5); status (images s5); status (containers (page s5));
                   status (deps s5)] = repeat success 4).
  { cbn. rewrite Hd5, Hd4, Hd3, Hd2, Hst1, Hi5, Hi4, Hi3, Hst2, Hc5, Hc4, Hst3, Hdeps5, Hst4.
    reflexivity. }
  injection Hfour as Ha Hb Hc Hd.
  destruct (healthAnswer a) as [[|] | m] eqn:Hh.
  - destruct H5 as (Hst & He & Hret & Hcomp).
    exists 5%nat. split; [lia |]. split.
    { unfold endShape. cbn. rewrite Ha, Hb, Hc, Hd, Hst. reflexivity. }
    split; [| intros; lia]. intros _.
    repeat split; try congruence.
  - destruct H5 as (Hst & (He & Hret & _) & Hcomp).
    exists 4%nat. split; [lia |]. split.
    { unfold endShape. cbn. rewrite Ha, Hb, Hc, Hd, Hst. reflexivity. }
    split; [intros; lia |]. intros _. repeat split; congruence.
  - destruct H5 as (Hst & (He & Hret & _) & Hcomp).
    exists 4%nat. split; [lia |]. split.
    { unfold endShape. cbn. rewrite Ha, Hb, Hc, Hd, Hst. reflexivity. }
    split; [intros; lia |]. intros _. repeat split; congruence.
Qed.

End RunFacts.
